(** * BlogAgents: the prompt builder, the topic-idea parser and the pipeline runners

    A shallow embedding of
    - [src/custom_agents/topic_idea_agent.py] (class [TopicIdeaAgent]),
    - [src/app_v2.py] (the inputs of the form, [generate_topics] and the
      markdown export),
    - [src/blog_orchestrator.py] (class [BlogAgentOrchestrator]) and the
      page of [src/app.py] that runs it,
    - [run_workflow] of [src/zzz_pg_openai_workflow.py] and the progress
      handler of [src/app_v2_json.py],
    with the properties of the specification stated and proved (or refuted)
    on the embedded code.

    A Python [str] is the list of its code points: a character is a number,
    U+0000..U+10FFFF for the strings Python has (a larger number stands for
    no character and belongs to no class).  The tables of [isspace] and
    [isdecimal] are those of CPython 3.11 (Unicode 14.0), on the whole
    range.  A literal is written as in the source and read as UTF-8.
    Console output ([print], [logger]) is left out. *)

From Stdlib Require Import Ascii String DecimalString DecimalPos DecimalFacts.
From Stdlib.Strings Require Import Byte.
From stdpp Require Import base numbers list strings gmap.

Local Open Scope Z_scope.

(** ** Python strings *)

Abbreviation char := N (only parsing).
Abbreviation string := (list N).

(** Reading and printing the literals: UTF-8 to code points and back. *)

Module Literal.

Definition continuation (b : N) : option N :=
  if ((128 <=? b) && (b <? 192))%N then Some (b - 128)%N else None.

Fixpoint decode (fuel : nat) (bs : list N) : option (list N) :=
  match fuel with
  | O => match bs with [] => Some [] | _ => None end
  | S fuel' =>
      match bs with
      | [] => Some []
      | b :: bs1 =>
          if (b <? 128)%N then cons b <$> decode fuel' bs1
          else if ((192 <=? b) && (b <? 224))%N then
            match bs1 with
            | b1 :: bs2 =>
                c1 ← continuation b1;
                cons ((b - 192) * 64 + c1)%N <$> decode fuel' bs2
            | _ => None
            end
          else if ((224 <=? b) && (b <? 240))%N then
            match bs1 with
            | b1 :: b2 :: bs3 =>
                c1 ← continuation b1; c2 ← continuation b2;
                cons ((b - 224) * 4096 + c1 * 64 + c2)%N
                  <$> decode fuel' bs3
            | _ => None
            end
          else if ((240 <=? b) && (b <? 248))%N then
            match bs1 with
            | b1 :: b2 :: b3 :: bs4 =>
                c1 ← continuation b1; c2 ← continuation b2;
                c3 ← continuation b3;
                cons ((b - 240) * 262144 + c1 * 4096 + c2 * 64 + c3)%N
                  <$> decode fuel' bs4
            | _ => None
            end
          else None
      end
  end.

Definition encode (c : N) : list N :=
  if (c <? 128)%N then [c]
  else if (c <? 2048)%N then [192 + c / 64; 128 + c mod 64]%N
  else if (c <? 65536)%N then
    [224 + c / 4096; 128 + (c / 64) mod 64; 128 + c mod 64]%N
  else [240 + c / 262144; 128 + (c / 4096) mod 64; 128 + (c / 64) mod 64;
        128 + c mod 64]%N.

Inductive text : Set := Nil | Cons (c : N) (s : text).

Fixpoint of_list (l : list N) : text :=
  match l with [] => Nil | c :: l' => Cons c (of_list l') end.

Fixpoint to_list (l : text) : list N :=
  match l with Nil => [] | Cons c l' => c :: to_list l' end.

Definition parse (bs : list Byte.byte) : option text :=
  of_list <$> decode (length bs) (Byte.to_N <$> bs).

Definition print (s : text) : option (list Byte.byte) :=
  mapM Byte.of_N (mbind (M:=list) encode (to_list s)).

Definition parse_char (bs : list Byte.byte) : option N :=
  match decode (length bs) (Byte.to_N <$> bs) with
  | Some [c] => Some c
  | _ => None
  end.

Definition print_char (c : N) : option (list Byte.byte) :=
  mapM Byte.of_N (encode c).

End Literal.

Declare Scope pystr_scope.
Delimit Scope pystr_scope with py.
Declare Scope pychar_scope.
Delimit Scope pychar_scope with chr.
#[warnings="-via-type-remapping,-via-type-mismatch"]
String Notation list Literal.parse Literal.print
  (via Literal.text mapping [[nil] => Literal.Nil, [cons] => Literal.Cons])
  : pystr_scope.
String Notation N Literal.parse_char Literal.print_char : pychar_scope.
(** [a + b] on strings *)
Infix "+:+" := (@app N) (at level 60, right associativity) : pystr_scope.
Open Scope pystr_scope.

(** ** Python string primitives *)

Module PyStr.

Definition in_range (r : N * N) (c : char) : bool :=
  ((r.1 <=? c) && (c <=? r.2))%N.

(** The characters [str.isspace] holds of: TAB..CR, FS..US and SPACE, NEL,
    NBSP, OGHAM SPACE MARK, EN QUAD..HAIR SPACE, the line and paragraph
    separators, NARROW NBSP, MEDIUM MATHEMATICAL SPACE, IDEOGRAPHIC SPACE. *)
Definition space_ranges : list (N * N) :=
  [(0x9, 0xD); (0x1C, 0x20); (0x85, 0x85); (0xA0, 0xA0); (0x1680, 0x1680);
   (0x2000, 0x200A); (0x2028, 0x2029); (0x202F, 0x202F); (0x205F, 0x205F);
   (0x3000, 0x3000)]%N.

(** [str.isspace] on one character, also what [\s] of [re] and the default
    [str.strip] test. *)
Definition isspace (c : char) : bool :=
  existsb (λ r, in_range r c) space_ranges.
Global Arguments isspace !c /.

(** The decimal digits (category Nd): 0-9 and the digits of the other
    scripts. *)
Definition decimal_ranges : list (N * N) :=
  [(0x30, 0x39); (0x660, 0x669); (0x6F0, 0x6F9); (0x7C0, 0x7C9);
   (0x966, 0x96F); (0x9E6, 0x9EF); (0xA66, 0xA6F); (0xAE6, 0xAEF);
   (0xB66, 0xB6F); (0xBE6, 0xBEF); (0xC66, 0xC6F); (0xCE6, 0xCEF);
   (0xD66, 0xD6F); (0xDE6, 0xDEF); (0xE50, 0xE59); (0xED0, 0xED9);
   (0xF20, 0xF29); (0x1040, 0x1049); (0x1090, 0x1099); (0x17E0, 0x17E9);
   (0x1810, 0x1819); (0x1946, 0x194F); (0x19D0, 0x19D9); (0x1A80, 0x1A89);
   (0x1A90, 0x1A99); (0x1B50, 0x1B59); (0x1BB0, 0x1BB9); (0x1C40, 0x1C49);
   (0x1C50, 0x1C59); (0xA620, 0xA629); (0xA8D0, 0xA8D9); (0xA900, 0xA909);
   (0xA9D0, 0xA9D9); (0xA9F0, 0xA9F9); (0xAA50, 0xAA59); (0xABF0, 0xABF9);
   (0xFF10, 0xFF19); (0x104A0, 0x104A9); (0x10D30, 0x10D39);
   (0x11066, 0x1106F); (0x110F0, 0x110F9); (0x11136, 0x1113F);
   (0x111D0, 0x111D9); (0x112F0, 0x112F9); (0x11450, 0x11459);
   (0x114D0, 0x114D9); (0x11650, 0x11659); (0x116C0, 0x116C9);
   (0x11730, 0x11739); (0x118E0, 0x118E9); (0x11950, 0x11959);
   (0x11C50, 0x11C59); (0x11D50, 0x11D59); (0x11DA0, 0x11DA9);
   (0x16A60, 0x16A69); (0x16AC0, 0x16AC9); (0x16B50, 0x16B59);
   (0x1D7CE, 0x1D7FF); (0x1E140, 0x1E149); (0x1E2F0, 0x1E2F9);
   (0x1E950, 0x1E959); (0x1FBF0, 0x1FBF9)]%N.

(** [\d] of [re] on a [str] pattern, [str.isdecimal] on one character. *)
Definition isdecimal (c : char) : bool :=
  existsb (λ r, in_range r c) decimal_ranges.
Global Arguments isdecimal !c /.

Definition newline : char := 10%N.

Definition is_empty (s : string) : bool :=
  match s with [] => true | _ :: _ => false end.

Fixpoint lstrip (s : string) : string :=
  match s with
  | [] => []
  | c :: s' => if isspace c then lstrip s' else s
  end.

Fixpoint rstrip (s : string) : string :=
  match s with
  | [] => []
  | c :: s' =>
      let r := rstrip s' in
      if isspace c && is_empty r then [] else c :: r
  end.

(** [s.strip()] *)
Definition strip (s : string) : string := lstrip (rstrip s).

(** [s.split(sep)] for a one-character separator: never the empty list. *)
Fixpoint split (sep : char) (s : string) : list string :=
  match s with
  | [] => [[]]
  | c :: s' =>
      if N.eqb c sep then [] :: split sep s'
      else match split sep s' with
           | h :: t => (c :: h) :: t
           | [] => [[c]]
           end
  end.
Global Arguments split sep%_chr s.

(** [s.split(sep, 1)]: cut at the first separator only. *)
Fixpoint split1 (sep : char) (s : string) : list string :=
  match s with
  | [] => [[]]
  | c :: s' =>
      if N.eqb c sep then [[]; s']
      else match split1 sep s' with
           | h :: t => (c :: h) :: t
           | [] => [[c]]
           end
  end.
Global Arguments split1 sep%_chr s.

(** [s.startswith(p)] *)
Fixpoint startswith (p s : string) : bool :=
  match p, s with
  | [], _ => true
  | a :: p', b :: s' => N.eqb a b && startswith p' s'
  | _ :: _, [] => false
  end.

(** [sep.join(l)] *)
Fixpoint join (sep : string) (l : list string) : string :=
  match l with
  | [] => ""
  | [x] => x
  | x :: l' => x +:+ sep +:+ join sep l'
  end.

(** [sub in s] *)
Fixpoint contains (sub s : string) : bool :=
  startswith sub s ||
  match s with
  | [] => false
  | _ :: s' => contains sub s'
  end.

(** [s.lower()], as far as a text of ASCII letters can tell: A-Z and the
    capital letters U+00C0..U+00DE (but the multiplication sign U+00D7)
    move up by 32, as in Python; every other character is left as it is,
    where Python gives characters above U+007F, or [i] and [k] for U+0130
    and U+212A.  The source lower-cases a string only to look for
    "event loop" in it, which none of these can be part of. *)
Definition lower_char (c : char) : char :=
  if ((65 <=? c) && (c <=? 90)
      || (192 <=? c) && (c <=? 222) && negb (c =? 215))%N
  then (c + 32)%N else c.

Definition lower (s : string) : string := lower_char <$> s.

(** The digits of a numeral, as characters. *)
Fixpoint of_ascii (s : String.string) : string :=
  match s with
  | EmptyString => []
  | String c s' => N_of_ascii c :: of_ascii s'
  end.

(** [str(n)] for an [int] *)
Definition str_of_Z (n : Z) : string :=
  of_ascii (NilZero.string_of_int (Z.to_int n)).

(** [len(l)] as a Python [int] *)
Definition len {A} (l : list A) : Z := Z.of_nat (length l).

(** what a character is tested against in a regular expression *)
Definition no_newline (c : char) : bool := negb (N.eqb c newline).
Definition is_char (d c : char) : bool := N.eqb c d.
Global Arguments is_char (d c)%_chr.

End PyStr.

(** ** The fragment of [re] the parser uses

    Anchors and greedy repetitions of one character class, one of which may
    be a capturing group; matching backtracks as [re.match] does: a
    repetition first takes as many characters as it can and gives them back
    one at a time while the rest of the pattern fails. *)

Module Regex.

Inductive item : Type :=
| Bol                                   (* ^ *)
| Eol                                   (* $ *)
| Rep (capture : bool) (cs : char → bool) (lo : nat) (hi : option nat).

Definition may_take (hi : option nat) : bool :=
  match hi with Some O => false | _ => true end.

Definition at_end (s : string) : bool :=
  match s with
  | [] => true
  | [c] => N.eqb c PyStr.newline
  | _ => false
  end.

Section Matcher.
Context {R : Type}.

(** [rep cs lo hi s k]: take a longest run of [cs] characters from [s],
    at least [lo] and at most [hi] of them, such that the continuation
    [k taken rest] succeeds. *)
Fixpoint rep (cs : char → bool) (lo : nat) (hi : option nat)
    (s : string) (k : string → string → option R) : option R :=
  let stop := match lo with O => k [] s | S _ => None end in
  match s with
  | c :: s' =>
      if cs c && may_take hi then
        match rep cs (Nat.pred lo) (Nat.pred <$> hi) s'
                (λ taken rest, k (c :: taken) rest) with
        | Some r => Some r
        | None => stop
        end
      else stop
  | [] => stop
  end.
End Matcher.

(** [run r bol s caps]: match the items [r] against [s]; [bol] tells that
    no character was consumed yet; the captured groups come back in order. *)
Fixpoint run (r : list item) (bol : bool) (s : string) (caps : list string)
    : option (list string) :=
  match r with
  | [] => Some caps
  | Bol :: r' => if bol then run r' bol s caps else None
  | Eol :: r' => if at_end s then run r' bol s caps else None
  | Rep capture cs lo hi :: r' =>
      rep cs lo hi s
        (λ taken rest,
           run r' (bol && PyStr.is_empty taken) rest
             (if capture then caps ++ [taken] else caps))
  end.

(** [re.match(r, s)]: the groups of the match at the start of [s], if any *)
Definition re_match (r : list item) (s : string) : option (list string) :=
  run r true s [].

End Regex.

(** ** Python values, truthiness and exceptions *)

Module Py.

(** An exception object: its class and what [str(e)] gives. *)
Record exn : Type := Exn { exn_class : string; exn_str : string }.

Inductive res (A : Type) : Type :=
| Ok (a : A)
| Raise (e : exn).
Global Arguments Ok {A} a.
Global Arguments Raise {A} e.

Global Instance res_ret : MRet res := λ A a, Ok a.
Global Instance res_bind : MBind res :=
  λ A B f m, match m with Ok a => f a | Raise e => Raise e end.

Definition IndexError : exn := Exn "IndexError" "list index out of range".
Definition AttributeError : exn :=
  Exn "AttributeError" "'NoneType' object has no attribute 'strip'".
(** [KeyError(k)] for a key that [repr] only puts between quotes, as the
    keys of the sources are. *)
Definition KeyError (k : string) : exn := Exn "KeyError" ("'" +:+ k +:+ "'").

(** [l[i]] on a list *)
Definition index {A} (l : list A) (i : nat) : res A :=
  match l !! i with Some a => Ok a | None => Raise IndexError end.

(** [l[:n]] *)
Definition slice_to {A} (n : Z) (l : list A) : list A :=
  if (0 <=? n)%Z then take (Z.to_nat n) l
  else take (length l - Z.to_nat (- n)) l.

(** The values a topic record holds. *)
Inductive value : Type :=
| VStr (s : string)
| VList (l : list string).

Global Instance value_eq_dec : EqDecision value.
Proof. solve_decision. Defined.

Definition truthy_str (s : string) : bool := negb (PyStr.is_empty s).
Definition truthy_list {A} (l : list A) : bool :=
  match l with [] => false | _ => true end.
Definition truthy_value (v : value) : bool :=
  match v with VStr s => truthy_str s | VList l => truthy_list l end.
(** truthiness of an [Optional] *)
Definition truthy_opt {A} (t : A → bool) (o : option A) : bool :=
  match o with None => false | Some a => t a end.
Definition truthy_dict {V} (d : gmap string V) : bool :=
  negb (bool_decide (d = ∅)).

End Py.

(** ** [custom_agents/topic_idea_agent.py] *)

Module TopicIdeaAgent.
Import PyStr Regex Py.

Module Config.
Definition MAX_KEYWORDS : Z := 10.
Definition MAX_EXISTING_TOPICS : Z := 50.
End Config.

Definition _build_keyword_context (target_keywords : option (list string))
    : string :=
  if negb (truthy_opt truthy_list target_keywords) then ""
  else
    let keywords_to_use :=
      slice_to Config.MAX_KEYWORDS (default [] target_keywords) in
    "

TARGET KEYWORDS TO INCORPORATE:
These keywords should be incorporated into the topic ideas for SEO. Try to build topics around these:
" +:+ join ", " keywords_to_use +:+ "
".

Definition _build_product_context (product_target : option string)
    : string :=
  if negb (truthy_opt truthy_str product_target) then ""
  else
    "

PRODUCT/SERVICE TO PROMOTE:
" +:+ default "" product_target +:+ "

IMPORTANT: Create topics that naturally lead to this product as a solution. The content should provide value first, then subtly position the product as helpful. Avoid being overly promotional.
".

Definition _build_duplication_context (existing_topics : option (list string))
    : string :=
  if negb (truthy_opt truthy_list existing_topics)
     || (len (default [] existing_topics) =? 0)
  then ""
  else
    let existing := default [] existing_topics in
    let topics_sample := slice_to Config.MAX_EXISTING_TOPICS existing in
    let overflow_count := len existing - Config.MAX_EXISTING_TOPICS in
    let overflow_text :=
      if overflow_count >? 0
      then "(and " +:+ str_of_Z overflow_count +:+ " more...)" else "" in
    "

EXISTING BLOG POSTS TO AVOID DUPLICATING:
" +:+ join ([newline])
          ((λ title, "- " +:+ title) <$> topics_sample) +:+ "
" +:+ overflow_text +:+ "

CRITICAL: Do NOT suggest topics that are too similar to these existing posts. Generate completely new angles and subjects.
".

(** The f-string of [_build_prompt], as a function of what it
    interpolates. *)
Definition prompt_text (num_topics reference_blog preferences
    keyword_context product_context duplication_context : string)
    : string :=
  "
Generate " +:+ num_topics +:+ " topic ideas for the blog: " +:+ reference_blog +:+ "

Additional preferences:
" +:+ preferences +:+ "
" +:+ keyword_context +:+ "
" +:+ product_context +:+ "
" +:+ duplication_context +:+ "

Instructions:
1. Quickly search " +:+ reference_blog +:+ " for 3-5 recent articles to understand their style
2. Generate " +:+ num_topics +:+ " specific, actionable topic ideas that match their content style
3. Focus on topics they HAVEN'T covered yet - avoid duplicating the existing topics list above
4. If target keywords were provided, prioritize topics that incorporate those high-value keywords
5. If a product target was provided, create topics that naturally allow mentioning/promoting the product while providing genuine value

For EACH topic, use this EXACT format:
## 1. Compelling Title Here
- **Angle**: One sentence unique perspective
- **Keywords**: keyword1, keyword2, keyword3
- **Rationale**: One sentence why this works
- **Content Type**: Guide/Tutorial/Listicle/Case Study

Generate all " +:+ num_topics +:+ " topics now. Be concise but specific.
".

Definition _build_prompt (reference_blog preferences : string)
    (target_keywords : option (list string))
    (product_target : option string)
    (existing_topics : option (list string)) (num_topics : Z) : string :=
  let keyword_context := _build_keyword_context target_keywords in
  let product_context := _build_product_context product_target in
  let duplication_context := _build_duplication_context existing_topics in
  prompt_text (str_of_Z num_topics) reference_blog
    (if truthy_str preferences then preferences
     else "No specific preferences")
    keyword_context product_context duplication_context.

(** [r'^#{0,2}\s*\d+\.\s*(.+)$'] *)
Definition title_re : list item :=
  [Bol;
   Rep false (is_char "#") 0 (Some 2%nat);
   Rep false isspace 0 None;
   Rep false isdecimal 1 None;
   Rep false (is_char ".") 1 (Some 1%nat);
   Rep false isspace 0 None;
   Rep true no_newline 1 None;
   Eol].

(** [m.group(1).strip()] *)
Definition group1_strip (m : list string) : res string :=
  match m !! 0%nat with
  | Some g => Ok (strip g)
  | None => Raise AttributeError
  end.

Definition new_topic (title : string) : gmap string value :=
  {[ "title" := VStr title; "angle" := VStr ""; "keywords" := VList [];
     "rationale" := VStr ""; "content_type" := VStr "" ]}.

(** [current_topic and current_topic.get('title')] *)
Definition has_title (current_topic : option (gmap string value)) : bool :=
  truthy_opt
    (λ d, truthy_dict d && truthy_opt truthy_value (d !! "title"))
    current_topic.

(** [line.split(':', 1)[1].strip()] *)
Definition after_colon (line : string) : res string :=
  v ← index (split1 ":" line) 1; mret (strip v).

(** The parser's loop state: [topics] and [current_topic]. *)
Definition pstate : Type :=
  list (gmap string value) * option (gmap string value).

Definition save_topic (st : pstate) : list (gmap string value) :=
  if has_title st.2 then st.1 ++ [default ∅ st.2] else st.1.

(** One turn of [for line in lines]. *)
Definition parse_line (st : pstate) (line : string) : res pstate :=
  let line := strip line in
  match re_match title_re line with
  | Some title_match =>
      title ← group1_strip title_match;
      mret (save_topic st, Some (new_topic title))
  | None =>
      match st.2 with
      | Some current_topic =>
          if negb (truthy_dict current_topic) then mret st
          else if startswith "- **Angle**:" line
                  || startswith "**Angle**:" line then
            v ← after_colon line;
            mret (st.1, Some (<["angle" := VStr v]> current_topic))
          else if startswith "- **Keywords**:" line
                  || startswith "**Keywords**:" line then
            keywords_str ← after_colon line;
            mret (st.1,
                  Some (<["keywords" :=
                            VList (strip <$> split "," keywords_str)]>
                          current_topic))
          else if startswith "- **Rationale**:" line
                  || startswith "**Rationale**:" line then
            v ← after_colon line;
            mret (st.1, Some (<["rationale" := VStr v]> current_topic))
          else if startswith "- **Content Type**:" line
                  || startswith "**Content Type**:" line then
            v ← after_colon line;
            mret (st.1, Some (<["content_type" := VStr v]> current_topic))
          else mret st
      | None => mret st
      end
  end.

Fixpoint parse_lines (st : pstate) (lines : list string) : res pstate :=
  match lines with
  | [] => mret st
  | line :: lines' => st' ← parse_line st line; parse_lines st' lines'
  end.

Definition _parse_topic_ideas (raw_output : string)
    : res (list (gmap string value)) :=
  let lines := split newline raw_output in
  st ← parse_lines ([], None) lines;
  mret (save_topic st).

End TopicIdeaAgent.

(** ** The markdown export of [app_v2.py] *)

Module AppV2.
Import PyStr Py.

(** A value inside an f-string.  A list would print as Python's [repr],
    which is not embedded: [None] there. *)
Definition format_value (v : value) : option string :=
  match v with VStr s => Some s | VList _ => None end.

(** The characters of a string, as iterating it yields them. *)
Fixpoint chars (s : string) : list string :=
  match s with
  | [] => []
  | c :: s' => [c] :: chars s'
  end.

(** [', '.join(v)] *)
Definition join_value (v : value) : string :=
  match v with
  | VList l => join ", " l
  | VStr s => join ", " (chars s)
  end.

(** [topic.get(key, dflt)] *)
Definition get (topic : gmap string value) (key : string) (dflt : value)
    : value :=
  default dflt (topic !! key).

(** What one turn of [for i, topic in enumerate(topics)] adds to
    [md_content]. *)
Definition md_topic (i : nat) (topic : gmap string value) : option string :=
  title ← format_value (get topic "title" (VStr "Untitled"));
  angle ← format_value (get topic "angle" (VStr "N/A"));
  rationale ← format_value (get topic "rationale" (VStr "N/A"));
  content_type ← format_value (get topic "content_type" (VStr "N/A"));
  Some ("## " +:+ str_of_Z (Z.of_nat i + 1) +:+ ". " +:+ title +:+ "

" +:+ "- **Angle:** " +:+ angle +:+ "
" +:+ "- **Keywords:** " +:+ join_value (get topic "keywords" (VList [])) +:+ "
" +:+ "- **Rationale:** " +:+ rationale +:+ "
" +:+ "- **Content Type:** " +:+ content_type +:+ "

").

Fixpoint md_topics (i : nat) (topics : list (gmap string value))
    : option string :=
  match topics with
  | [] => Some ""
  | topic :: topics' =>
      s ← md_topic i topic; rest ← md_topics (S i) topics';
      Some (s +:+ rest)
  end.

Definition md_content (topics : list (gmap string value)) : option string :=
  body ← md_topics 0 topics;
  Some ("# Generated Topic Ideas

" +:+ body).

End AppV2.

(** ** State and exceptions: the monad of the pipeline runners *)

Module Run.
Import Py.

Definition M (S A : Type) : Type := S → res A * S.

Global Instance M_ret {S} : MRet (M S) := λ A a s, (Ok a, s).
Global Instance M_bind {S} : MBind (M S) :=
  λ A B f m s,
    match m s with
    | (Ok a, s') => f a s'
    | (Raise e, s') => (Raise e, s')
    end.

Definition raise {S A} (e : exn) : M S A := λ s, (Raise e, s).

(** [try: body  except Exception as e: handler e] *)
Definition try_except {S A} (body : M S A) (handler : exn → M S A) : M S A :=
  λ s,
    match body s with
    | (Ok a, s') => (Ok a, s')
    | (Raise e, s') => handler e s'
    end.

Definition get {S} : M S S := λ s, (Ok s, s).
Definition modify {S} (f : S → S) : M S unit := λ s, (Ok tt, f s).

(** Run a computation on the second component of the state. *)
Definition lift {L S A} (m : M S A) : M (L * S) A :=
  λ ls, let '(r, s') := m ls.2 in (r, (ls.1, s')).

(** A result of the model, or the exception it raised. *)
Definition of_res {S A} (r : res A) : M S A := λ s, (r, s).

End Run.

(** ** [blog_orchestrator.py] *)

Module Orchestrator.
Import PyStr Py Run.

(** The keys of [self.agents]. *)
Inductive agent : Type := style_analyzer | researcher | writer | editor.

Global Instance agent_eq_dec : EqDecision agent.
Proof. solve_decision. Defined.

Record RunResult : Type := { final_output : string }.

(** One call of [Runner.run_sync], as the ghost log keeps it. *)
Record call : Type :=
  Call { call_agent : agent; call_prompt : string;
         call_result : res RunResult }.

Section WithRunner.
Context {World : Type}.

(** The state of a run: the outside world the model lives in, and the
    log of the calls made to it (ghost state, never read by the code). *)
Record state : Type := State { world : World; calls : list call }.

(** [Runner.run_sync(agent, prompt)]: the hosted model. *)
Variable runner : agent → string → World → res RunResult * World.

Definition run_sync (a : agent) (prompt : string) : M state RunResult :=
  λ st,
    let '(r, w') := runner a prompt (world st) in
    (r, State w' (calls st ++ [Call a prompt r])).

(** The event-loop set-up of the source does not reach the model; what
    remains is the call, and the second call when the first fails with a
    message about the event loop. *)
Definition _run_agent_safely (a : agent) (prompt : string)
    : M state RunResult :=
  try_except (run_sync a prompt)
    (λ e, if contains "event loop" (lower (exn_str e))
          then run_sync a prompt
          else raise e).

(** A status callback: code of the caller, which may change the world
    and may raise. *)
Definition callback : Type := string → Z → World → res unit * World.

(** [if status_callback: status_callback(message, progress)] *)
Definition notify (status_callback : option callback)
    (message : string) (progress : Z) : M state unit :=
  match status_callback with
  | Some cb =>
      λ st,
        let '(r, w') := cb message progress (world st) in
        (r, State w' (calls st))
  | None => mret tt
  end.

Definition style_prompt (blog_source : string) : string := "
        Analyze the writing style of " +:+ blog_source +:+ ".
        
        Instructions:
        1. Search for recent articles from " +:+ blog_source +:+ "
        2. Analyze multiple articles to identify consistent patterns
        3. Extract the publication's distinctive voice and style characteristics
        4. Create a detailed style guide that includes specific examples
        
        Focus on recent articles to capture current writing style.
        ".

Definition analyze_blog_style (blog_source : string)
    (status_callback : option callback)
    : M state string :=
  notify status_callback ("🎨 Fetching articles from " +:+ blog_source +:+ "...") 15;;
  try_except
    (notify status_callback "🔍 Analyzing writing patterns..." 25;;
     result ← _run_agent_safely style_analyzer (style_prompt blog_source);
     mret (final_output result))
    (λ e, mret ("Style analysis failed: " +:+ exn_str e)).

(** [results[key] = v] on the local dictionary *)
Definition set_result (key v : string)
    : M (gmap string string * state) unit :=
  modify (λ ls, (<[key := v]> ls.1, ls.2)).

Definition research_prompt (topic requirements : string) : string :=
  "Research the topic: " +:+ topic +:+ "

Requirements: " +:+ requirements.

Definition writing_prompt (topic reference_blog requirements
    style_guide research : string) : string := "
            Write a blog post about: " +:+ topic +:+ "
            
            STYLE GUIDE TO FOLLOW:
            " +:+ style_guide +:+ "
            
            RESEARCH DATA:
            " +:+ research +:+ "
            
            REQUIREMENTS: " +:+ requirements +:+ "
            
            Write the post to closely match the style and voice of " +:+ reference_blog +:+ ".
            Use the specific patterns, tone, and techniques identified in the style guide.
            ".

Definition editing_prompt (reference_blog style_guide draft : string)
    : string := "
            Edit this blog post while preserving the " +:+ reference_blog +:+ " style:
            
            ORIGINAL STYLE GUIDE:
            " +:+ style_guide +:+ "
            
            DRAFT TO EDIT:
            " +:+ draft +:+ "
            
            Improve grammar, flow, and clarity while maintaining the distinctive voice and style patterns.
            ".

(** The body of [try:] in [create_blog_post], on the local [results]
    and the state of the run. *)
Definition create_blog_post_body (topic reference_blog requirements : string)
    (status_callback : option callback)
    : M (gmap string string * state) (gmap string string) :=
  (* Step 1: Analyze reference style *)
  lift (notify status_callback "🎨 Analyzing blog style..." 10);;
  style_guide ← lift (analyze_blog_style reference_blog status_callback);
  set_result "style_guide" style_guide;;
  (* Step 2: Research topic *)
  lift (notify status_callback "🔍 Researching topic..." 35);;
  research_result ←
    lift (_run_agent_safely researcher
            (research_prompt topic requirements));
  set_result "research" (final_output research_result);;
  (* Step 3: Write in matching style *)
  lift (notify status_callback "✍️ Writing blog post..." 60);;
  writing_result ←
    lift (_run_agent_safely writer
            (writing_prompt topic reference_blog requirements
               style_guide (final_output research_result)));
  set_result "draft" (final_output writing_result);;
  (* Step 4: Edit while preserving style *)
  lift (notify status_callback "📝 Editing and polishing..." 85);;
  editing_result ←
    lift (_run_agent_safely editor
            (editing_prompt reference_blog style_guide
               (final_output writing_result)));
  set_result "final" (final_output editing_result);;
  lift (notify status_callback "✅ Blog post completed!" 100);;
  ls ← get; mret ls.1.

(** The [except Exception as e:] of [create_blog_post]. *)
Definition create_blog_post_handler (status_callback : option callback)
    (e : exn) : M (gmap string string * state) (gmap string string) :=
  lift (notify status_callback ("❌ Error: " +:+ exn_str e) 0);;
  set_result "error" (exn_str e);;
  ls ← get; mret ls.1.

Definition create_blog_post (topic reference_blog requirements : string)
    (status_callback : option callback)
    : M state (gmap string string) :=
  λ st,
    let results : gmap string string := ∅ in
    let '(r, ls) :=
      try_except
        (create_blog_post_body topic reference_blog requirements
           status_callback)
        (create_blog_post_handler status_callback) (results, st) in
    (r, ls.2).

(** [create_style_matched_post]: the alias, with no callback. *)
Definition create_style_matched_post
    (topic reference_blog requirements : string)
    : M state (gmap string string) :=
  create_blog_post topic reference_blog requirements None.

(** The prompt of one worker of [parallel_research]. *)
Definition area_prompt (topic area : string) : string :=
  "Research specifically about " +:+ area +:+ " in relation to " +:+ topic.

(** [research_area], the worker *)
Definition research_area (topic area : string) : M state string :=
  result ← run_sync researcher (area_prompt topic area);
  mret (final_output result).

(** The pool: the submitted jobs run one after the other in the order
    [schedule] gives (indices into [jobs]); each leaves the outcome of
    its future. *)
Fixpoint run_pool (jobs : list (M state string)) (schedule : list nat)
    (done : gmap nat (res string)) (st : state)
    : gmap nat (res string) * state :=
  match schedule with
  | [] => (done, st)
  | i :: schedule' =>
      match jobs !! i with
      | Some job =>
          let '(r, st') := job st in
          run_pool jobs schedule' (<[i := r]> done) st'
      | None => run_pool jobs schedule' done st
      end
  end.

(** [d[k] = v] on a dictionary that keeps insertion order *)
Fixpoint dict_set {V} (k : string) (v : V) (d : list (string * V))
    : list (string * V) :=
  match d with
  | [] => [(k, v)]
  | (k', v') :: d' =>
      if decide (k' = k) then (k, v) :: d' else (k', v') :: dict_set k v d'
  end.

(** [{area: executor.submit(research_area, area) for area in
    research_areas}]: the future of a job is its index. *)
Fixpoint submit_all (i : nat) (research_areas : list string)
    (futures : list (string * nat)) : list (string * nat) :=
  match research_areas with
  | [] => futures
  | area :: areas' => submit_all (S i) areas' (dict_set area i futures)
  end.

(** [future.result()]; a job the schedule left out never ran, its future
    is cancelled when the pool shuts down. *)
Definition future_result (done : gmap nat (res string)) (future : nat)
    : res string :=
  default (Raise (Exn "CancelledError" "")) (done !! future).

(** [{area: future.result() for area, future in futures.items()}] *)
Fixpoint collect (done : gmap nat (res string))
    (futures : list (string * nat)) (results : gmap string string)
    : res (gmap string string) :=
  match futures with
  | [] => Ok results
  | (area, future) :: futures' =>
      v ← future_result done future;
      collect done futures' (<[area := v]> results)
  end.

Definition parallel_research (topic : string)
    (research_areas : list string) (schedule : list nat)
    : M state (gmap string string) :=
  λ st,
    let jobs := research_area topic <$> research_areas in
    let futures := submit_all 0 research_areas [] in
    let '(done, st') := run_pool jobs schedule ∅ st in
    (collect done futures ∅, st').

End WithRunner.

End Orchestrator.

(** ** The page of [app.py] that runs the orchestrator *)

Module App.
Import PyStr Py Run.

(** What Streamlit is asked to draw. *)
Inductive widget : Type :=
| st_error (body : string)
| st_info (body : string)
| st_markdown (body : string)
| st_tabs (labels : list string)
| st_download_button (label data file_name mime : string)
| st_text_area (label value : string) (height : Z) (disabled : bool).

(** The output column: the text of [status_text], the value of
    [progress_bar], and the elements drawn below them, in order. *)
Record ui : Type :=
  UI { status_text : string; progress_bar : Z; page : list widget }.

(** [s[:n]] on a string, for [0 <= n] *)
Fixpoint str_take (n : nat) (s : string) : string :=
  match n, s with
  | S n', c :: s' => c :: str_take n' s'
  | _, _ => []
  end.

(** [s.replace(a, b)] for one-character [a] and [b] *)
Fixpoint replace (a b : char) (s : string) : string :=
  match s with
  | [] => []
  | c :: s' => (if N.eqb c a then b else c) :: replace a b s'
  end.
Global Arguments replace (a b)%_chr s.

Section WithRunner.
Context {Model : Type}.

(** The hosted model behind [Runner.run_sync]. *)
Variable runner :
  Orchestrator.agent → string → Model →
  res Orchestrator.RunResult * Model.

(** The world the orchestrator runs in: the page and the model. *)
Definition World : Type := ui * Model.
Definition state : Type := @Orchestrator.state World.

Definition app_runner (a : Orchestrator.agent) (prompt : string)
    (w : World) : res Orchestrator.RunResult * World :=
  let '(r, m') := runner a prompt w.2 in (r, (w.1, m')).

(** [update_status]; [st.progress] takes the values 0..100, all that the
    orchestrator passes. *)
Definition update_status : @Orchestrator.callback World :=
  λ message progress w, (Ok tt, (UI message progress (page w.1), w.2)).

Definition show (x : widget) : M state unit :=
  modify (λ st,
    let u := (Orchestrator.world st).1 in
    Orchestrator.State
      (UI (status_text u) (progress_bar u) (page u ++ [x]),
       (Orchestrator.world st).2)
      (Orchestrator.calls st)).

(** [results[k]] *)
Definition getitem (results : gmap string string) (k : string)
    : M state string :=
  match results !! k with
  | Some v => mret v
  | None => raise (KeyError k)
  end.

(** [if "error" in results: ... else: ...] *)
Definition display_results (results : gmap string string)
    (topic reference_blog : string) : M state unit :=
  if bool_decide ("error" ∈ dom results) then
    e ← getitem results "error";
    show (st_error ("❌ Error: " +:+ e))
  else
    show (st_tabs ["📄 Final Post"; "🔗 With Links"; "✍️ Draft";
                   "🎨 Style Guide"; "🔍 Research"]);;
    show (st_markdown "### Final Blog Post");;
    (v ← getitem results "final"; show (st_markdown v));;
    (v ← getitem results "final";
     show (st_download_button "📥 Download as Text" v
             ("blog_post_" +:+ replace " " "_" (str_take 30 topic)
              +:+ ".txt")
             "text/plain"));;
    show (st_markdown "### Post with Internal Links");;
    show (st_markdown
            "*Before final editing - shows added internal links*");;
    (if bool_decide ("with_links" ∈ dom results) then
       v ← getitem results "with_links"; show (st_markdown v)
     else show (st_info "Internal linking data not available"));;
    show (st_markdown "### Original Draft");;
    show (st_markdown "*Before internal linking and editing*");;
    (if bool_decide ("draft" ∈ dom results) then
       v ← getitem results "draft";
       show (st_text_area "Draft Content" v 300 true)
     else show (st_info "Draft not available"));;
    show (st_markdown "### Extracted Style Guide");;
    show (st_markdown
            ("*Style analysis from: " +:+ reference_blog +:+ "*"));;
    (v ← getitem results "style_guide";
     show (st_text_area "Style Guide" v 300 true));;
    show (st_markdown "### Research Data");;
    (v ← getitem results "research";
     show (st_text_area "Research Results" v 300 true)).

(** The [try:] of the generate button, from the call of the
    orchestrator on, with its [except Exception as e:]. *)
Definition generate (topic reference_blog requirements : string)
    : M state unit :=
  try_except
    (results ←
       Orchestrator.create_blog_post app_runner topic reference_blog
         requirements (Some update_status);
     display_results results topic reference_blog)
    (λ e,
       show (st_error ("❌ An error occurred: " +:+ exn_str e));;
       show (st_info
               "💡 Make sure your OpenAI API key is valid and has access to the Agents API")).

(** [if generate_button:] with a key given: an empty progress bar and
    status text, then the run; what the output column shows at the end
    and the model as the run leaves it. *)
Definition on_generate (topic reference_blog requirements : string)
    (m : Model) : ui * Model :=
  if negb (truthy_str (strip topic)) then
    (UI "" 0 [st_error "❌ Please enter a topic for your blog post"], m)
  else
    let '(_, st) :=
      generate topic reference_blog requirements
        (Orchestrator.State (UI "" 0 [], m) []) in
    Orchestrator.world st.

End WithRunner.

End App.

(** ** [run_workflow] of [zzz_pg_openai_workflow.py] *)

Module Workflow.
Import Py Run.

(** What the [state] dictionary and the agents' outputs hold. *)
#[warnings="-register-all"]
Inductive value : Type :=
| VNone
| VStr (s : string)
| VList (l : list string)
| VDict (d : gmap string value).

Inductive agent : Type :=
| text_to_json | writing_style | research | writer | seo_analyzer
| internal_links | editor.

(** Ghost events: the accesses to [state] and the agent runs, in order.
    A path names a field: [["root_blog_url"]] is [state["root_blog_url"]],
    [["response_schema"; "topic"]] is [state["response_schema"]["topic"]]. *)
Inductive event : Type :=
| Read (path : list string)
| Write (path : list string)
| Invoke (a : agent) (context : list (string * value)).

(** The literal [state] starts from. *)
Definition empty_schema : gmap string value :=
  {[ "existing_blog_posts_to_avoid" := VList [];
     "high_performing_pages" := VList [];
     "root_blog_url" := VStr "";
     "seo_keywords" := VList [];
     "target_product_urls" := VList [];
     "topic" := VStr "" ]}.

Definition initial_state : gmap string value :=
  list_to_map
    [("response_schema", VDict empty_schema);
     ("global", VDict empty_schema);
     ("existing_blog_posts_to_avoid", VList []);
     ("high_performing_pages", VList []);
     ("root_blog_url", VNone);
     ("seo_keywords", VList []);
     ("target_product_urls", VList []);
     ("topics", VList []);
     ("writing_style", VNone);
     ("writing_requirements", VNone);
     ("research", VNone);
     ("writer_draft", VNone);
     ("seo_analyze_first_pass", VNone);
     ("internal_links", VNone);
     ("edit_output", VNone)].

Section WithRunner.
Context {World : Type}.

Record wstate : Type :=
  WState { world : World; state : gmap string value; trace : list event }.

(** [Runner.run(agent, input=[...], context=...)]: the input text, the
    attributes of the context object; the result is [final_output]. *)
Variable runner :
  agent → string → list (string * value) → World → res value * World.

Definition log (e : event) : M wstate unit :=
  modify (λ s, WState (world s) (state s) (trace s ++ [e])).

(** [d[k]] *)
Definition getitem (d : gmap string value) (k : string) : M wstate value :=
  match d !! k with
  | Some v => mret v
  | None => raise (KeyError k)
  end.

(** [state[k]] *)
Definition state_get (k : string) : M wstate value :=
  s ← get; v ← getitem (state s) k; log (Read [k]);; mret v.

(** [state[k1][k2]] *)
Definition state_get2 (k1 k2 : string) : M wstate value :=
  s ← get; d ← getitem (state s) k1;
  match d with
  | VDict d =>
      v ← getitem d k2; log (Read [k1; k2]);; mret v
  | _ => raise (Exn "TypeError" "")
  end.

(** [state[k] = v] *)
Definition state_set (k : string) (v : value) : M wstate unit :=
  modify (λ s, WState (world s) (<[k := v]> (state s)) (trace s));;
  log (Write [k]).

Definition run (a : agent) (input : string)
    (context : list (string * value)) : M wstate value :=
  log (Invoke a context);;
  s ← get;
  let '(r, w') := runner a input context (world s) in
  modify (λ s, WState w' (state s) (trace s));;
  of_res r.

(** [result.final_output.model_dump()] *)
Definition model_dump (final_output : value)
    : M wstate (gmap string value) :=
  match final_output with
  | VDict d => mret d
  | _ => raise (Exn "AttributeError" "")
  end.

Definition run_body (input_as_text : string) : M wstate value :=
  text_to_json_result_temp ←
    run text_to_json input_as_text
      [("workflow_input_as_text", VStr input_as_text)];
  output_parsed ← model_dump text_to_json_result_temp;
  (v ← getitem output_parsed "existing_blog_posts_to_avoid";
   state_set "existing_blog_posts_to_avoid" v);;
  (v ← getitem output_parsed "high_performing_pages";
   state_set "high_performing_pages" v);;
  (v ← getitem output_parsed "root_blog_url";
   state_set "root_blog_url" v);;
  (v ← getitem output_parsed "seo_keywords";
   state_set "seo_keywords" v);;
  (v ← getitem output_parsed "target_product_urls";
   state_set "target_product_urls" v);;
  (v ← getitem output_parsed "topics"; state_set "topics" v);;
  (v ← getitem output_parsed "writing_requirements";
   state_set "writing_requirements" v);;
  (* writing style *)
  state_root_blog_url ← state_get "root_blog_url";
  state_high_performing_pages ← state_get "high_performing_pages";
  writing_style_result_temp ←
    run writing_style input_as_text
      [("state_root_blog_url", state_root_blog_url);
       ("state_high_performing_pages", state_high_performing_pages)];
  output_parsed ← model_dump writing_style_result_temp;
  (v ← getitem output_parsed "writing_style_output";
   state_set "writing_style" v);;
  (* research *)
  state_topics ← state_get "topics";
  state_writing_requirements ← state_get "writing_requirements";
  state_target_product_urls ← state_get "target_product_urls";
  research_result_temp ←
    run research input_as_text
      [("state_topics", state_topics);
       ("state_writing_requirements", state_writing_requirements);
       ("state_target_product_urls", state_target_product_urls)];
  output_parsed ← model_dump research_result_temp;
  (v ← getitem output_parsed "research_output"; state_set "research" v);;
  (* writer *)
  state_topics ← state_get "topics";
  state_writing_style ← state_get "writing_style";
  state_research ← state_get "research";
  state_writing_requirements ← state_get "writing_requirements";
  state_root_blog_url ← state_get "root_blog_url";
  writer_result_temp ←
    run writer input_as_text
      [("state_topics", state_topics);
       ("state_writing_style", state_writing_style);
       ("state_research", state_research);
       ("state_writing_requirements", state_writing_requirements);
       ("state_root_blog_url", state_root_blog_url)];
  output_parsed ← model_dump writer_result_temp;
  (v ← getitem output_parsed "writer_output"; state_set "writer_draft" v);;
  (* SEO analysis *)
  state_writer_draft ← state_get "writer_draft";
  state_topics ← state_get "topics";
  state_root_blog_url ← state_get "root_blog_url";
  seo_analyzer_result_temp ←
    run seo_analyzer input_as_text
      [("state_writer_draft", state_writer_draft);
       ("state_topics", state_topics);
       ("state_root_blog_url", state_root_blog_url)];
  output_parsed ← model_dump seo_analyzer_result_temp;
  (v ← getitem output_parsed "seo_analzyer_first_pass_output";
   state_set "seo_analyze_first_pass" v);;
  (* internal links *)
  state_writer_draft ← state_get "writer_draft";
  state_response_schema_root_blog_url ←
    state_get2 "response_schema" "root_blog_url";
  state_seo_analyze_first_pass ← state_get "seo_analyze_first_pass";
  state_response_schema_topic ← state_get2 "response_schema" "topic";
  internal_links_result_temp ←
    run internal_links input_as_text
      [("state_writer_draft", state_writer_draft);
       ("state_response_schema_root_blog_url",
        state_response_schema_root_blog_url);
       ("state_seo_analyze_first_pass", state_seo_analyze_first_pass);
       ("state_response_schema_topic", state_response_schema_topic)];
  internal_links_output_parsed ← model_dump internal_links_result_temp;
  (v ← getitem internal_links_output_parsed "internal_links_output";
   state_set "internal_links" v);;
  (* editor *)
  state_root_blog_url ← state_get "root_blog_url";
  state_writing_style ← state_get "writing_style";
  input_output_parsed_internal_links_output ←
    getitem internal_links_output_parsed "internal_links_output";
  state_seo_analyze_first_pass ← state_get "seo_analyze_first_pass";
  editor_result_temp ←
    run editor input_as_text
      [("state_root_blog_url", state_root_blog_url);
       ("state_writing_style", state_writing_style);
       ("input_output_parsed_internal_links_output",
        input_output_parsed_internal_links_output);
       ("state_seo_analyze_first_pass", state_seo_analyze_first_pass)];
  (* editor_result["output_text"] *)
  mret editor_result_temp.

(** [await run_workflow(workflow_input)]: the text of the editor, which
    is what the dictionary returned holds, and the state, the world and
    the ghost trace the run ends with. *)
Definition run_workflow (input_as_text : string) (w : World)
    : res value * wstate :=
  run_body input_as_text (WState w initial_state []).

End WithRunner.

End Workflow.

(** ** Predicates on strings used in the statements *)

Module StrPred.
Import PyStr.

(** [has_char c s]: the character occurs in the string *)
Fixpoint has_char (c : char) (s : string) : bool :=
  match s with
  | [] => false
  | d :: s' => N.eqb d c || has_char c s'
  end.
Global Arguments has_char c%_chr s.

Fixpoint all_chars (p : char → bool) (s : string) : bool :=
  match s with
  | [] => true
  | c :: s' => p c && all_chars p s'
  end.

(** the string does not go on with a character of the class *)
Definition stops (p : char → bool) (s : string) : bool :=
  match s with [] => true | c :: _ => negb (p c) end.

(** a class that excludes another one *)
Definition excludes (q p : char → bool) : Prop :=
  ∀ c, q c = true → p c = false.

(** two ranges of characters with no character in common *)
Definition apart (r1 r2 : N * N) : bool :=
  ((r1.2 <? r2.1) || (r2.2 <? r1.1))%N.

(** a repetition count within the upper bound of a repetition *)
Definition fits (hi : option nat) (n : nat) : Prop :=
  match hi with Some h => (n ≤ h)%nat | None => True end.

(** [n] times the character [#] *)
Fixpoint hashes (n : nat) : string :=
  match n with O => "" | S n' => "#" +:+ hashes n' end.

(** the two strings differ at a position both have *)
Fixpoint diverge (p q : string) : bool :=
  match p, q with
  | a :: p', b :: q' => if N.eqb a b then diverge p' q' else true
  | _, _ => false
  end.

End StrPred.

(** ** The heading convention the prompt asks the model to follow

    [_build_prompt] shows the format: a numbered heading ([## 1. Title], the
    parser's comment also names [1. Title]) followed by lines that start
    with a bolded label ([- **Angle**: ...] or [**Angle**: ...]). *)

Module Convention.
Import PyStr Py TopicIdeaAgent StrPred.

Inductive label : Type := Angle | Keywords | Rationale | ContentType.

Global Instance label_eq_dec : EqDecision label.
Proof. solve_decision. Defined.

Definition label_text (l : label) : string :=
  match l with
  | Angle => "Angle" | Keywords => "Keywords"
  | Rationale => "Rationale" | ContentType => "Content Type"
  end.

Definition label_key (l : label) : string :=
  match l with
  | Angle => "angle" | Keywords => "keywords"
  | Rationale => "rationale" | ContentType => "content_type"
  end.

(** A line under a heading: a labelled field, with or without the leading
    dash, or an empty line. *)
Inductive body_line : Type :=
| Field (dashed : bool) (l : label) (text : string)
| Blank.

Record block : Type :=
  Block { level : nat; number : string; title : string;
          body : list body_line }.

Definition render_line (ln : body_line) : string :=
  match ln with
  | Field dashed l text =>
      (if dashed then "- " else "") +:+ "**" +:+ label_text l +:+ "**: "
      +:+ text
  | Blank => ""
  end.

Definition render_heading (b : block) : string :=
  hashes (level b) +:+ (if level b is O then "" else " ")
  +:+ number b +:+ ". " +:+ title b.

Definition render_block (b : block) : list string :=
  render_heading b :: (render_line <$> body b).

(** The model output: the lines of the blocks, one per line. *)
Definition render (doc : list block) : string :=
  join ([newline]) (concat (render_block <$> doc)).

(** What a labelled line says its field is, and what a field is when no
    line names it. *)
Definition field_value (l : label) (text : string) : value :=
  match l with
  | Keywords => VList (strip <$> split "," (strip text))
  | _ => VStr (strip text)
  end.

Definition empty_value (l : label) : value :=
  match l with Keywords => VList [] | _ => VStr "" end.

(** The texts of the lines of a body that carry the label, in order. *)
Definition texts_of (l : label) (lines : list body_line) : list string :=
  omap (λ ln, match ln with
              | Field _ l' text => if decide (l' = l) then Some text else None
              | Blank => None
              end) lines.

Definition set_field (d : gmap string value) (ln : body_line)
    : gmap string value :=
  match ln with
  | Field _ l text => <[label_key l := field_value l text]> d
  | Blank => d
  end.

(** The record a block stands for. *)
Definition record_of (b : block) : gmap string value :=
  foldl set_field (new_topic (strip (title b))) (body b).

Definition wf_line (ln : body_line) : bool :=
  match ln with
  | Field _ _ text => negb (has_char newline text)
  | Blank => true
  end.

(** A block follows the convention: at most two [#], a decimal number, a
    title with some text, everything on one line. *)
Definition wf_block (b : block) : bool :=
  (level b <=? 2)%nat
  && negb (is_empty (number b)) && all_chars isdecimal (number b)
  && negb (has_char newline (title b)) && negb (is_empty (strip (title b)))
  && forallb wf_line (body b).

(** The lines of a text the parser takes for a title line. *)
Definition is_title_line (line : string) : bool :=
  bool_decide (is_Some (Regex.re_match title_re (strip line))).

(** The label prefixes [_parse_topic_ideas] tests a line against. *)
Definition field_prefixes : list string :=
  ["- **Angle**:"; "**Angle**:"; "- **Keywords**:"; "**Keywords**:";
   "- **Rationale**:"; "**Rationale**:";
   "- **Content Type**:"; "**Content Type**:"].

Definition no_label (line : string) : bool :=
  forallb (λ p, negb (startswith p line)) field_prefixes.

(** A topic record with its five fields. *)
Definition mk_topic (t a : string) (ks : list string) (r c : string)
    : gmap string value :=
  {[ "title" := VStr t; "angle" := VStr a; "keywords" := VList ks;
     "rationale" := VStr r; "content_type" := VStr c ]}.

Definition one_line (s : string) : Prop := has_char newline s = false.

(** The records the parser builds: five fields of the right types, each
    on one line, the title stripped and not empty. *)
Definition wf_topic (d : gmap string value) : Prop :=
  ∃ t a ks r c,
    d = mk_topic t a ks r c ∧ t ≠ "" ∧ strip t = t ∧ one_line t ∧
    one_line a ∧ Forall one_line ks ∧ one_line r ∧ one_line c.

(** The loop state holds well-formed records only. *)
Definition pstate_wf (st : pstate) : Prop :=
  Forall wf_topic st.1 ∧ from_option wf_topic True st.2.

(** The records opened so far. *)
Definition opened (st : pstate) : nat :=
  (length st.1 + (if st.2 is Some _ then 1 else 0))%nat.

Definition five_keys : gset string :=
  {[ "title"; "angle"; "keywords"; "rationale"; "content_type" ]}.

End Convention.

(** ** The lines of the markdown export *)

Module ExportLines.
Import PyStr Py TopicIdeaAgent StrPred Convention.

(** Lines, each one ended by a newline. *)
Fixpoint unlines (lines : list string) : string :=
  match lines with
  | [] => ""
  | l :: lines' => l +:+ newline :: unlines lines'
  end.

(** The title a record carries. *)
Definition title_of (d : gmap string value) : string :=
  match d !! "title" with Some (VStr t) => t | _ => "" end.

(** The record with its title kept and every other field empty again. *)
Definition title_only (d : gmap string value) : gmap string value :=
  new_topic (title_of d).

(** The seven lines the export writes for the [i]-th record. *)
Definition topic_lines (i : nat) (t a : string) (ks : list string)
    (r c : string) : list string :=
  ["## " +:+ str_of_Z (Z.of_nat i + 1) +:+ ". " +:+ t;
   "";
   "- **Angle:** " +:+ a;
   "- **Keywords:** " +:+ join ", " ks;
   "- **Rationale:** " +:+ r;
   "- **Content Type:** " +:+ c;
   ""].

(** The heading of the [i]-th record as a block of the convention. *)
Definition heading_block (i : nat) (t : string) : block :=
  Block 2 (str_of_Z (Z.of_nat i + 1)) t [].

Definition sample_topic : gmap string value :=
  mk_topic "Remote work in 2025" "What small teams do differently"
    ["remote work"; "small teams"] "Matches the blog's audience" "Guide".

End ExportLines.

(** ** The sections of the prompt, as the specification words them *)

Module PromptSpec.
Import PyStr Py TopicIdeaAgent StrPred.






(** The first lines of the three optional sections. *)
Definition section_headings : list string :=
  ["TARGET KEYWORDS TO INCORPORATE:"; "PRODUCT/SERVICE TO PROMOTE:";
   "EXISTING BLOG POSTS TO AVOID DUPLICATING:"].

(** The prompt with nothing in the place of the three sections. *)
Definition bare_prompt (reference_blog preferences : string)
    (num_topics : Z) : string :=
  prompt_text (str_of_Z num_topics) reference_blog
    (if truthy_str preferences then preferences
     else "No specific preferences") "" "" "".

(** An [Optional] list, or string, that is absent or empty. *)
Definition no_list (o : option (list string)) : Prop := o = None ∨ o = Some [].
Definition no_text (o : option string) : Prop := o = None ∨ o = Some "".

(** [s] without its first [k] characters *)
Fixpoint sdrop (k : nat) (s : string) : string :=
  match k, s with
  | S k', _ :: s' => sdrop k' s'
  | _, _ => s
  end.

(** some proper, non-empty ending of [m] starts [y]: an occurrence of [m]
    could end in [y] having started before it *)
Definition straddles (m y : string) : bool :=
  existsb (λ k, startswith (sdrop k m) y) (seq 1 (length m - 1)).

(** the characters of a decimal numeral *)
Definition numeral_char (c : char) : bool :=
  isdecimal c || is_char "-" c.



End PromptSpec.

(** ** The stages of [create_blog_post], for the statements about failures *)

Module Stages.
Import PyStr Py Run Orchestrator.

Section WithRunner.
Context {World : Type}.
Variable runner : agent → string → World → res RunResult * World.
Variables topic reference_blog requirements : string.
Variable status_callback : option (@callback World).

(** Step 1, with its status message *)
Definition style : M state string :=
  notify status_callback "🎨 Analyzing blog style..." 10;;
  analyze_blog_style runner reference_blog status_callback.

(** Step 2 *)
Definition research : M state RunResult :=
  notify status_callback "🔍 Researching topic..." 35;;
  _run_agent_safely runner researcher (research_prompt topic requirements).

(** Step 3 *)
Definition write (style_guide research : string) : M state RunResult :=
  notify status_callback "✍️ Writing blog post..." 60;;
  _run_agent_safely runner writer
    (writing_prompt topic reference_blog requirements style_guide research).

(** Step 4 *)
Definition edit (style_guide draft : string) : M state RunResult :=
  notify status_callback "📝 Editing and polishing..." 85;;
  _run_agent_safely runner editor
    (editing_prompt reference_blog style_guide draft).

(** The last status message *)
Definition finish : M state unit :=
  notify status_callback "✅ Blog post completed!" 100.

(** What the handler does with the exception [e] when the stages so far
    left [results]. *)
Definition fail (results : gmap string string) (e : exn)
    : M state (gmap string string) :=
  notify status_callback ("❌ Error: " +:+ exn_str e) 0;;
  mret (<["error" := exn_str e]> results).

(** The run, stage by stage. *)
Definition staged : M state (gmap string string) :=
  λ st0,
    match style st0 with
    | (Raise e, st) => fail ∅ e st
    | (Ok sg, st1) =>
        let r1 : gmap string string := {[ "style_guide" := sg ]} in
        match research st1 with
        | (Raise e, st) => fail r1 e st
        | (Ok rs, st2) =>
            let r2 := <["research" := final_output rs]> r1 in
            match write sg (final_output rs) st2 with
            | (Raise e, st) => fail r2 e st
            | (Ok dr, st3) =>
                let r3 := <["draft" := final_output dr]> r2 in
                match edit sg (final_output dr) st3 with
                | (Raise e, st) => fail r3 e st
                | (Ok fn, st4) =>
                    let r4 := <["final" := final_output fn]> r3 in
                    match finish st4 with
                    | (Raise e, st) => fail r4 e st
                    | (Ok _, st5) => (Ok r4, st5)
                    end
                end
            end
        end
    end.

End WithRunner.

End Stages.

(** ** Models of the hosted model, for the scenarios *)

Module Mock.
Import Py Orchestrator.

(** The model that answers every prompt with the same text. *)
Definition constant {World : Type} (text : string)
    : agent → string → World → res RunResult * World :=
  λ _ _ w, (Ok {| final_output := text |}, w).

(** The model that fails whenever the agent [bad] is run. *)
Definition failing {World : Type} (bad : agent) (e : exn) (text : string)
    : agent → string → World → res RunResult * World :=
  λ a _ w,
    if decide (a = bad) then (Raise e, w)
    else (Ok {| final_output := text |}, w).

(** The model that answers with the prompt it was given. *)
Definition echo {World : Type}
    : agent → string → World → res RunResult * World :=
  λ _ prompt w, (Ok {| final_output := prompt |}, w).

Definition two_paragraphs : string :=
  "Remote work is here to stay.

Teams that plan for it do better.".

Definition unavailable : exn := Exn "RuntimeError" "model unavailable".

End Mock.

(** ** What a run leaves on the page of [app.py] *)

Module PageSpec.
Import Py Run.

(** A computation of the run that draws nothing below the progress bar. *)
Definition keeps_page {Model A : Type} (m : M (@App.state Model) A) : Prop :=
  ∀ st, App.page (Orchestrator.world (m st).2).1
        = App.page (Orchestrator.world st).1.

(** The page after a failed run: the message in the status line, an empty
    progress bar and one error box. *)
Definition error_page (msg : string) : App.ui :=
  App.UI ("❌ Error: " +:+ msg) 0 [App.st_error ("❌ Error: " +:+ msg)].

End PageSpec.

(** ** The outcomes of the workers of [parallel_research] *)

Module PoolSpec.
Import Py Orchestrator.

(** The outcome [r] of job [i]: the answer of the model to the prompt of
    area [i], given by a call that the log holds from position [n0] on. *)
Definition answered {World : Type}
    (runner : agent → string → World → res RunResult * World)
    (topic : string) (areas : list string)
    (n0 i : nat) (r : res string) (st : @state World) : Prop :=
  ∃ area v w,
    areas !! i = Some area ∧ r = Ok v
    ∧ (runner researcher (area_prompt topic area) w).1
      = Ok {| final_output := v |}
    ∧ Call researcher (area_prompt topic area)
        (Ok {| final_output := v |}) ∈ drop n0 (calls st).

End PoolSpec.

(** ** What the trace of [run_workflow] tells *)

Module TraceSpec.
Import Py Workflow.

(** The fields written, in order. *)
Definition written (tr : list event) : list (list string) :=
  omap (λ e, match e with Write p => Some p | _ => None end) tr.

(** The fields read that no earlier event wrote, [seen] being the fields
    written before the trace starts. *)
Fixpoint unpopulated_reads (seen : list (list string)) (tr : list event)
    : list (list string) :=
  match tr with
  | [] => []
  | Read p :: tr' =>
      if bool_decide (p ∈ seen) then unpopulated_reads seen tr'
      else p :: unpopulated_reads seen tr'
  | Write p :: tr' => unpopulated_reads (p :: seen) tr'
  | Invoke _ _ :: tr' => unpopulated_reads seen tr'
  end.

(** The attribute [k] of a context object. *)
Fixpoint attr (k : string) (context : list (string * value))
    : option value :=
  match context with
  | [] => None
  | (k', v) :: context' =>
      if bool_decide (k' = k) then Some v else attr k context'
  end.

(** The two fields of the literal [state["response_schema"]] that the
    internal-links stage reads. *)
Definition schema_root_blog_url : list string :=
  ["response_schema"; "root_blog_url"].
Definition schema_topic : list string := ["response_schema"; "topic"].

Definition is_empty_str (o : option value) : bool :=
  match o with Some (VStr "") => true | _ => false end.

(** The context of every run of the internal-links agent holds the empty
    string in both attributes read from [state["response_schema"]]. *)
Definition links_context_empty (e : event) : bool :=
  match e with
  | Invoke internal_links context =>
      is_empty_str (attr "state_response_schema_root_blog_url" context)
      && is_empty_str (attr "state_response_schema_topic" context)
  | _ => true
  end.

Definition invokes_links (e : event) : bool :=
  match e with Invoke internal_links _ => true | _ => false end.

(** The three facts of a trace, as one test. *)
Definition checked (tr : list event) : bool :=
  bool_decide (NoDup (written tr))
  && forallb links_context_empty tr
  && (if existsb invokes_links tr
      then bool_decide (unpopulated_reads [] tr
                        = [schema_root_blog_url; schema_topic])
      else bool_decide (unpopulated_reads [] tr = [])).

End TraceSpec.

(** ** A model for the workflow: every agent answers with its schema *)

Module WorkflowMock.
Import Py Workflow.

Definition extracted : gmap string value :=
  list_to_map
    [("existing_blog_posts_to_avoid", VList []);
     ("high_performing_pages", VList []);
     ("root_blog_url", VStr "https://example.com/blog");
     ("seo_keywords", VList ["remote work"]);
     ("target_product_urls", VList []);
     ("topics", VList ["Remote Work"]);
     ("writing_requirements", VStr "under 1500 words")].

Definition answers
    : agent → string → list (string * value) → () → res value * () :=
  λ a _ _ w,
    (Ok (match a with
         | text_to_json => VDict extracted
         | writing_style =>
             VDict {[ "writing_style_output" := VStr "plain" ]}
         | research => VDict {[ "research_output" := VStr "facts" ]}
         | writer => VDict {[ "writer_output" := VStr "draft" ]}
         | seo_analyzer =>
             VDict {[ "seo_analzyer_first_pass_output" := VStr "seo" ]}
         | internal_links =>
             VDict {[ "internal_links_output" := VStr "linked" ]}
         | editor => VStr "final"
         end), w).

Definition input : string :=
  "Write about Remote Work for https://example.com/blog".

End WorkflowMock.

(** ** Reasoning on a run of the workflow *)

Module WorkflowLogic.
Import Py Run Workflow.

(** [Φ] holds of the outcome of [m] run from [s]. *)
Definition wp {World A : Type} (m : M (@wstate World) A) (s : wstate)
    (Φ : res A → @wstate World → Prop) : Prop :=
  Φ (m s).1 (m s).2.

End WorkflowLogic.

(** ** [TopicIdeaAgent.generate] and what it runs *)

Module TopicIdeaAgentRun.
Import PyStr Py Run TopicIdeaAgent.

(** [Agent(name="topic_generator", instructions=..., model=self.model,
    tools=[...])]: the instructions and the tool are constants, the name
    and the model tell the agents apart. *)
Record Agent : Type := { agent_name : string; agent_model : string }.

Section WithRunner.
Context {World : Type}.

(** [self] and the world around it; [calls] is the ghost log of the
    runs of the model, agent and prompt. *)
Record self : Type :=
  Self { model : string; _agent : option Agent; world : World;
         calls : list (Agent * string) }.

(** The hosted model: the [final_output] of a run of [agent]. *)
Variable runner : Agent → string → World → res string * World.

(** [__init__]: [self.model = model or Config.DEFAULT_MODEL], the
    default read from the environment when the module is loaded. *)
Definition __init__ (DEFAULT_MODEL : string) (model : option string)
    (w : World) : self :=
  Self (if truthy_opt truthy_str model then default "" model
        else DEFAULT_MODEL) None w [].

Definition _get_agent : M self Agent :=
  λ s,
    match _agent s with
    | None =>
        let a := {| agent_name := "topic_generator";
                    agent_model := model s |} in
        (Ok a, Self (model s) (Some a) (world s) (calls s))
    | Some a => (Ok a, s)
    end.

(** [await Runner.run(agent, input=conversation_input)], the prompt
    being the text of the one user message of the input *)
Definition Runner_run (agent : Agent) (prompt : string) : M self string :=
  λ s,
    let '(r, w') := runner agent prompt (world s) in
    (r, Self (model s) (_agent s) w' (calls s ++ [(agent, prompt)])).

Definition _run_agent_async (prompt : string) : M self string :=
  agent ← _get_agent;
  final_output ← Runner_run agent prompt;
  mret final_output.

(** [asyncio.run(self._run_agent_async(prompt))] *)
Definition _run_agent_sync (prompt : string) : M self string :=
  _run_agent_async prompt.

Definition callback : Type := string → Z → World → res unit * World.

(** [if status_callback: status_callback(message, progress)] *)
Definition notify (status_callback : option callback)
    (message : string) (progress : Z) : M self unit :=
  match status_callback with
  | Some cb =>
      λ s,
        let '(r, w') := cb message progress (world s) in
        (r, Self (model s) (_agent s) w' (calls s))
  | None => mret ()
  end.

Definition generate (reference_blog preferences : string)
    (status_callback : option callback)
    (target_keywords : option (list string))
    (product_target : option string)
    (existing_topics : option (list string)) (num_topics : Z)
    : M self (list (gmap string value)) :=
  try_except
    (notify status_callback
       "Analyzing blog and generating topic ideas..." 50;;
     let prompt :=
       _build_prompt reference_blog preferences target_keywords
         product_target existing_topics num_topics in
     raw_output ← _run_agent_sync prompt;
     notify status_callback "Topic ideas generated!" 100;;
     topics ← of_res (_parse_topic_ideas raw_output);
     mret topics)
    (λ e,
       notify status_callback ("Error: " +:+ exn_str e) 0;;
       raise e).

End WithRunner.

End TopicIdeaAgentRun.

(** ** [app_v2.py]: the inputs of the form and [generate_topics] *)

Module AppV2Main.
Import PyStr Py Run TopicIdeaAgent.

(** [[kw.strip() for kw in text.split(sep) if kw.strip()]] *)
Definition stripped_parts (sep : char) (text : string) : list string :=
  strip <$> filter (λ kw, truthy_str (strip kw) = true) (split sep text).
Global Arguments stripped_parts sep%_chr text.

(** [target_keywords], from the text area *)
Definition parse_keywords (keywords_input : string) : list string :=
  if truthy_str (strip keywords_input)
  then stripped_parts "," keywords_input else [].

(** [existing_topics], from the text area *)
Definition parse_existing_topics (existing_topics_input : string)
    : list string :=
  if truthy_str (strip existing_topics_input)
  then stripped_parts newline existing_topics_input else [].

(** [num_topics]: [int(num_topics_input)] brought into 1..20, and 5 when
    [int] raises [ValueError]; [int] is the builtin, given by what it
    returns. *)
Definition parse_num_topics (int : string → res Z)
    (num_topics_input : string) : res Z :=
  match int num_topics_input with
  | Ok num_topics =>
      Ok (if num_topics <? 1 then 1
          else if num_topics >? 20 then 20 else num_topics)
  | Raise e =>
      if bool_decide (exn_class e = "ValueError") then Ok 5 else Raise e
  end.

(** [f"{n:02d}"] *)
Definition format_02d (n : Z) : string :=
  let s := str_of_Z n in
  if (length s <? 2)%nat then "0" +:+ s else s.

(** [elapsed_str], from [elapsed_seconds]; [divmod] rounds down. *)
Definition format_elapsed (elapsed_seconds : Z) : string :=
  let hours := elapsed_seconds `div` 3600 in
  let remainder := elapsed_seconds `mod` 3600 in
  let minutes := remainder `div` 60 in
  let seconds := remainder `mod` 60 in
  format_02d hours +:+ ":" +:+ format_02d minutes +:+ ":"
  +:+ format_02d seconds.

(** What the status placeholder shows. *)
Inductive alert : Type :=
| info (body : string)
| success (body : string)
| error (body : string).

(** The output of the page: the placeholder and the progress bar. *)
Record ui : Type := UI { status_placeholder : alert; progress_bar : Z }.

(** The dictionary [generate_topics] returns:
    [{"success": True, "data": topics}] or
    [{"success": False, "error": str(e)}]. *)
Inductive result : Type :=
| Success (data : list (gmap string value))
| Failure (error : string).

Section WithRunner.
Context {Model : Type}.

Variable runner :
  TopicIdeaAgentRun.Agent → string → Model → res string * Model.
Variable DEFAULT_MODEL : string.

(** The world the agent runs in: the page and the model. *)
Definition World : Type := ui * Model.

Definition app_runner (a : TopicIdeaAgentRun.Agent) (prompt : string)
    (w : World) : res string * World :=
  let '(r, m') := runner a prompt w.2 in (r, (w.1, m')).

(** [status_callback]; [progress] takes the values 0..100, all that
    the callers pass. *)
Definition status_callback : @TopicIdeaAgentRun.callback World :=
  λ message progress w, (Ok (), (UI (info message) progress, w.2)).

(** [x if x else None] *)
Definition or_none {A} (t : A → bool) (x : A) : option A :=
  if t x then Some x else None.

Definition generate_topics (model reference_blog : string)
    (target_keywords : list string) (product_target : string)
    (existing_topics : list string) (num_topics : Z) (w : World)
    : res result * World :=
  let agent :=
    TopicIdeaAgentRun.__init__ DEFAULT_MODEL (Some model) w in
  let '(r, agent') :=
    try_except
      (TopicIdeaAgentRun.notify (Some status_callback)
         "Initializing TopicIdeaAgent..." 10;;
       topics ←
         TopicIdeaAgentRun.generate app_runner reference_blog ""
           (Some status_callback)
           (or_none truthy_list target_keywords)
           (or_none truthy_str product_target)
           (or_none truthy_list existing_topics) num_topics;
       mret (Success topics))
      (λ e, mret (Failure (exn_str e))) agent in
  (r, TopicIdeaAgentRun.world agent').

(** [if st.session_state.get('run_generation'):], the clock having
    counted [elapsed_seconds]: what the page shows at the end, the
    topics of the session and the model. *)
Definition run_generation (model reference_blog : string)
    (target_keywords : list string) (product_target : string)
    (existing_topics : list string) (num_topics elapsed_seconds : Z)
    (generated_topics : option (list (gmap string value))) (m : Model)
    : res (ui * option (list (gmap string value))) * Model :=
  let w0 : World := (UI (info "Initializing...") 0, m) in
  let '(r, w) :=
    generate_topics model reference_blog target_keywords product_target
      existing_topics num_topics w0 in
  let elapsed_str := format_elapsed elapsed_seconds in
  match r with
  | Ok (Success data) =>
      (Ok (UI (success ("Generated " +:+ str_of_Z (len data)
                        +:+ " topic ideas! Time elapsed: "
                        +:+ elapsed_str)) 100,
           Some data), w.2)
  | Ok (Failure error') =>
      (Ok (UI (error ("Error: " +:+ error' +:+ " (Time elapsed: "
                      +:+ elapsed_str +:+ ")"))
             (progress_bar w.1),
           generated_topics), w.2)
  | Raise e => (Raise e, w.2)
  end.

End WithRunner.

End AppV2Main.

(** ** Words for the statements about [generate] and the form *)

Module GenerateSpec.
Import PyStr Py TopicIdeaAgent TopicIdeaAgentRun StrPred.

(** The agent [_get_agent] creates for a model. *)
Definition topic_generator (model : string) : Agent :=
  {| agent_name := "topic_generator"; agent_model := model |}.

(** [self] has no agent yet, or the one made for its model. *)
Definition fresh {World : Type} (s : @self World) : Prop :=
  _agent s = None ∨ _agent s = Some (topic_generator (model s)).

(** [self] after a run of the model that left the world [w]. *)
Definition after_run {World : Type} (s : @self World) (prompt : string)
    (w : World) : @self World :=
  Self (model s) (Some (topic_generator (model s))) w
    (calls s ++ [(topic_generator (model s), prompt)]).

(** An entry of the form as the page passes it on: some text, no
    whitespace around it, no separator inside. *)
Definition clean (sep : char) (entry : string) : Prop :=
  entry ≠ "" ∧ strip entry = entry ∧ has_char sep entry = false.
Global Arguments clean sep%_chr entry.

(** The model [TopicIdeaAgent(model=model)] runs. *)
Definition model_used (DEFAULT_MODEL model : string) : string :=
  if truthy_str model then model else DEFAULT_MODEL.

End GenerateSpec.

(** ** Words for the statements about the orchestrator and its page *)

Module RunSpec.
Import PyStr Py Run Orchestrator.

(** A status callback that never raises (none is one). *)
Definition quiet {World : Type} (cb : option (@callback World)) : Prop :=
  match cb with
  | None => True
  | Some f => ∀ message progress w, (f message progress w).1 = Ok ()
  end.

(** The calls of the log that were made to [a] with [prompt]. *)
Definition same_call (a : agent) (prompt : string) (c : call) : Prop :=
  call_agent c = a ∧ call_prompt c = prompt.

(** The keys of a result with no error. *)
Definition stage_keys : gset string :=
  {[ "style_guide"; "research"; "draft"; "final" ]}.


(** The outcome of a future, from that of the call. *)
Definition outcome (r : res RunResult) : res string :=
  match r with Ok x => Ok (final_output x) | Raise e => Raise e end.

End RunSpec.

(** ** Words for the statements about the order of the workflow *)

Module OrderSpec.
Import Py Workflow.







End OrderSpec.

(** ** [app_v2_json.py]: the progress handler and the run of the workflow *)

Module AppV2Json.
Import PyStr Py Run.

(** What the status placeholder shows. *)
Inductive alert : Type :=
| info (body : string)
| success (body : string)
| error (body : string).

(** [agents], of [call_workflow] *)
Definition agents : list (string * string) :=
  [("text_to_json", "Parsing JSON input...");
   ("writing_style", "Analyzing writing style...");
   ("research", "Researching topic...");
   ("writer", "Writing blog draft...");
   ("seo_analyzer", "Analyzing SEO...");
   ("internal_links", "Adding internal links...");
   ("editor", "Final editing...")].

(** What [StreamlitHandler.emit] reads and writes: [agent_count[0]], the
    progress bar and the placeholder. *)
Record handler : Type :=
  Handler { agent_count : Z; progress_bar : Z; status_placeholder : alert }.

(** [int((agent_count[0] / len(agents)) * 100)]: for the counts 0..7,
    where it is computed, the float product rounds down to this
    quotient. *)
Definition progress_of (count : Z) : Z := (count * 100) `div` len agents.

(** [emit(record)], [msg] being [record.getMessage()] *)
Definition emit (msg : string) (h : handler) : res handler :=
  if contains "POST https://api.openai.com/v1/responses" msg
     && contains "200 OK" msg
  then
    let count := agent_count h + 1 in
    if count <=? len agents then
      let progress := progress_of count in
      if count <? len agents then
        next_agent ← index agents (Z.to_nat count);
        mret (Handler count progress
                (info ("Step " +:+ str_of_Z count +:+ "/"
                       +:+ str_of_Z (len agents) +:+ " completed. Next: "
                       +:+ next_agent.2)))
      else
        mret (Handler count progress
                (success ("All " +:+ str_of_Z (len agents)
                          +:+ " agents completed!")))
    else mret (Handler count (progress_bar h) (status_placeholder h))
  else mret h.

End AppV2Json.

(** ** Words for the statements about the progress handler *)

Module HandlerSpec.
Import PyStr Py AppV2Json.

(** The log records of the answered requests. *)
Definition answered_request (msg : string) : bool :=
  contains "POST https://api.openai.com/v1/responses" msg
  && contains "200 OK" msg.

(** The handler after the records [msgs], in order. *)
Fixpoint emit_all (msgs : list string) (h : handler) : res handler :=
  match msgs with
  | [] => Ok h
  | msg :: msgs' => h' ← emit msg h; emit_all msgs' h'
  end.

(** The number of answered requests among the records. *)
Definition requests (msgs : list string) : Z :=
  len (List.filter answered_request msgs).

(** What [emit] keeps true of the handler. *)
Definition inv (h : handler) : Prop :=
  0 ≤ agent_count h
  ∧ progress_bar h = progress_of (Z.min 7 (agent_count h))
  ∧ (7 ≤ agent_count h →
     status_placeholder h = success "All 7 agents completed!").

End HandlerSpec.

Module PyStrFacts.
Import PyStr StrPred.

Lemma sapp_cons (c : char) a b : (c :: a) +:+ b = c :: (a +:+ b).
Proof. reflexivity. Qed.

Lemma sapp_nil_l (s : string) : "" +:+ s = s.
Proof. reflexivity. Qed.

Ltac str := rewrite ?sapp_cons, ?sapp_nil_l; cbn.

Lemma sapp_nil_r s : s +:+ "" = s.
Proof. induction s; str; congruence. Qed.

Lemma sapp_assoc a b c : (a +:+ b) +:+ c = a +:+ b +:+ c.
Proof. induction a; str; congruence. Qed.

Lemma has_char_app c a b : has_char c (a +:+ b) = has_char c a || has_char c b.
Proof. induction a; str; [done|]. rewrite IHa. by rewrite orb_assoc. Qed.

Lemma all_chars_app p a b : all_chars p (a +:+ b) = all_chars p a && all_chars p b.
Proof. induction a; str; [done|]. rewrite IHa. by rewrite andb_assoc. Qed.

(** *** split *)

Lemma split_nonempty sep s : split sep s ≠ [].
Proof. induction s; cbn; [done|]. case_match; [done|]. by case_match. Qed.

Lemma split_no_sep sep s : has_char sep s = false → split sep s = [s].
Proof.
  induction s as [|c s IH]; cbn; [done|].
  intros [Hc Hs]%orb_false_elim. rewrite Hc, IH; done.
Qed.

Lemma split_app sep a b :
  has_char sep a = false →
  split sep (a +:+ sep :: b) = a :: split sep b.
Proof.
  induction a as [|c a IH]; str.
  - intros _. by rewrite N.eqb_refl.
  - intros [Hc Ha]%orb_false_elim. rewrite Hc, IH; done.
Qed.

Lemma split_join sep lines :
  Forall (λ l, has_char sep l = false) lines → lines ≠ [] →
  split sep (join [sep] lines) = lines.
Proof.
  induction 1 as [|l [|l' lines] Hl Hr IH]; [done| |]; intros _.
  - cbn. by apply split_no_sep.
  - change (join [sep] (l :: l' :: lines))
      with (l +:+ sep :: join [sep] (l' :: lines)).
    rewrite split_app by done. f_equal. by apply IH.
Qed.

Lemma split_no_char c sep s :
  has_char c s = false → Forall (λ l, has_char c l = false) (split sep s).
Proof.
  induction s as [|d s IH]; cbn; [by repeat constructor|].
  intros [Hd Hs]%orb_false_elim. specialize (IH Hs).
  destruct (N.eqb d sep); [by constructor|].
  destruct (split sep s) as [|h t]; [by repeat constructor; cbn; rewrite Hd|].
  inversion IH; subst. constructor; [|done]. cbn. by rewrite Hd.
Qed.

Lemma split1_app sep a b :
  has_char sep a = false → split1 sep (a +:+ sep :: b) = [a; b].
Proof.
  induction a as [|c a IH]; str.
  - intros _. by rewrite N.eqb_refl.
  - intros [Hc Ha]%orb_false_elim. rewrite Hc, IH; done.
Qed.

Lemma split1_no_char c sep s :
  has_char c s = false → Forall (λ l, has_char c l = false) (split1 sep s).
Proof.
  induction s as [|d s IH]; cbn; [by repeat constructor|].
  intros [Hd Hs]%orb_false_elim. specialize (IH Hs).
  destruct (N.eqb d sep); [by repeat constructor|].
  destruct (split1 sep s) as [|h t]; [by repeat constructor; cbn; rewrite Hd|].
  inversion IH; subst. constructor; [|done]. cbn. by rewrite Hd.
Qed.

(** *** startswith *)

Lemma prefix_app p x : startswith p (p +:+ x) = true.
Proof. induction p as [|c p IH]; str; [done|]. by rewrite N.eqb_refl. Qed.

Lemma prefix_inv p s : startswith p s = true → ∃ x, s = p +:+ x.
Proof.
  revert s. induction p as [|c p IH]; intros s.
  - intros _. by exists s.
  - destruct s as [|d s]; [done|]. cbn.
    intros [->%N.eqb_eq [x ->]%IH]%andb_prop. by exists x.
Qed.

(** *** strip *)

Lemma lstrip_stops s : stops isspace s = true → lstrip s = s.
Proof. destruct s as [|c s]; cbn; [done|]. by destruct (isspace c). Qed.

Lemma lstrip_stops_out s : stops isspace (lstrip s) = true.
Proof. induction s as [|c s IH]; cbn; [done|]. destruct (isspace c) eqn:E; [done|]. cbn. by rewrite E. Qed.

Lemma rstrip_idem s : rstrip (rstrip s) = rstrip s.
Proof.
  induction s as [|c s IH]; cbn; [done|].
  destruct (isspace c && is_empty (rstrip s)) eqn:E; [done|].
  cbn. by rewrite IH, E.
Qed.

Lemma rstrip_app a b :
  rstrip (a +:+ b) = if is_empty (rstrip b) then rstrip a else a +:+ rstrip b.
Proof.
  induction a as [|c a IH]; str.
  - by destruct (rstrip b).
  - rewrite IH. destruct (rstrip b) eqn:Eb; cbn; [done|].
    destruct a; cbn; by rewrite andb_false_r.
Qed.

Lemma rstrip_lstrip s : rstrip s = s → rstrip (lstrip s) = lstrip s.
Proof.
  induction s as [|c s IH]; cbn; [done|].
  destruct (isspace c) eqn:Ec; cbn.
  - destruct (is_empty (rstrip s)); [done|]. intros [= H]. by apply IH.
  - by rewrite Ec.
Qed.

Lemma strip_idem s : strip (strip s) = strip s.
Proof.
  unfold strip. rewrite (rstrip_lstrip (rstrip s)) by apply rstrip_idem.
  by rewrite lstrip_stops by apply lstrip_stops_out.
Qed.

Lemma strip_space c s : isspace c = true → strip (c :: s) = strip s.
Proof.
  intros Hc. unfold strip. cbn. rewrite Hc. cbn.
  destruct (rstrip s) eqn:E; cbn; [done|]. by rewrite Hc.
Qed.

Lemma strip_rstrip s : strip (rstrip s) = strip s.
Proof. unfold strip. by rewrite rstrip_idem. Qed.

Lemma has_char_lstrip c s : has_char c s = false → has_char c (lstrip s) = false.
Proof.
  induction s as [|d s IH]; cbn; [done|]. intros [Hd Hs]%orb_false_elim.
  destruct (isspace d); [by apply IH|]. cbn. by rewrite Hd.
Qed.

Lemma has_char_rstrip c s : has_char c s = false → has_char c (rstrip s) = false.
Proof.
  induction s as [|d s IH]; cbn; [done|]. intros [Hd Hs]%orb_false_elim.
  destruct (isspace d && _); [done|]. cbn. by rewrite Hd, IH.
Qed.

Lemma has_char_strip c s : has_char c s = false → has_char c (strip s) = false.
Proof. intros. by apply has_char_lstrip, has_char_rstrip. Qed.

(** a string that [rstrip] leaves alone does not end with a space *)
Lemma rstrip_fix_app a b :
  rstrip (a +:+ b) = a +:+ b → b ≠ "" → rstrip b = b.
Proof.
  induction a as [|c a IH]; str; [done|].
  destruct (isspace c && _); [done|]. intros [= H] Hb. by apply IH.
Qed.

Lemma lstrip_empty_rstrip s : lstrip s = "" → rstrip s = "".
Proof.
  induction s as [|c s IH]; cbn; [done|].
  destruct (isspace c); [|done]. intros H. by rewrite (IH H).
Qed.

Lemma strip_nonempty s : rstrip s = s → s ≠ "" → strip s ≠ "".
Proof.
  unfold strip. intros Hr Hs Hl. rewrite Hr in Hl.
  apply lstrip_empty_rstrip in Hl. congruence.
Qed.

Lemma rstrip_strip s : rstrip (strip s) = strip s.
Proof. unfold strip. apply rstrip_lstrip, rstrip_idem. Qed.

Lemma stops_skip p q a b :
  excludes q p → all_chars q a = true → stops p b = true → stops p (a +:+ b) = true.
Proof.
  intros Hq. destruct a as [|c a]; str; [done|].
  intros [Hc _]%andb_prop _. by rewrite (Hq c Hc).
Qed.

Lemma stops_class p q a b :
  excludes q p → all_chars q a = true → a ≠ "" → stops p (a +:+ b) = true.
Proof.
  intros Hq. destruct a as [|c a]; str; [done|].
  intros [Hc _]%andb_prop _. by rewrite (Hq c Hc).
Qed.

(** the longest run of a class at the head of a string is unique *)
Lemma span_unique p a b a' b' :
  all_chars p a = true → all_chars p a' = true →
  stops p b = true → stops p b' = true →
  a +:+ b = a' +:+ b' → a = a' ∧ b = b'.
Proof.
  revert a'. induction a as [|c a IH]; intros [|c' a']; str.
  - done.
  - intros _ [Hc _]%andb_prop Hb _ ->. cbn in Hb. by rewrite Hc in Hb.
  - intros [Hc _]%andb_prop _ _ Hb <-. cbn in Hb. by rewrite Hc in Hb.
  - intros [_ Ha]%andb_prop [_ Ha']%andb_prop Hb Hb' [= -> H].
    destruct (IH a' Ha Ha' Hb Hb' H) as [-> ->]. done.
Qed.

End PyStrFacts.

Module RegexFacts.
Import PyStr Regex StrPred PyStrFacts.

(** What a successful repetition took. *)
Lemma rep_sound {R} cs s : ∀ lo hi (k : string → string → option R) r,
  rep cs lo hi s k = Some r →
  ∃ taken rest, s = taken +:+ rest ∧ all_chars cs taken = true ∧
    (lo ≤ length taken)%nat ∧ k taken rest = Some r.
Proof.
  induction s as [|c s IH]; intros lo hi k r; cbn.
  - destruct lo; [|done]. intros H. exists "", "". by repeat split.
  - assert (Hstop : match lo with O => k "" (c :: s) | S _ => None end = Some r →
      ∃ taken rest, c :: s = taken +:+ rest ∧ all_chars cs taken = true ∧
        (lo ≤ length taken)%nat ∧ k taken rest = Some r).
    { destruct lo; [|done]. intros H. exists "", (c :: s). by repeat split. }
    destruct (cs c && may_take hi) eqn:E; [|done].
    destruct (rep _ _ _ _ _) eqn:Er; [|done].
    intros [= ->]. apply IH in Er as (taken & rest & -> & Hall & Hlo & Hk).
    apply andb_prop in E as [Hc _].
    exists (c :: taken), rest. str. rewrite Hc, Hall. repeat split; [lia|done].
Qed.

(** A repetition takes the longest run when the rest of the pattern
    accepts it. *)
Lemma rep_greedy {R} cs taken : ∀ rest lo hi (k : string → string → option R) r,
  all_chars cs taken = true →
  (lo ≤ length taken)%nat → fits hi (length taken) →
  stops cs rest = true ∨ hi = Some (length taken) →
  k taken rest = Some r →
  rep cs lo hi (taken +:+ rest) k = Some r.
Proof.
  induction taken as [|c taken IH]; intros rest lo hi k r; str.
  - intros _ Hlo _ Hstop Hk. assert (lo = 0%nat) as -> by lia.
    destruct rest as [|d rest]; cbn; [done|].
    destruct Hstop as [Hd| ->]; cbn in *.
    + apply negb_true_iff in Hd. by rewrite Hd.
    + by rewrite andb_false_r.
  - intros [Hc Hall]%andb_prop Hlo Hfit Hstop Hk. rewrite Hc.
    assert (may_take hi = true) as ->.
    { destruct hi as [[|h]|]; cbn in *; [lia|done|done]. }
    cbn. rewrite (IH rest (Nat.pred lo) (Nat.pred <$> hi) _ r); try done.
    + lia.
    + destruct hi; cbn in *; [lia|done].
    + destruct Hstop as [?| ->]; [by left|by right].
Qed.
End RegexFacts.

Module TitleFacts.
Import PyStr Regex Py TopicIdeaAgent StrPred PyStrFacts RegexFacts.

Lemma all_chars_hashes n : all_chars (is_char "#") (hashes n) = true.
Proof. induction n; cbn; [done|]. by rewrite IHn. Qed.

Lemma length_hashes n : length (hashes n) = n.
Proof. induction n; cbn; congruence. Qed.

Lemma ranges_apart rs1 rs2 c :
  forallb (λ r1, forallb (apart r1) rs2) rs1 = true →
  existsb (λ r, in_range r c) rs1 = true →
  existsb (λ r, in_range r c) rs2 = false.
Proof.
  intros Hall (r1 & H1 & Hc1)%existsb_exists.
  apply not_true_is_false. intros (r2 & H2 & Hc2)%existsb_exists.
  rewrite forallb_forall in Hall. specialize (Hall r1 H1).
  rewrite forallb_forall in Hall. specialize (Hall r2 H2).
  unfold apart in Hall. unfold in_range in Hc1, Hc2.
  apply andb_prop in Hc1 as [?%N.leb_le ?%N.leb_le].
  apply andb_prop in Hc2 as [?%N.leb_le ?%N.leb_le].
  apply orb_prop in Hall as [?%N.ltb_lt| ?%N.ltb_lt]; lia.
Qed.

Lemma is_char_eq d c : is_char d c = true → c = d.
Proof. apply N.eqb_eq. Qed.

Lemma excludes_char p d : p d = false → excludes p (is_char d).
Proof.
  intros Hd c Hc. apply not_true_is_false. intros ->%is_char_eq. congruence.
Qed.

Lemma space_not_hash : excludes isspace (is_char "#").
Proof. by apply excludes_char. Qed.
Lemma digit_not_hash : excludes isdecimal (is_char "#").
Proof. by apply excludes_char. Qed.
Lemma digit_not_space : excludes isdecimal isspace.
Proof. intros c. by apply ranges_apart. Qed.
Lemma dot_not_digit : excludes (is_char ".") isdecimal.
Proof. by intros c ->%is_char_eq. Qed.
Lemma newline_space c : no_newline c = false → isspace c = true.
Proof. unfold no_newline. by intros ->%negb_false_iff%N.eqb_eq. Qed.

Lemma no_newline_has_char s :
  all_chars no_newline s = negb (has_char newline s).
Proof.
  induction s as [|c s IH]; cbn; [done|]. rewrite IH. unfold no_newline.
  by destruct (N.eqb c newline).
Qed.

(** What [title_re] matches: the group is not empty and runs to the end
    of the line. *)
Lemma title_match_sound line m :
  re_match title_re line = Some m →
  ∃ pre g tail, m = [g] ∧ g ≠ "" ∧ has_char newline g = false ∧
    line = pre +:+ g +:+ tail ∧ at_end tail = true.
Proof.
  unfold re_match, title_re. cbn [run]. intros H.
  apply rep_sound in H as (t1 & r1 & -> & _ & _ & H). cbn [run] in H.
  apply rep_sound in H as (t2 & r2 & -> & _ & _ & H). cbn [run] in H.
  apply rep_sound in H as (t3 & r3 & -> & _ & _ & H). cbn [run] in H.
  apply rep_sound in H as (t4 & r4 & -> & _ & _ & H). cbn [run] in H.
  apply rep_sound in H as (t5 & r5 & -> & _ & _ & H). cbn [run] in H.
  apply rep_sound in H as (g & tail & -> & Hg & Hlen & H). cbn [run] in H.
  destruct (at_end tail) eqn:Hend; [|done]. injection H as <-.
  exists (t1 +:+ t2 +:+ t3 +:+ t4 +:+ t5), g, tail.
  repeat split; try done.
  - intros ->. cbn in Hlen. lia.
  - rewrite no_newline_has_char in Hg. by apply negb_true_iff in Hg.
  - by rewrite !sapp_assoc.
Qed.

(** On a stripped line the title is not empty. *)
Lemma title_match_stripped line m :
  re_match title_re (strip line) = Some m →
  ∃ g, m = [g] ∧ strip g ≠ "" ∧ has_char newline g = false.
Proof.
  intros (pre & g & tail & -> & Hg & Hnl & Hline & Hend)%title_match_sound.
  exists g. repeat split; [|done].
  pose proof (rstrip_strip line) as Hr. rewrite Hline in Hr.
  apply rstrip_fix_app in Hr; [|by destruct g].
  destruct tail as [|c [|??]]; [| |done].
  - rewrite sapp_nil_r in Hr. by apply strip_nonempty.
  - cbn in Hend. apply N.eqb_eq in Hend as ->.
    apply rstrip_fix_app in Hr; [|done]. done.
Qed.

(** The heading lines [title_re] accepts. *)
Lemma title_match_heading h ws1 ds ws2 g :
  (h ≤ 2)%nat → all_chars isspace ws1 = true →
  all_chars isdecimal ds = true → ds ≠ "" →
  all_chars isspace ws2 = true →
  g ≠ "" → stops isspace g = true → has_char newline g = false →
  re_match title_re (hashes h +:+ ws1 +:+ ds +:+ "." +:+ ws2 +:+ g) = Some [g].
Proof.
  intros Hh Hws1 Hds Hne Hws2 Hg Hstop Hnl.
  unfold re_match, title_re. cbn [run].
  apply rep_greedy; [apply all_chars_hashes|lia|rewrite length_hashes; cbn; lia| |].
  { left. apply (stops_skip _ isspace); [apply space_not_hash|done|].
    by apply (stops_class _ isdecimal); [apply digit_not_hash|..]. }
  cbn [run]. apply rep_greedy; [done|lia|done| |].
  { left. by apply (stops_class _ isdecimal); [apply digit_not_space|..]. }
  cbn [run]. apply rep_greedy; [done| |done|by left|].
  { destruct ds; [done|cbn; lia]. }
  cbn [run]. apply (rep_greedy _ "."); [done|cbn; lia|cbn; lia|by right|].
  cbn [run]. apply rep_greedy; [done|lia|done|by left|].
  cbn [run]. rewrite <-(sapp_nil_r g) at 1.
  apply rep_greedy; [|destruct g; [done|cbn; lia]|done|by left|].
  { rewrite no_newline_has_char. by rewrite Hnl. }
  done.
Qed.

Lemma title_no_match_first c s :
  is_char "#" c = false → isspace c = false → isdecimal c = false →
  re_match title_re (c :: s) = None.
Proof.
  intros H1 H2 H3. unfold re_match, title_re. cbn. by rewrite H1, H2, H3.
Qed.

Lemma title_no_match_empty : re_match title_re "" = None.
Proof. reflexivity. Qed.

(** A numbered heading with nothing after the dot is no title line. *)
Lemma title_no_match_untitled h ws ds :
  all_chars isspace ws = true → all_chars isdecimal ds = true → ds ≠ "" →
  re_match title_re (hashes h +:+ ws +:+ ds +:+ ".") = None.
Proof.
  intros Hws Hds Hne. destruct (re_match _ _) as [m|] eqn:H; [exfalso|done].
  unfold re_match, title_re in H. cbn [run] in H.
  apply rep_sound in H as (t1 & r1 & E1 & A1 & _ & H). cbn [run] in H.
  apply rep_sound in H as (t2 & r2 & -> & A2 & _ & H). cbn [run] in H.
  apply rep_sound in H as (t3 & r3 & -> & A3 & L3 & H). cbn [run] in H.
  apply rep_sound in H as (t4 & r4 & -> & A4 & L4 & H). cbn [run] in H.
  apply rep_sound in H as (t5 & r5 & -> & A5 & _ & H). cbn [run] in H.
  apply rep_sound in H as (g & tail & -> & _ & Lg & _).
  assert (t3 ≠ "") by (intros ->; cbn in L3; lia).
  assert (t4 ≠ "") by (intros ->; cbn in L4; lia).
  assert (S1 : ∀ w d r, all_chars isspace w = true → all_chars isdecimal d = true →
            d ≠ "" → stops (is_char "#") (w +:+ d +:+ r) = true).
  { intros. apply (stops_skip _ isspace); [apply space_not_hash|done|].
    by apply (stops_class _ isdecimal); [apply digit_not_hash|..]. }
  assert (S2 : ∀ d r, all_chars isdecimal d = true → d ≠ "" →
            stops isspace (d +:+ r) = true).
  { intros. by apply (stops_class _ isdecimal); [apply digit_not_space|..]. }
  destruct (span_unique (is_char "#") _ _ _ _ (all_chars_hashes h) A1
              (S1 _ _ _ Hws Hds Hne) (S1 _ _ _ A2 A3 H) E1) as [_ E2].
  destruct (span_unique isspace _ _ _ _ Hws A2
              (S2 _ _ Hds Hne) (S2 _ _ A3 H) E2) as [_ E3].
  assert (stops isdecimal (t4 +:+ t5 +:+ g +:+ tail) = true) as S3.
  { by apply (stops_class _ (is_char ".")); [apply dot_not_digit|..]. }
  destruct (span_unique isdecimal ds "." _ _ Hds A3 eq_refl S3 E3) as [_ E4].
  destruct t4 as [|c t4]; [done|]. rewrite sapp_cons in E4.
  injection E4 as _ E4. destruct t4, t5, g; try done. cbn in Lg. lia.
Qed.
End TitleFacts.

Module ParserFacts.
Import PyStr Regex Py TopicIdeaAgent StrPred Convention.
Import PyStrFacts RegexFacts TitleFacts.

Lemma prefix_diverge p q z : diverge p q = true → startswith p (q +:+ z) = false.
Proof.
  revert q. induction p as [|a p IH]; intros [|b q]; try done.
  rewrite sapp_cons. cbn. destruct (N.eqb a b); [apply IH|done].
Qed.

Lemma parse_lines_app st a b :
  parse_lines st (a ++ b) = st' ← parse_lines st a; parse_lines st' b.
Proof.
  revert st. induction a as [|l a IH]; intros st; cbn; [done|].
  destruct (parse_line st l); cbn; [apply IH|done].
Qed.

Lemma lstrip_split s : ∃ ws, all_chars isspace ws = true ∧ s = ws +:+ lstrip s.
Proof.
  induction s as [|c s (ws & Hws & IH)]; [by exists ""|]. cbn.
  destruct (isspace c) eqn:Ec; [|by exists ""].
  exists (c :: ws). cbn. rewrite Ec, Hws. split; [done|]. by rewrite <-IH.
Qed.

Lemma rstrip_keep p y : rstrip p = p → rstrip (p +:+ y) = p +:+ rstrip y.
Proof.
  intros Hp. rewrite rstrip_app. destruct (rstrip y); cbn; [|done].
  by rewrite sapp_nil_r.
Qed.

Lemma all_chars_no_space_hashes n : all_chars isspace (hashes n) = true → n = 0%nat.
Proof. by destruct n. Qed.

Lemma digits_one_line ds : all_chars isdecimal ds = true → has_char newline ds = false.
Proof.
  induction ds as [|c ds IH]; cbn; [done|]. intros [Hc Hd]%andb_prop.
  rewrite IH by done. rewrite orb_false_r. apply not_true_is_false.
  intros ->%N.eqb_eq. done.
Qed.

Lemma hashes_one_line n : has_char newline (hashes n) = false.
Proof. induction n; cbn; done. Qed.

Lemma wf_block_inv b :
  wf_block b = true →
  (level b ≤ 2)%nat ∧ number b ≠ "" ∧ all_chars isdecimal (number b) = true ∧
  has_char newline (title b) = false ∧ strip (title b) ≠ "" ∧
  Forall (λ ln, wf_line ln = true) (body b).
Proof.
  unfold wf_block. rewrite !andb_true_iff, !negb_true_iff.
  intros [[[[[H1 H2] H3] H4] H5] H6]. repeat split; try done.
  - by apply Nat.leb_le.
  - by destruct (number b).
  - by destruct (strip (title b)).
  - by apply List.Forall_forall, List.forallb_forall.
Qed.

(** **** a heading line opens a record *)
Lemma strip_heading b :
  wf_block b = true →
  ∃ ws, all_chars isspace ws = true ∧
    strip (render_heading b) =
      hashes (level b) +:+ (if level b is O then "" else " ") +:+ number b
      +:+ "." +:+ ws +:+ strip (title b).
Proof.
  intros (Hl & Hn & Hd & Ht & Hs & Hb)%wf_block_inv.
  destruct (lstrip_split (rstrip (title b))) as (ws & Hws & Hsplit).
  exists (" "%chr :: ws). split; [done|].
  unfold strip at 1, render_heading.
  assert (Hr : rstrip (title b) ≠ "").
  { intros E. unfold strip in *. by rewrite E in *. }
  assert (E : rstrip (hashes (level b) +:+ (if level b is O then "" else " ")
              +:+ number b +:+ ". " +:+ title b)
            = hashes (level b) +:+ (if level b is O then "" else " ")
              +:+ number b +:+ ". " +:+ rstrip (title b)).
  { rewrite <-!sapp_assoc. rewrite rstrip_app.
    destruct (rstrip (title b)); [done|]. cbn [is_empty]. by rewrite !sapp_assoc. }
  rewrite E. rewrite lstrip_stops.
  - rewrite Hsplit at 1. fold (strip (title b)). by rewrite !sapp_cons.
  - destruct (level b); [|done]. cbn.
    destruct (number b) as [|c ?]; [done|]. cbn in *.
    apply andb_prop in Hd as [Hc _].
    by rewrite (digit_not_space c Hc).
Qed.

Lemma parse_line_heading st b :
  wf_block b = true →
  parse_line st (render_heading b)
  = Ok (save_topic st, Some (new_topic (strip (title b)))).
Proof.
  intros Hwf. destruct (strip_heading b Hwf) as (ws & Hws & E).
  unfold parse_line. rewrite E.
  apply wf_block_inv in Hwf as (Hl & Hn & Hd & Ht & Hs & Hb).
  rewrite title_match_heading; try done.
  - cbn. by rewrite strip_idem.
  - by destruct (level b).
  - apply lstrip_stops_out.
  - by apply has_char_strip.
Qed.

(** **** a labelled line sets its field *)
Lemma truthy_insert (k : string) (v : value) d : truthy_dict (<[k := v]> d) = true.
Proof.
  unfold truthy_dict. apply negb_true_iff, bool_decide_eq_false, insert_non_empty.
Qed.

Lemma truthy_new_topic t : truthy_dict (new_topic t) = true.
Proof. apply truthy_insert. Qed.

Ltac prefixes :=
  unfold startswith;
  repeat match goal with
    | |- context [startswith ?p (?q +:+ ?z)] =>
        first [ rewrite (prefix_app p z)
              | rewrite (prefix_diverge p q z) by reflexivity ]
    end.

Ltac labelled_line P text :=
  change (render_line _) with (P +:+ " "%chr :: text);
  unfold parse_line, strip;
  rewrite (rstrip_keep P) by reflexivity;
  rewrite (lstrip_stops (P +:+ _)) by reflexivity;
  replace (re_match title_re (P +:+ rstrip (" "%chr :: text)))
    with (@None (list string)) by reflexivity;
  cbn [snd fst];
  match goal with H : truthy_dict _ = true |- _ => rewrite H end;
  prefixes; cbn [orb negb];
  replace (after_colon (P +:+ rstrip (" "%chr :: text)))
    with (Ok (strip (rstrip (" "%chr :: text)))) by reflexivity;
  unfold mbind, res_bind, mret, res_ret;
  rewrite strip_rstrip, strip_space by reflexivity; reflexivity.

Lemma parse_line_field ts d dashed l text :
  truthy_dict d = true →
  parse_line (ts, Some d) (render_line (Field dashed l text))
  = Ok (ts, Some (set_field d (Field dashed l text))).
Proof.
  intros Hd. destruct dashed, l.
  - labelled_line "- **Angle**:" text.
  - labelled_line "- **Keywords**:" text.
  - labelled_line "- **Rationale**:" text.
  - labelled_line "- **Content Type**:" text.
  - labelled_line "**Angle**:" text.
  - labelled_line "**Keywords**:" text.
  - labelled_line "**Rationale**:" text.
  - labelled_line "**Content Type**:" text.
Qed.

(** **** lines the parser passes over *)
Lemma parse_line_inert st line :
  re_match title_re (strip line) = None → no_label (strip line) = true →
  parse_line st line = Ok st.
Proof.
  intros Hre Hno. unfold parse_line. rewrite Hre.
  destruct st as [ts [d|]]; cbn [snd]; [|done].
  destruct (truthy_dict d); cbn [negb]; [|done].
  unfold no_label, field_prefixes in Hno. cbn [forallb] in Hno.
  rewrite !andb_true_iff, !negb_true_iff in Hno.
  destruct Hno as (-> & -> & -> & -> & -> & -> & -> & -> & _). done.
Qed.

Lemma parse_line_blank st : parse_line st "" = Ok st.
Proof. by apply parse_line_inert. Qed.

Lemma parse_line_body ts d ln :
  truthy_dict d = true →
  parse_line (ts, Some d) (render_line ln) = Ok (ts, Some (set_field d ln)).
Proof.
  destruct ln; intros Hd; [by apply parse_line_field|apply parse_line_blank].
Qed.

Lemma truthy_set_field d ln : truthy_dict d = true → truthy_dict (set_field d ln) = true.
Proof. destruct ln; [intros _; apply truthy_insert|done]. Qed.

Lemma parse_lines_body lines : ∀ ts d,
  truthy_dict d = true →
  parse_lines (ts, Some d) (render_line <$> lines)
  = Ok (ts, Some (foldl set_field d lines)).
Proof.
  induction lines as [|ln lines IH]; intros ts d Hd; cbn; [done|].
  rewrite parse_line_body by done. cbn.
  apply IH. by apply truthy_set_field.
Qed.

Lemma parse_lines_block st b :
  wf_block b = true →
  parse_lines st (render_block b) = Ok (save_topic st, Some (record_of b)).
Proof.
  intros Hwf. unfold render_block. cbn.
  rewrite parse_line_heading by done. cbn.
  apply parse_lines_body, truthy_new_topic.
Qed.

(** **** the record of a block *)
Lemma foldl_set_field_title lines : ∀ d,
  foldl set_field d lines !! "title" = d !! "title".
Proof.
  induction lines as [|[? l text|] lines IH]; intros d; cbn; [done| |done].
  rewrite IH. by destruct l; rewrite lookup_insert_ne.
Qed.

Lemma record_title b : record_of b !! "title" = Some (VStr (strip (title b))).
Proof. unfold record_of. by rewrite foldl_set_field_title. Qed.

Lemma label_key_inj l l' : label_key l = label_key l' → l = l'.
Proof. by destruct l, l'. Qed.

Lemma texts_of_cons l dashed l' text lines :
  texts_of l (Field dashed l' text :: lines)
  = if decide (l' = l) then text :: texts_of l lines else texts_of l lines.
Proof. unfold texts_of. cbn. by case_decide. Qed.

Lemma foldl_set_field_lookup l lines : ∀ d,
  foldl set_field d lines !! label_key l
  = match last (texts_of l lines) with
    | Some text => Some (field_value l text)
    | None => d !! label_key l
    end.
Proof.
  induction lines as [|[dashed l' text|] lines IH]; intros d; [done| |apply IH].
  cbn [foldl]. rewrite IH, texts_of_cons. case_decide as E.
  - subst l'. rewrite last_cons. destruct (last _); [done|].
    cbn. by rewrite lookup_insert_eq.
  - destruct (last _); [done|]. cbn. rewrite lookup_insert_ne; [done|].
    intros ?%label_key_inj. done.
Qed.

Lemma record_field b l :
  record_of b !! label_key l
  = Some (from_option (field_value l) (empty_value l)
            (last (texts_of l (body b)))).
Proof.
  unfold record_of. rewrite foldl_set_field_lookup.
  destruct (last _); [done|]. by destruct l.
Qed.

Lemma truthy_record b : truthy_dict (record_of b) = true.
Proof.
  unfold record_of. generalize (truthy_new_topic (strip (title b))).
  generalize (new_topic (strip (title b))).
  induction (body b) as [|ln lines IH]; intros d Hd; cbn; [done|].
  by apply IH, truthy_set_field.
Qed.

Lemma has_title_record b :
  wf_block b = true → has_title (Some (record_of b)) = true.
Proof.
  intros (_ & _ & _ & _ & Hs & _)%wf_block_inv. cbn.
  rewrite truthy_record, record_title. cbn.
  unfold truthy_str. by destruct (strip (title b)).
Qed.

Lemma parse_lines_doc doc : ∀ st,
  forallb wf_block doc = true →
  ∃ st', parse_lines st (concat (render_block <$> doc)) = Ok st' ∧
         save_topic st' = save_topic st ++ (record_of <$> doc).
Proof.
  induction doc as [|b doc IH]; intros st Hwf.
  - exists st. cbn. by rewrite app_nil_r.
  - cbn in Hwf. apply andb_prop in Hwf as [Hb Hdoc].
    change (concat (render_block <$> b :: doc))
      with (render_block b ++ concat (render_block <$> doc)).
    rewrite parse_lines_app, parse_lines_block by done. cbn.
    destruct (IH (save_topic st, Some (record_of b)) Hdoc) as (st' & E1 & E2).
    exists st'. split; [done|]. rewrite E2.
    unfold save_topic at 1. cbn [fst snd]. rewrite has_title_record by done.
    cbn. by rewrite <-app_assoc.
Qed.

Lemma block_lines_one_line b :
  wf_block b = true →
  Forall (λ l, has_char newline l = false) (render_block b).
Proof.
  intros (Hl & Hn & Hd & Ht & Hs & Hb)%wf_block_inv. constructor.
  - unfold render_heading.
    rewrite !has_char_app, hashes_one_line, (digits_one_line _ Hd), Ht.
    by destruct (level b).
  - apply Forall_fmap. eapply Forall_impl; [exact Hb|].
    intros [dashed l text|] Hln; [|done]. cbn [wf_line] in Hln.
    apply negb_true_iff in Hln. unfold compose. cbn [render_line].
    rewrite !has_char_app, Hln.
    by destruct dashed, l.
Qed.

Lemma doc_lines_one_line doc :
  forallb wf_block doc = true →
  Forall (λ l, has_char newline l = false) (concat (render_block <$> doc)).
Proof.
  induction doc as [|b doc IH]; [by constructor|].
  cbn [forallb]. intros [Hb Hdoc]%andb_prop.
  change (concat (render_block <$> b :: doc))
    with (render_block b ++ concat (render_block <$> doc)).
  apply Forall_app. split; [|by apply IH].
  by apply block_lines_one_line.
Qed.

Lemma parse_render doc :
  forallb wf_block doc = true →
  _parse_topic_ideas (render doc) = Ok (record_of <$> doc).
Proof.
  intros Hwf. unfold _parse_topic_ideas, render.
  destruct doc as [|b doc]; [done|].
  rewrite split_join.
  - destruct (parse_lines_doc (b :: doc) ([], None) Hwf) as (st' & -> & E).
    cbn. by rewrite E.
  - by apply doc_lines_one_line.
  - done.
Qed.

(** **** every line leaves a well-formed state, and no line raises *)
Lemma split_sep_free sep s : Forall (λ l, has_char sep l = false) (split sep s).
Proof.
  induction s as [|c s IH]; cbn; [by repeat constructor|].
  destruct (N.eqb c sep) eqn:E; [by constructor|].
  destruct (split sep s) as [|h t]; [by repeat constructor; cbn; rewrite E|].
  inversion IH; subst. constructor; [|done]. cbn. by rewrite E.
Qed.

Lemma set_angle t a ks r c v :
  <["angle" := VStr v]> (mk_topic t a ks r c) = mk_topic t v ks r c.
Proof.
  unfold mk_topic. rewrite (insert_insert_ne _ "angle" "title") by done.
  by rewrite insert_insert_eq.
Qed.

Lemma set_keywords t a ks r c v :
  <["keywords" := VList v]> (mk_topic t a ks r c) = mk_topic t a v r c.
Proof.
  unfold mk_topic. rewrite (insert_insert_ne _ "keywords" "title") by done.
  rewrite (insert_insert_ne _ "keywords" "angle") by done.
  by rewrite insert_insert_eq.
Qed.

Lemma set_rationale t a ks r c v :
  <["rationale" := VStr v]> (mk_topic t a ks r c) = mk_topic t a ks v c.
Proof.
  unfold mk_topic. rewrite (insert_insert_ne _ "rationale" "title") by done.
  rewrite (insert_insert_ne _ "rationale" "angle") by done.
  rewrite (insert_insert_ne _ "rationale" "keywords") by done.
  by rewrite insert_insert_eq.
Qed.

Lemma set_content_type t a ks r c v :
  <["content_type" := VStr v]> (mk_topic t a ks r c) = mk_topic t a ks r v.
Proof.
  unfold mk_topic. rewrite (insert_insert_ne _ "content_type" "title") by done.
  rewrite (insert_insert_ne _ "content_type" "angle") by done.
  rewrite (insert_insert_ne _ "content_type" "keywords") by done.
  rewrite (insert_insert_ne _ "content_type" "rationale") by done.
  by rewrite insert_singleton_eq.
Qed.

Lemma truthy_mk_topic t a ks r c : truthy_dict (mk_topic t a ks r c) = true.
Proof. apply truthy_insert. Qed.

Lemma has_title_wf d : wf_topic d → has_title (Some d) = true.
Proof.
  intros (t & a & ks & r & c & -> & Ht & _). cbn.
  rewrite truthy_mk_topic. unfold mk_topic. rewrite lookup_insert_eq. cbn.
  unfold truthy_str. by destruct t.
Qed.

Lemma save_topic_wf st : pstate_wf st → Forall wf_topic (save_topic st).
Proof.
  intros [H1 H2]. destruct st as [ts [d|]]; unfold save_topic; cbn in *; [|done].
  destruct (_ && _); [|done]. apply Forall_app. split; [done|].
  by repeat constructor.
Qed.

Lemma save_topic_length st : (length (save_topic st) ≤ opened st)%nat.
Proof.
  unfold save_topic, opened. destruct st as [ts [d|]]; cbn.
  - destruct (_ && _); rewrite ?length_app; cbn; lia.
  - lia.
Qed.

Lemma labelled_inv p q s :
  startswith p s || startswith q s = true →
  ∃ P x, (P = p ∨ P = q) ∧ s = P +:+ x.
Proof.
  intros [H|H]%orb_prop; apply prefix_inv in H as [x ->]; eauto.
Qed.

Lemma after_colon_label P x :
  P ∈ field_prefixes → after_colon (P +:+ x) = Ok (strip x).
Proof.
  unfold field_prefixes. intros H.
  repeat (apply elem_of_cons in H as [->|H]; [reflexivity|]).
  by apply elem_of_nil in H.
Qed.

Lemma label_tail_one_line P x : one_line (P +:+ x) → one_line (strip x).
Proof.
  unfold one_line. rewrite has_char_app. intros [_ H]%orb_false_elim.
  by apply has_char_strip.
Qed.

Lemma parse_line_step st line :
  pstate_wf st → one_line line →
  ∃ st', parse_line st line = Ok st' ∧ pstate_wf st' ∧
    (opened st' ≤ opened st + (if is_title_line line then 1 else 0))%nat.
Proof.
  intros Hwf Hline. unfold parse_line, is_title_line.
  assert (Hs : one_line (strip line)) by by apply has_char_strip.
  destruct (re_match title_re (strip line)) as [m|] eqn:Hre.
  - apply title_match_stripped in Hre as (g & -> & Hg & Hnl).
    rewrite bool_decide_eq_true_2 by done. cbn.
    eexists. split; [done|]. split.
    + split; [by apply save_topic_wf|]. cbn.
      exists (strip g), "", [], "", "". repeat split; try done.
      * apply strip_idem.
      * by apply has_char_strip.
    + pose proof (save_topic_length st). unfold opened in *. cbn. lia.
  - rewrite bool_decide_eq_false_2 by (by intros [? ?]).
    destruct st as [ts [d|]]; cbn [snd fst]; [|exists (ts, None); split; [done|split; [done|lia]]].
    assert (Hkeep : ∃ st', Ok (ts, Some d) = Ok st' ∧ pstate_wf st' ∧
              (opened st' ≤ opened (ts, Some d) + 0)%nat).
    { exists (ts, Some d). split; [done|]. split; [done|lia]. }
    destruct (truthy_dict d); cbn [negb]; [|done].
    destruct Hwf as [Hts Hd]. change (Forall wf_topic ts) in Hts.
    change (wf_topic d) in Hd.
    destruct Hd as (t & a & ks & r & c & -> & Ht & Hst & Hlt & Hla & Hlk & Hlr & Hlc).
    lazymatch goal with |- ∃ _, (if ?b then _ else _) = _ ∧ _ => destruct b eqn:E1 end.
    { apply labelled_inv in E1 as (P & x & HP & E). rewrite E in *.
      rewrite after_colon_label
        by (destruct HP as [-> | ->]; unfold field_prefixes;
            rewrite !elem_of_cons; tauto).
      cbn. rewrite set_angle. eexists. split; [done|]. split; [|cbn; lia].
      split; [done|]. cbn. exists t, (strip x), ks, r, c.
      repeat split; try done. by eapply label_tail_one_line. }
    lazymatch goal with |- ∃ _, (if ?b then _ else _) = _ ∧ _ => destruct b eqn:E2 end.
    { apply labelled_inv in E2 as (P & x & HP & E). rewrite E in *.
      rewrite after_colon_label
        by (destruct HP as [-> | ->]; unfold field_prefixes;
            rewrite !elem_of_cons; tauto).
      cbn. rewrite set_keywords. eexists. split; [done|]. split; [|cbn; lia].
      split; [done|]. cbn. exists t, a, (strip <$> split "," (strip x)), r, c.
      repeat split; try done. apply Forall_fmap.
      eapply Forall_impl; [apply (split_no_char newline)|].
      - by eapply label_tail_one_line.
      - intros y Hy. by apply has_char_strip. }
    lazymatch goal with |- ∃ _, (if ?b then _ else _) = _ ∧ _ => destruct b eqn:E3 end.
    { apply labelled_inv in E3 as (P & x & HP & E). rewrite E in *.
      rewrite after_colon_label
        by (destruct HP as [-> | ->]; unfold field_prefixes;
            rewrite !elem_of_cons; tauto).
      cbn. rewrite set_rationale. eexists. split; [done|]. split; [|cbn; lia].
      split; [done|]. cbn. exists t, a, ks, (strip x), c.
      repeat split; try done. by eapply label_tail_one_line. }
    lazymatch goal with |- ∃ _, (if ?b then _ else _) = _ ∧ _ => destruct b eqn:E4 end.
    { apply labelled_inv in E4 as (P & x & HP & E). rewrite E in *.
      rewrite after_colon_label
        by (destruct HP as [-> | ->]; unfold field_prefixes;
            rewrite !elem_of_cons; tauto).
      cbn. rewrite set_content_type. eexists. split; [done|]. split; [|cbn; lia].
      split; [done|]. cbn. exists t, a, ks, r, (strip x).
      repeat split; try done. by eapply label_tail_one_line. }
    exists (ts, Some (mk_topic t a ks r c)). split; [done|]. split; [|lia].
    split; [done|]. cbn. by exists t, a, ks, r, c.
Qed.

Lemma parse_lines_step lines : ∀ st,
  pstate_wf st → Forall one_line lines →
  ∃ st', parse_lines st lines = Ok st' ∧ pstate_wf st' ∧
    (opened st' ≤ opened st + length (filter (λ l, is_title_line l = true) lines))%nat.
Proof.
  induction lines as [|l lines IH]; intros st Hwf Hl.
  - exists st. split; [done|]. split; [done|cbn; lia].
  - inversion Hl as [|?? H1 H2]; subst. cbn [parse_lines].
    destruct (parse_line_step st l Hwf H1) as (st1 & -> & Hwf1 & Hc1).
    destruct (IH st1 Hwf1 H2) as (st2 & E2 & Hwf2 & Hc2).
    exists st2. split; [done|]. split; [done|].
    rewrite filter_cons.
    destruct (is_title_line l); case_decide; try done; cbn [length]; lia.
Qed.

(** The parser is total, its records are well formed, and there are no
    more of them than title lines. *)
Lemma parse_total raw :
  ∃ topics, _parse_topic_ideas raw = Ok topics ∧ Forall wf_topic topics ∧
    (length topics ≤
       length (filter (λ l, is_title_line l = true) (split newline raw)))%nat.
Proof.
  unfold _parse_topic_ideas.
  destruct (parse_lines_step (split newline raw) ([], None)) as (st & -> & Hwf & Hc).
  - by split.
  - apply split_sep_free.
  - exists (save_topic st). split; [done|]. split; [by apply save_topic_wf|].
    pose proof (save_topic_length st). cbn in Hc. lia.
Qed.

Lemma prefix_first_ne a p c s :
  a ≠ c → startswith (a :: p) (c :: s) = false.
Proof.
  intros Hne%N.eqb_neq. cbn. by rewrite Hne.
Qed.

Lemma no_label_first c s :
  c ≠ "-"%chr → c ≠ "*"%chr → no_label (c :: s) = true.
Proof.
  intros H1 H2. unfold no_label, field_prefixes. cbn [forallb].
  by rewrite !prefix_first_ne by congruence.
Qed.

Lemma wf_topic_keys d :
  wf_topic d →
  dom d = five_keys ∧ ∃ t, d !! "title" = Some (VStr t) ∧ t ≠ "".
Proof.
  intros (t & a & ks & r & c & -> & Ht & _). split.
  - unfold mk_topic, five_keys.
    rewrite !dom_insert_L, dom_singleton_L. set_solver.
  - exists t. split; [|done]. unfold mk_topic. by rewrite lookup_insert_eq.
Qed.

(** A numbered heading with no title text changes nothing. *)
Lemma parse_line_untitled st line h ws ds :
  strip line = hashes h +:+ ws +:+ ds +:+ "." →
  all_chars isspace ws = true → all_chars isdecimal ds = true → ds ≠ "" →
  parse_line st line = Ok st.
Proof.
  intros E Hws Hds Hne. apply parse_line_inert; rewrite E.
  - by apply title_no_match_untitled.
  - destruct h; cbn [hashes]; [rewrite sapp_nil_l|by rewrite sapp_cons].
    destruct ws as [|c ws]; [rewrite sapp_nil_l|].
    + destruct ds as [|c ds]; [done|]. rewrite sapp_cons.
      cbn in Hds. apply andb_prop in Hds as [Hc _].
      apply no_label_first; intros ->; by vm_compute in Hc.
    + rewrite sapp_cons. cbn in Hws. apply andb_prop in Hws as [Hc _].
      apply no_label_first; intros ->; by vm_compute in Hc.
Qed.
End ParserFacts.

Module ParserExamples.
Import PyStr Py TopicIdeaAgent Convention.

(** Characters above U+00FF are characters like the others: a title keeps
  its emoji and its accented letters. *)
Example title_keeps_emoji :
_parse_topic_ideas "## 1. Done ✅" = Ok [mk_topic "Done ✅" "" [] "" ""].
Proof. reflexivity. Qed.

Example title_keeps_accents :
_parse_topic_ideas "## 1. Voilà" = Ok [mk_topic "Voilà" "" [] "" ""].
Proof. reflexivity. Qed.

(** EM SPACE (U+2003) and IDEOGRAPHIC SPACE (U+3000) are whitespace: [strip]
  removes them, and a heading whose title holds nothing else opens no
  record. *)
Example wide_spaces_stripped :
strip ([0x2003; 0x3000]%N +:+ "Guide" +:+ [0x3000; 0x2003]%N) = "Guide".
Proof. reflexivity. Qed.

Example title_of_wide_spaces :
_parse_topic_ideas ("## 1. " +:+ [0x2003; 0x3000]%N) = Ok [].
Proof. reflexivity. Qed.

(** The decimal digits of every script number a heading. *)
Example heading_with_arabic_indic_digits :
_parse_topic_ideas "## ١٢. Title" = Ok [mk_topic "Title" "" [] "" ""].
Proof. reflexivity. Qed.

End ParserExamples.

Module ParserTheorems.
Import PyStr Regex Py TopicIdeaAgent StrPred Convention.

(** C2. Model output that follows the heading convention is parsed into one
  record per numbered heading, in the order of the headings; a field is
  what its labelled line says (the last one, should a label come twice)
  and is empty when no line names it; and on every input string the parser
  returns a list and raises nothing, with no more records than the text has
  title lines. *)
Theorem parse_follows_convention :
(∀ doc : list block,
   forallb wf_block doc = true →
   _parse_topic_ideas (render doc) = Ok (record_of <$> doc)) ∧
(∀ (b : block) (l : label),
   record_of b !! "title" = Some (VStr (strip (title b))) ∧
   record_of b !! label_key l
   = Some (from_option (field_value l) (empty_value l)
             (last (texts_of l (body b))))) ∧
(∀ raw : string,
   ∃ topics, _parse_topic_ideas raw = Ok topics ∧
     (length topics ≤
        length (filter (λ l, is_title_line l = true) (split newline raw)))%nat).
Proof.
split; [exact ParserFacts.parse_render|]. split.
- intros b l. split; [apply ParserFacts.record_title|apply ParserFacts.record_field].
- intros raw. destruct (ParserFacts.parse_total raw) as (topics & E & _ & Hlen).
  by exists topics.
Qed.

(** C10. Every record the parser returns has exactly the keys title, angle,
  keywords, rationale and content_type, and a title that is not empty; a
  numbered heading with no title text opens no record: the line leaves
  the parser's state as it was. *)
Theorem parsed_topics_titled :
(∀ raw : string,
   ∃ topics, _parse_topic_ideas raw = Ok topics ∧
     Forall (λ d : gmap string value,
               dom d = five_keys ∧
               ∃ t, d !! "title" = Some (VStr t) ∧ t ≠ "") topics) ∧
(∀ (st : pstate) (line : string) (h : nat) (ws ds : string),
   strip line = hashes h +:+ ws +:+ ds +:+ "." →
   all_chars isspace ws = true → all_chars isdecimal ds = true → ds ≠ "" →
   parse_line st line = Ok st).
Proof.
split.
- intros raw. destruct (ParserFacts.parse_total raw) as (topics & E & Hwf & _).
  exists topics. split; [done|].
  eapply Forall_impl; [exact Hwf|]. apply ParserFacts.wf_topic_keys.
- exact ParserFacts.parse_line_untitled.
Qed.

End ParserTheorems.

Module ExportFacts.
Import PyStr Regex Py TopicIdeaAgent AppV2 StrPred Convention ExportLines.
Import PyStrFacts RegexFacts TitleFacts ParserFacts.

(** *** decimal numerals *)
Lemma string_of_uint_digits d :
  all_chars isdecimal (of_ascii (NilEmpty.string_of_uint d)) = true.
Proof. induction d; cbn; done. Qed.

Lemma string_of_uint_nonempty d :
  d ≠ Decimal.Nil → of_ascii (NilEmpty.string_of_uint d) ≠ "".
Proof. by destruct d. Qed.

Lemma str_of_pos p :
  str_of_Z (Z.pos p) = of_ascii (NilEmpty.string_of_uint (Pos.to_uint p)).
Proof.
  unfold str_of_Z. cbn. pose proof (Unsigned.to_uint_nonnil p).
  by destruct (Pos.to_uint p).
Qed.

Lemma str_of_pos_digits n :
  0 < n → all_chars isdecimal (str_of_Z n) = true ∧ str_of_Z n ≠ "".
Proof.
  destruct n as [|p|p]; try lia. intros _. rewrite str_of_pos. split.
  - apply string_of_uint_digits.
  - apply string_of_uint_nonempty, Unsigned.to_uint_nonnil.
Qed.

(** *** the export of a well-formed record *)
Lemma md_topic_mk i t a ks r c :
  md_topic i (mk_topic t a ks r c)
  = Some (unlines (topic_lines i t a ks r c)).
Proof.
  unfold md_topic, get, mk_topic. simplify_map_eq. cbn.
  unfold topic_lines, unlines. f_equal. repeat rewrite sapp_assoc. reflexivity.
Qed.

Lemma unlines_app a b : unlines (a ++ b) = unlines a +:+ unlines b.
Proof.
  induction a as [|l a IH]; cbn; [done|].
  by rewrite IH, sapp_assoc, sapp_cons.
Qed.

Lemma split_unlines lines :
  Forall one_line lines → split newline (unlines lines) = lines ++ [""].
Proof.
  induction 1 as [|l lines Hl _ IH]; cbn [unlines]; [done|].
  rewrite split_app by done. by rewrite IH.
Qed.

(** *** what the parser makes of the lines of the export *)
Lemma parse_lines_inert lines : ∀ st,
  Forall (λ l, ∀ st, parse_line st l = Ok st) lines →
  parse_lines st lines = Ok st.
Proof.
  induction lines as [|l lines IH]; intros st Hl; cbn; [done|].
  inversion Hl as [|?? H1 H2]; subst. rewrite H1. cbn. by apply IH.
Qed.

Ltac export_line P x :=
  intros st; apply parse_line_inert;
  unfold strip;
  change (_ +:+ x) with (P +:+ " "%chr :: x);
  rewrite (rstrip_keep P) by reflexivity;
  rewrite (lstrip_stops (P +:+ _)) by reflexivity;
  [ reflexivity
  | unfold no_label, field_prefixes; cbn [forallb];
    by rewrite !prefix_diverge by reflexivity ].

Lemma angle_line_inert x st : parse_line st ("- **Angle:** " +:+ x) = Ok st.
Proof. revert st. export_line "- **Angle:**" x. Qed.
Lemma keywords_line_inert x st : parse_line st ("- **Keywords:** " +:+ x) = Ok st.
Proof. revert st. export_line "- **Keywords:**" x. Qed.
Lemma rationale_line_inert x st : parse_line st ("- **Rationale:** " +:+ x) = Ok st.
Proof. revert st. export_line "- **Rationale:**" x. Qed.
Lemma content_type_line_inert x st :
  parse_line st ("- **Content Type:** " +:+ x) = Ok st.
Proof. revert st. export_line "- **Content Type:**" x. Qed.

Lemma wf_heading_block i t :
  t ≠ "" → strip t = t → one_line t → wf_block (heading_block i t) = true.
Proof.
  intros Ht Hs Hl. unfold wf_block, heading_block.
  cbn [level number title body forallb].
  destruct (str_of_pos_digits (Z.of_nat i + 1)) as [-> Hne]; [lia|].
  rewrite Hs, Hl. by destruct (str_of_Z _), t.
Qed.

Lemma parse_topic_lines st i t a ks r c :
  t ≠ "" → strip t = t → one_line t →
  parse_lines st (topic_lines i t a ks r c)
  = Ok (save_topic st, Some (new_topic t)).
Proof.
  intros Ht Hs Hl. unfold topic_lines. cbn [parse_lines].
  change ("## " +:+ str_of_Z (Z.of_nat i + 1) +:+ ". " +:+ t)
    with (render_heading (heading_block i t)).
  rewrite parse_line_heading by by apply wf_heading_block.
  cbn [heading_block title mbind res_bind]. rewrite Hs.
  repeat (first [ rewrite parse_line_blank | rewrite angle_line_inert
                | rewrite keywords_line_inert | rewrite rationale_line_inert
                | rewrite content_type_line_inert ];
          cbn [mbind res_bind]).
  done.
Qed.

Lemma join_one_line sep l :
  one_line sep → Forall one_line l → one_line (join sep l).
Proof.
  unfold one_line, join. intros Hs. induction 1 as [|x [|y l] Hx Hl IH]; cbn; try done.
  rewrite !has_char_app, Hx, Hs. by apply IH.
Qed.

Lemma topic_lines_one_line i t a ks r c :
  one_line t → one_line a → Forall one_line ks → one_line r → one_line c →
  Forall one_line (topic_lines i t a ks r c).
Proof.
  intros Ht Ha Hk Hr Hc. unfold topic_lines, one_line in *.
  destruct (str_of_pos_digits (Z.of_nat i + 1)) as [Hd _]; [lia|].
  apply digits_one_line in Hd.
  repeat constructor; rewrite ?has_char_app, ?Hd, ?Ht, ?Ha, ?Hr, ?Hc; try done.
  rewrite (join_one_line ", " ks); done.
Qed.

Lemma title_of_mk t a ks r c : title_of (mk_topic t a ks r c) = t.
Proof. unfold title_of, mk_topic. by rewrite lookup_insert_eq. Qed.

Lemma has_title_new t : t ≠ "" → has_title (Some (new_topic t)) = true.
Proof.
  intros Ht. cbn. rewrite truthy_new_topic. unfold new_topic.
  rewrite lookup_insert_eq. by destruct t.
Qed.

Lemma reparse_md_topics topics : ∀ i st,
  Forall wf_topic topics →
  ∃ lines st',
    md_topics i topics = Some (unlines lines) ∧ Forall one_line lines ∧
    parse_lines st lines = Ok st' ∧
    save_topic st' = save_topic st ++ (title_only <$> topics).
Proof.
  induction topics as [|d topics IH]; intros i st Hwf.
  - exists [], st. cbn. by rewrite app_nil_r.
  - inversion Hwf as [|?? Hd Hrest]; subst.
    destruct Hd as (t & a & ks & r & c & -> & Ht & Hs & Hlt & Hla & Hlk & Hlr & Hlc).
    destruct (IH (S i) (save_topic st, Some (new_topic t)) Hrest)
      as (lines & st' & Emd & Hlines & Eparse & Esave).
    exists (topic_lines i t a ks r c ++ lines), st'.
    cbn [md_topics]. rewrite md_topic_mk, Emd. cbn [mbind option_bind].
    rewrite unlines_app, parse_lines_app, parse_topic_lines by done.
    split; [reflexivity|]. split; [|split; [exact Eparse|]].
    + apply Forall_app. split; [by apply topic_lines_one_line|done].
    + rewrite Esave. unfold save_topic at 1. cbn [fst snd].
      rewrite has_title_new by done. rewrite fmap_cons.
      unfold title_only at 2. rewrite title_of_mk.
      cbn [default]. by rewrite <-app_assoc.
Qed.

Lemma reparse_md_content topics :
  Forall wf_topic topics →
  ∃ md, md_content topics = Some md ∧
        _parse_topic_ideas md = Ok (title_only <$> topics).
Proof.
  intros Hwf.
  destruct (reparse_md_topics topics 0 ([], None) Hwf)
    as (lines & st' & Emd & Hlines & Eparse & Esave).
  unfold md_content. rewrite Emd. cbn [mbind option_bind].
  eexists. split; [done|].
  unfold _parse_topic_ideas.
  change ("# Generated Topic Ideas

" +:+ unlines lines)
    with (unlines (["# Generated Topic Ideas"; ""] ++ lines)).
  rewrite split_unlines.
  2:{ apply Forall_app. split; [by repeat constructor|done]. }
  rewrite <-app_assoc, parse_lines_app.
  rewrite (parse_lines_inert ["# Generated Topic Ideas"; ""]).
  2:{ repeat constructor; intros st; by apply parse_line_inert. }
  cbn [mbind res_bind]. rewrite parse_lines_app, Eparse.
  cbn [mbind res_bind parse_lines].
  rewrite parse_line_blank. cbn. by rewrite Esave.
Qed.
End ExportFacts.

Module PromptFacts.
Import PyStr Py TopicIdeaAgent StrPred PromptSpec.
Import PyStrFacts ExportFacts.




Lemma no_sections rb prefs kws pt ts n :
  no_list kws → no_text pt → no_list ts →
  _build_keyword_context kws = "" ∧ _build_product_context pt = "" ∧
  _build_duplication_context ts = "" ∧
  _build_prompt rb prefs kws pt ts n = bare_prompt rb prefs n.
Proof.
  intros [-> | ->] [-> | ->] [-> | ->]; done.
Qed.

(** *** where an occurrence of a text can lie in a concatenation *)
Lemma prefix_nil_r m : startswith m "" = is_empty m.
Proof. by destruct m. Qed.

Lemma prefix_app_cases m : ∀ a y,
  startswith m (a +:+ y) = true →
  startswith m a = true ∨
  ((length a < length m)%nat ∧
   startswith (sdrop (length a) m) y = true).
Proof.
  induction m as [|d m IH]; intros a y.
  - intros _. left. by destruct a.
  - destruct a as [|c a]; [rewrite sapp_nil_l|rewrite sapp_cons].
    + intros H. right. split; [cbn; lia|done].
    + cbn [startswith]. intros [Hd [H|[H1 H2]]%IH]%andb_prop.
      * left. by rewrite Hd, H.
      * right. cbn. split; [lia|done].
Qed.

Lemma contains_cons m c s :
  contains m (c :: s) = startswith m (c :: s) || contains m s.
Proof. reflexivity. Qed.

Lemma straddles_intro m y k :
  (1 ≤ k < length m)%nat → startswith (sdrop k m) y = true →
  straddles m y = true.
Proof.
  intros Hk Hp. unfold straddles. apply existsb_exists. exists k.
  split; [|done]. apply in_seq. lia.
Qed.

Lemma contains_app m x : ∀ y,
  contains m (x +:+ y) = true →
  contains m x = true ∨ straddles m y = true ∨ contains m y = true.
Proof.
  induction x as [|c x IH]; intros y.
  - rewrite sapp_nil_l. auto.
  - rewrite sapp_cons, !contains_cons. intros [H|H]%orb_prop.
    + change (c :: (x +:+ y)) with ((c :: x) +:+ y) in H.
      apply prefix_app_cases in H as [H|[H1 H2]].
      * left. by rewrite H.
      * right. left. eapply straddles_intro; [|exact H2]. cbn in *. lia.
    + apply IH in H as [H|[H|H]]; auto. left. rewrite H. apply orb_true_r.
Qed.

Lemma contains_app_false m x y :
  contains m x = false → straddles m y = false → contains m y = false →
  contains m (x +:+ y) = false.
Proof.
  intros H1 H2 H3. destruct (contains m (x +:+ y)) eqn:E; [|done].
  apply contains_app in E as [E|[E|E]]; congruence.
Qed.

Lemma contains_first_absent c m s :
  has_char c s = false → contains (c :: m) s = false.
Proof.
  induction s as [|d s IH]; [done|]. cbn [has_char].
  intros [Hd Hs]%orb_false_elim. rewrite contains_cons, IH by done.
  cbn [startswith]. by rewrite N.eqb_sym, Hd.
Qed.

(** *** numerals hold digits and a sign only *)
Lemma Z_to_int_numeral n : all_chars numeral_char (str_of_Z n) = true.
Proof.
  assert (H : ∀ d, all_chars numeral_char
                     (of_ascii (NilEmpty.string_of_uint d)) = true)
    by (induction d; cbn; done).
  assert (H' : ∀ d, all_chars numeral_char
                      (of_ascii (NilZero.string_of_uint d)) = true)
    by (intros [| | | | | | | | | |]; try done; apply (H (_ _))).
  unfold str_of_Z. destruct n; cbn; try done; apply H'.
Qed.

Lemma numeral_no_letter c n :
  numeral_char c = false → has_char c (str_of_Z n) = false.
Proof.
  intros Hc. generalize (Z_to_int_numeral n). generalize (str_of_Z n).
  intros s. induction s as [|d s IH]; cbn; [done|]. intros [Hd Hs]%andb_prop.
  rewrite IH by done. destruct (N.eqb d c) eqn:E; [|done].
  apply N.eqb_eq in E as ->. congruence.
Qed.

(** *** the bare prompt holds no heading of a section *)
Ltac skip_piece :=
  lazymatch goal with
  | |- contains ?m (str_of_Z ?n +:+ ?y) = false =>
      apply contains_app_false;
      [ apply contains_first_absent, numeral_no_letter; reflexivity
      | reflexivity | ]
  | |- contains ?m (?v +:+ ?y) = false =>
      tryif is_var v
      then (apply contains_app_false; [assumption | reflexivity | ])
      else change (contains m (v +:+ y)) with (contains m y)
  end.

Lemma bare_prompt_no_heading m rb prefs n :
  m ∈ section_headings →
  contains m rb = false → contains m prefs = false →
  contains m (bare_prompt rb prefs n) = false.
Proof.
  unfold section_headings. intros Hm Hrb Hprefs.
  unfold bare_prompt, prompt_text.
  repeat (apply elem_of_cons in Hm as [->|Hm]); [| | |by apply elem_of_nil in Hm].
  all: destruct (truthy_str prefs).
  all: repeat skip_piece.
  all: reflexivity.
Qed.
End PromptFacts.

Module PromptTheorems.
Import PyStr Py TopicIdeaAgent AppV2 StrPred Convention ExportLines PromptSpec.




(** C6. With no keywords, no product target and no existing topics the three
  builders give the empty string and the prompt is the bare template;
  unless the reference blog or the preferences bring one in, it holds the
  heading of none of the three optional sections. *)
Theorem empty_inputs_elide_sections :
∀ (rb prefs : string) (kws : option (list string)) (pt : option string)
  (ts : option (list string)) (n : Z),
  no_list kws → no_text pt → no_list ts →
  _build_keyword_context kws = "" ∧ _build_product_context pt = "" ∧
  _build_duplication_context ts = "" ∧
  _build_prompt rb prefs kws pt ts n = bare_prompt rb prefs n ∧
  ∀ m, m ∈ section_headings →
       contains m rb = false → contains m prefs = false →
       contains m (_build_prompt rb prefs kws pt ts n) = false.
Proof.
intros rb prefs kws pt ts n Hk Hp Ht.
destruct (PromptFacts.no_sections rb prefs kws pt ts n Hk Hp Ht)
  as (E1 & E2 & E3 & E4).
repeat split; try done.
intros m Hm Hrb Hprefs. rewrite E4.
by apply PromptFacts.bare_prompt_no_heading.
Qed.

Lemma empty_inputs_elide_sections_witness :
_build_keyword_context (Some []) = "" ∧ _build_product_context None = "" ∧
_build_duplication_context None = "" ∧
_build_prompt "https://blog.example" "" (Some []) None None 5
= bare_prompt "https://blog.example" "" 5 ∧
∀ m, m ∈ section_headings →
     contains m "https://blog.example" = false → contains m "" = false →
     contains m (_build_prompt "https://blog.example" "" (Some []) None None 5)
     = false.
Proof.
apply (empty_inputs_elide_sections "https://blog.example" "" (Some []) None None 5).
- by right.
- by left.
- by left.
Defined.

(** C5 (amended). Parsing the markdown export of well-formed topic records
  gives as many records, in the same order, with the same titles, and with
  angle, keywords, rationale and content type empty: the export writes its
  labels as [**Angle:**], which the parser does not take for [**Angle**:].
  The records the parser builds are well formed. *)
Theorem reparse_export_keeps_titles :
(∀ topics : list (gmap string value),
   Forall wf_topic topics →
   ∃ md, md_content topics = Some md ∧
         _parse_topic_ideas md = Ok (title_only <$> topics)) ∧
(∀ raw : string,
   ∃ topics, _parse_topic_ideas raw = Ok topics ∧ Forall wf_topic topics).
Proof.
split; [exact ExportFacts.reparse_md_content|].
intros raw. destruct (ParserFacts.parse_total raw) as (topics & E & Hwf & _).
by exists topics.
Qed.

Lemma sample_topic_wf : wf_topic sample_topic.
Proof.
exists "Remote work in 2025", "What small teams do differently",
  ["remote work"; "small teams"], "Matches the blog's audience", "Guide".
repeat split; try done. by repeat constructor.
Qed.

Lemma reparse_export_keeps_titles_witness :
∃ md, md_content [sample_topic] = Some md ∧
      _parse_topic_ideas md = Ok (title_only <$> [sample_topic]).
Proof.
apply (proj1 reparse_export_keeps_titles).
constructor; [exact sample_topic_wf|constructor].
Defined.

(** C5, as stated, fails: the record read back from the export of one
  well-formed record has lost its angle, keywords, rationale and content
  type. *)
Lemma reparse_export_loses_fields :
wf_topic sample_topic ∧
∃ md, md_content [sample_topic] = Some md ∧
      _parse_topic_ideas md = Ok [new_topic "Remote work in 2025"] ∧
      _parse_topic_ideas md ≠ Ok [sample_topic].
Proof.
split; [exact sample_topic_wf|].
eexists. split; [vm_compute; reflexivity|]. split; [vm_compute; reflexivity|].
intros H. apply (f_equal (λ r, match r with
                                | Ok [d] => d !! "angle"
                                | _ => None
                                end)) in H.
vm_compute in H. discriminate H.
Qed.

End PromptTheorems.

Module OrchestratorFacts.
Import PyStr Py Run Orchestrator Stages.

Section WithRunner.
Context {World : Type}.
Variable runner : agent → string → World → res RunResult * World.

Lemma bind_eq {S A B} (m : M S A) (f : A → M S B) (s : S) :
  (m ≫= f) s
  = match m s with (Ok a, s') => f a s' | (Raise e, s') => (Raise e, s') end.
Proof. reflexivity. Qed.

Lemma lift_eq {L S A} (m : M S A) (l : L) (s : S) :
  lift m (l, s) = ((m s).1, (l, (m s).2)).
Proof. unfold lift. cbn. by destruct (m s). Qed.

Lemma create_blog_post_staged topic reference_blog requirements cb st :
  create_blog_post runner topic reference_blog requirements cb st
  = staged runner topic reference_blog requirements cb st.
Proof.
  unfold create_blog_post, staged, try_except, create_blog_post_body,
    create_blog_post_handler, style, research, write, edit, finish, fail,
    set_result, modify, get, lift, mbind, M_bind, mret, M_ret.
  cbn -[notify analyze_blog_style _run_agent_safely insert
        writing_prompt editing_prompt research_prompt].
  repeat
    (match goal with
     | |- context [notify ?c ?m ?p ?s] =>
         destruct (notify c m p s) as [[[]|?] ?]
     | |- context [analyze_blog_style ?r ?b ?c ?s] =>
         destruct (analyze_blog_style r b c s) as [[?|?] ?]
     | |- context [_run_agent_safely ?r ?a ?p ?s] =>
         destruct (_run_agent_safely r a p s) as [[?|?] ?]
     end;
     cbn -[notify analyze_blog_style _run_agent_safely insert
           writing_prompt editing_prompt research_prompt];
     try reflexivity).
Qed.

Lemma notify_calls (cb : option (@callback World)) message progress st :
  calls (notify cb message progress st).2 = calls st.
Proof.
  destruct cb as [f|]; cbn; [|done]. by destruct (f _ _ _).
Qed.

Lemma notify_calls_eq (cb : option (@callback World)) message progress
    st r st' :
  notify cb message progress st = (r, st') → calls st' = calls st.
Proof.
  intros H. by rewrite <-(notify_calls cb message progress st), H.
Qed.

(** An exception inside the [try:] of [analyze_blog_style] becomes the
    returned text. *)
Lemma analyze_blog_style_recovers blog_source cb st0 st1 st2 e :
  notify cb ("🎨 Fetching articles from " +:+ blog_source +:+ "...") 15 st0
    = (Ok (), st1) →
  (notify cb "🔍 Analyzing writing patterns..." 25;;
   _run_agent_safely runner style_analyzer (style_prompt blog_source)) st1
    = (Raise e, st2) →
  analyze_blog_style runner blog_source cb st0
  = (Ok ("Style analysis failed: " +:+ exn_str e), st2).
Proof.
  intros H1 H2. unfold analyze_blog_style.
  rewrite bind_eq, H1. unfold try_except.
  rewrite bind_eq in H2. rewrite bind_eq.
  destruct (notify cb "🔍 Analyzing writing patterns..." 25 st1)
    as [[[]|e1] s1].
  - rewrite bind_eq, H2. reflexivity.
  - by injection H2 as -> ->.
Qed.

Lemma fail_ok (cb : option (@callback World)) results e st st' :
  notify cb ("❌ Error: " +:+ exn_str e) 0 st = (Ok (), st') →
  fail cb results e st = (Ok (<["error" := exn_str e]> results), st').
Proof. intros H. unfold fail. by rewrite bind_eq, H. Qed.

Section Run.
Variables topic reference_blog requirements : string.
Variable cb : option (@callback World).

Local Abbreviation create_blog_post :=
  (create_blog_post runner topic reference_blog requirements cb).
Local Abbreviation style := (style runner reference_blog cb).
Local Abbreviation research := (research runner topic requirements cb).
Local Abbreviation write := (write runner topic reference_blog requirements cb).
Local Abbreviation edit := (edit runner reference_blog cb).
Local Abbreviation report e := (notify cb ("❌ Error: " +:+ exn_str e) 0).

Lemma abort_in_style st0 e st1 st2 :
  style st0 = (Raise e, st1) → report e st1 = (Ok (), st2) →
  create_blog_post st0 = (Ok {[ "error" := exn_str e ]}, st2).
Proof.
  intros H1 Hr. rewrite create_blog_post_staged. unfold staged.
  rewrite H1. by rewrite (fail_ok _ _ _ _ _ Hr).
Qed.

Lemma abort_in_research st0 sg st1 e st2 st3 :
  style st0 = (Ok sg, st1) → research st1 = (Raise e, st2) →
  report e st2 = (Ok (), st3) →
  create_blog_post st0
  = (Ok (<["error" := exn_str e]> {[ "style_guide" := sg ]}), st3).
Proof.
  intros H1 H2 Hr. rewrite create_blog_post_staged. unfold staged.
  rewrite H1, H2. by rewrite (fail_ok _ _ _ _ _ Hr).
Qed.

Lemma abort_in_write st0 sg st1 rs st2 e st3 st4 :
  style st0 = (Ok sg, st1) → research st1 = (Ok rs, st2) →
  write sg (final_output rs) st2 = (Raise e, st3) →
  report e st3 = (Ok (), st4) →
  create_blog_post st0
  = (Ok (<["error" := exn_str e]>
           (<["research" := final_output rs]>
              {[ "style_guide" := sg ]})), st4).
Proof.
  intros H1 H2 H3 Hr. rewrite create_blog_post_staged. unfold staged.
  rewrite H1, H2, H3. by rewrite (fail_ok _ _ _ _ _ Hr).
Qed.

Lemma abort_in_edit st0 sg st1 rs st2 dr st3 e st4 st5 :
  style st0 = (Ok sg, st1) → research st1 = (Ok rs, st2) →
  write sg (final_output rs) st2 = (Ok dr, st3) →
  edit sg (final_output dr) st3 = (Raise e, st4) →
  report e st4 = (Ok (), st5) →
  create_blog_post st0
  = (Ok (<["error" := exn_str e]>
           (<["draft" := final_output dr]>
              (<["research" := final_output rs]>
                 {[ "style_guide" := sg ]}))), st5).
Proof.
  intros H1 H2 H3 H4 Hr. rewrite create_blog_post_staged.
  unfold staged. rewrite H1, H2, H3, H4.
  by rewrite (fail_ok _ _ _ _ _ Hr).
Qed.

(** What a run returns holds what the stages that completed produced,
    whether it ends with an error or not. *)
Lemma fail_keeps results e st r st' k v :
  k ≠ "error" → results !! k = Some v →
  fail cb results e st = (Ok r, st') → r !! k = Some v.
Proof.
  intros Hk Hv. unfold fail. rewrite bind_eq.
  destruct (notify _ _ _ _) as [[[]|?] ?]; [|done].
  intros [= <- <-]. by rewrite lookup_insert_ne.
Qed.

Ltac kept :=
  eapply fail_keeps; [| |eassumption];
  [discriminate|vm_compute; reflexivity].

Lemma completed_stages_kept st0 r stf :
  create_blog_post st0 = (Ok r, stf) →
  ∀ sg st1, style st0 = (Ok sg, st1) →
    r !! "style_guide" = Some sg ∧
    ∀ rs st2, research st1 = (Ok rs, st2) →
      r !! "research" = Some (final_output rs) ∧
      ∀ dr st3, write sg (final_output rs) st2 = (Ok dr, st3) →
        r !! "draft" = Some (final_output dr) ∧
        ∀ fn st4, edit sg (final_output dr) st3 = (Ok fn, st4) →
          r !! "final" = Some (final_output fn).
Proof.
  rewrite create_blog_post_staged. unfold staged.
  intros H sg st1 H1. rewrite H1 in H.
  destruct (research st1) as [[rs|e] st2] eqn:H2.
  2:{ split; [kept|]. intros ?? [=]. }
  destruct (write sg (final_output rs) st2) as [[dr|e] st3] eqn:H3.
  2:{ split; [kept|]. intros ?? [= <- <-].
      split; [kept|]. intros ??. by rewrite H3. }
  destruct (edit sg (final_output dr) st3) as [[fn|e] st4] eqn:H4.
  2:{ split; [kept|]. intros ?? [= <- <-].
      split; [kept|]. intros ??. rewrite H3.
      intros [= <- <-].
      split; [kept|]. intros ??. by rewrite H4. }
  assert (r !! "style_guide" = Some sg
          ∧ r !! "research" = Some (final_output rs)
          ∧ r !! "draft" = Some (final_output dr)
          ∧ r !! "final" = Some (final_output fn)) as (?&?&?&?).
  { destruct (finish cb st4) as [[[]|e] st5].
    - injection H as <- <-. by repeat split.
    - repeat split; kept. }
  split; [done|]. intros ?? [= <- <-].
  split; [done|]. intros ??. rewrite H3. intros [= <- <-].
  split; [done|]. intros ??. rewrite H4. by intros [= <- <-].
Qed.

End Run.

End WithRunner.

(** The run with a model that answers every prompt with [text]. *)
Lemma constant_run {World : Type} (text topic reference_blog requirements : string)
    (st : @state World) :
  create_blog_post (Mock.constant text) topic reference_blog requirements
    None st
  = (Ok (<["final" := text]>
           (<["draft" := text]>
              (<["research" := text]> {[ "style_guide" := text ]}))),
     State (world st)
       (calls st
        ++ [Call style_analyzer (style_prompt reference_blog)
              (Ok {| final_output := text |})]
        ++ [Call researcher (research_prompt topic requirements)
              (Ok {| final_output := text |})]
        ++ [Call writer
              (writing_prompt topic reference_blog requirements text text)
              (Ok {| final_output := text |})]
        ++ [Call editor (editing_prompt reference_blog text text)
              (Ok {| final_output := text |})])).
Proof.
  rewrite create_blog_post_staged.
  unfold staged, style, research, write, edit, finish,
    analyze_blog_style, _run_agent_safely, try_except, run_sync, notify,
    Mock.constant, mbind, M_bind, mret, M_ret.
  cbn [world calls final_output].
  rewrite <-!(assoc_L (++)). reflexivity.
Qed.

End OrchestratorFacts.

Module AppFacts.
Import PyStr Py Run Orchestrator Stages PageSpec OrchestratorFacts.

Section WithRunner.
Context {Model : Type}.
Variable runner : agent → string → Model → res RunResult * Model.

Local Abbreviation M' := (M (@App.state Model)).

Lemma keeps_page_ret {A} (a : A) : keeps_page (mret a : M' A).
Proof. by intros st. Qed.

Lemma keeps_page_raise {A} e : keeps_page (raise e : M' A).
Proof. by intros st. Qed.

Lemma keeps_page_bind {A B} (m : M' A) (f : A → M' B) :
  keeps_page m → (∀ a, keeps_page (f a)) → keeps_page (m ≫= f).
Proof.
  intros Hm Hf st. rewrite bind_eq. specialize (Hm st).
  destruct (m st) as [[a|e] st1]; [|done]. by rewrite (Hf a st1).
Qed.

Lemma keeps_page_try {A} (m : M' A) (h : exn → M' A) :
  keeps_page m → (∀ e, keeps_page (h e)) → keeps_page (try_except m h).
Proof.
  intros Hm Hh st. unfold try_except. specialize (Hm st).
  destruct (m st) as [[a|e] st1]; [done|]. by rewrite (Hh e st1).
Qed.

Lemma keeps_page_notify message progress :
  keeps_page (notify (Some App.update_status) message progress : M' ()).
Proof. by intros st. Qed.

Lemma keeps_page_run_sync a prompt :
  keeps_page (run_sync (App.app_runner runner) a prompt).
Proof.
  intros st. unfold run_sync, App.app_runner.
  by destruct (runner a prompt _).
Qed.

Lemma keeps_page_run_agent a prompt :
  keeps_page (_run_agent_safely (App.app_runner runner) a prompt).
Proof.
  apply keeps_page_try; [apply keeps_page_run_sync|].
  intros e. destruct (contains _ _);
    [apply keeps_page_run_sync|apply keeps_page_raise].
Qed.

Lemma keeps_page_analyze blog_source :
  keeps_page (analyze_blog_style (App.app_runner runner) blog_source
                (Some App.update_status)).
Proof.
  apply keeps_page_bind; [apply keeps_page_notify|]. intros _.
  apply keeps_page_try; [|intros; apply keeps_page_ret].
  apply keeps_page_bind; [apply keeps_page_notify|]. intros _.
  apply keeps_page_bind; [apply keeps_page_run_agent|].
  intros; apply keeps_page_ret.
Qed.

Lemma keeps_page_eq {A} (m : M' A) st r st' :
  keeps_page m → m st = (r, st') →
  App.page (world st').1 = App.page (world st).1.
Proof. intros Hm H. specialize (Hm st). by rewrite H in Hm. Qed.

Lemma fail_status results e (st : @App.state Model) r st' msg :
  fail (Some App.update_status) results e st = (Ok r, st') →
  r !! "error" = Some msg →
  (world st').1
  = App.UI ("❌ Error: " +:+ msg) 0 (App.page (world st).1).
Proof.
  intros [= <- <-]. rewrite lookup_insert_eq. by intros [= <-].
Qed.

(** When the result holds an error, the status line shows it and the
    progress bar is empty; nothing was drawn below them. *)
Lemma error_status topic reference_blog requirements
    (st0 : @App.state Model) r st' msg :
  create_blog_post (App.app_runner runner) topic reference_blog
    requirements (Some App.update_status) st0 = (Ok r, st') →
  r !! "error" = Some msg →
  (world st').1
  = App.UI ("❌ Error: " +:+ msg) 0 (App.page (world st0).1).
Proof.
  rewrite create_blog_post_staged. unfold staged. intros H Hm.
  destruct (style _ _ _ st0) as [[sg|e] st1] eqn:H1.
  2:{ rewrite (fail_status _ _ _ _ _ _ H Hm). f_equal.
      eapply keeps_page_eq, H1.
      apply keeps_page_bind; [apply keeps_page_notify|]. intros _.
      apply keeps_page_analyze. }
  assert (App.page (world st1).1 = App.page (world st0).1) as <-.
  { eapply keeps_page_eq, H1.
    apply keeps_page_bind; [apply keeps_page_notify|]. intros _.
    apply keeps_page_analyze. }
  destruct (research _ _ _ _ st1) as [[rs|e] st2] eqn:H2.
  all: assert (App.page (world st2).1 = App.page (world st1).1) as <-
    by (eapply keeps_page_eq, H2;
        apply keeps_page_bind; [apply keeps_page_notify|]; intros _;
        apply keeps_page_run_agent).
  2: by rewrite (fail_status _ _ _ _ _ _ H Hm).
  destruct (write _ _ _ _ _ _ _ st2) as [[dr|e] st3] eqn:H3.
  all: assert (App.page (world st3).1 = App.page (world st2).1) as <-
    by (eapply keeps_page_eq, H3;
        apply keeps_page_bind; [apply keeps_page_notify|]; intros _;
        apply keeps_page_run_agent).
  2: by rewrite (fail_status _ _ _ _ _ _ H Hm).
  destruct (edit _ _ _ _ _ st3) as [[fn|e] st4] eqn:H4.
  all: assert (App.page (world st4).1 = App.page (world st3).1) as <-
    by (eapply keeps_page_eq, H4;
        apply keeps_page_bind; [apply keeps_page_notify|]; intros _;
        apply keeps_page_run_agent).
  2: by rewrite (fail_status _ _ _ _ _ _ H Hm).
  destruct (finish _ st4) as [[[]|e] st5] eqn:H5.
  - injection H as <- <-. by vm_compute in Hm.
  - assert (App.page (world st5).1 = App.page (world st4).1) as <-
      by (eapply keeps_page_eq, H5; apply keeps_page_notify).
    by rewrite (fail_status _ _ _ _ _ _ H Hm).
Qed.

Lemma display_error r msg topic reference_blog (st : @App.state Model) :
  r !! "error" = Some msg →
  App.display_results r topic reference_blog st
  = (Ok (), State
              (App.UI (App.status_text (world st).1)
                 (App.progress_bar (world st).1)
                 (App.page (world st).1
                  ++ [App.st_error ("❌ Error: " +:+ msg)]),
               (world st).2) (calls st)).
Proof.
  intros Hm. unfold App.display_results.
  rewrite bool_decide_eq_true_2 by (apply elem_of_dom; eauto).
  unfold App.getitem. by rewrite Hm.
Qed.

End WithRunner.
End AppFacts.

Module PipelineTheorems.
Import PyStr Py Run Orchestrator.

(** C3 (amended).  A failure inside the [try:] of [analyze_blog_style] does
  not end the run: the stage returns the text "Style analysis failed: ..."
  as the style guide.  A failure of the research, the writing or the
  editing stage ends the run: [create_blog_post] returns the fields of the
  stages that completed and an ["error"] field with the message, no field
  of the failing stage or of a later one, and the model is not called
  again. *)
Theorem later_stage_failure_aborts {World : Type}
  (runner : agent → string → World → res RunResult * World)
  (topic reference_blog requirements : string)
  (cb : option (@callback World)) :
(∀ st0 st1 st2 e,
   notify cb ("🎨 Fetching articles from " +:+ reference_blog +:+ "...") 15
     st0 = (Ok (), st1) →
   (notify cb "🔍 Analyzing writing patterns..." 25;;
    _run_agent_safely runner style_analyzer (style_prompt reference_blog))
     st1 = (Raise e, st2) →
   analyze_blog_style runner reference_blog cb st0
   = (Ok ("Style analysis failed: " +:+ exn_str e), st2))
∧ (∀ st0 sg st1 e st2 st3,
     Stages.style runner reference_blog cb st0 = (Ok sg, st1) →
     Stages.research runner topic requirements cb st1 = (Raise e, st2) →
     notify cb ("❌ Error: " +:+ exn_str e) 0 st2 = (Ok (), st3) →
     create_blog_post runner topic reference_blog requirements cb st0
     = (Ok (<["error" := exn_str e]> {[ "style_guide" := sg ]}), st3)
     ∧ calls st3 = calls st2)
∧ (∀ st0 sg st1 rs st2 e st3 st4,
     Stages.style runner reference_blog cb st0 = (Ok sg, st1) →
     Stages.research runner topic requirements cb st1 = (Ok rs, st2) →
     Stages.write runner topic reference_blog requirements cb
       sg (final_output rs) st2 = (Raise e, st3) →
     notify cb ("❌ Error: " +:+ exn_str e) 0 st3 = (Ok (), st4) →
     create_blog_post runner topic reference_blog requirements cb st0
     = (Ok (<["error" := exn_str e]>
              (<["research" := final_output rs]>
                 {[ "style_guide" := sg ]})), st4)
     ∧ calls st4 = calls st3)
∧ (∀ st0 sg st1 rs st2 dr st3 e st4 st5,
     Stages.style runner reference_blog cb st0 = (Ok sg, st1) →
     Stages.research runner topic requirements cb st1 = (Ok rs, st2) →
     Stages.write runner topic reference_blog requirements cb
       sg (final_output rs) st2 = (Ok dr, st3) →
     Stages.edit runner reference_blog cb sg (final_output dr) st3
     = (Raise e, st4) →
     notify cb ("❌ Error: " +:+ exn_str e) 0 st4 = (Ok (), st5) →
     create_blog_post runner topic reference_blog requirements cb st0
     = (Ok (<["error" := exn_str e]>
              (<["draft" := final_output dr]>
                 (<["research" := final_output rs]>
                    {[ "style_guide" := sg ]}))), st5)
     ∧ calls st5 = calls st4).
Proof.
split; [|split; [|split]].
- intros. by eapply OrchestratorFacts.analyze_blog_style_recovers.
- intros * H1 H2 Hr. split.
  + by eapply OrchestratorFacts.abort_in_research.
  + by eapply OrchestratorFacts.notify_calls_eq.
- intros * H1 H2 H3 Hr. split.
  + by eapply OrchestratorFacts.abort_in_write.
  + by eapply OrchestratorFacts.notify_calls_eq.
- intros * H1 H2 H3 H4 Hr. split.
  + by eapply OrchestratorFacts.abort_in_edit.
  + by eapply OrchestratorFacts.notify_calls_eq.
Qed.

Lemma later_stage_failure_aborts_witness :
(create_blog_post
   (Mock.failing (World:=()) researcher Mock.unavailable Mock.two_paragraphs)
   "Remote Work" "ExampleBlog.com" "" None (State () [])).1
= Ok (<["error" := "model unavailable"]>
        {[ "style_guide" := Mock.two_paragraphs ]}).
Proof.
pose proof (later_stage_failure_aborts (World:=())
              (Mock.failing researcher Mock.unavailable Mock.two_paragraphs)
              "Remote Work" "ExampleBlog.com" "" None) as (_ & H & _).
edestruct (H (State () [])) as [Hr _];
  [reflexivity..|].
rewrite Hr. reflexivity.
Defined.

(** C3, as stated, fails: the style analyzer raises, and the run goes on to
  the end, with all four fields and no error. *)
Lemma style_failure_does_not_abort :
∃ st,
  create_blog_post
    (Mock.failing (World:=()) style_analyzer Mock.unavailable
       Mock.two_paragraphs)
    "Remote Work" "ExampleBlog.com" "" None (State () [])
  = (Ok {[ "style_guide" := "Style analysis failed: model unavailable";
           "research" := Mock.two_paragraphs;
           "draft" := Mock.two_paragraphs;
           "final" := Mock.two_paragraphs ]}, st)
  ∧ head (calls st)
    = Some (Call style_analyzer (style_prompt "ExampleBlog.com")
              (Raise Mock.unavailable))
  ∧ call_agent <$> calls st = [style_analyzer; researcher; writer; editor].
Proof. eexists. split; [|split]; reflexivity. Qed.

(** C4 (amended).  What the stages that completed produced is returned:
  whatever way a run of [create_blog_post] ends, its result holds the
  style guide, the research and the draft of each stage that returned,
  beside the ["error"] field of a failing one.  The page of [app.py] does
  not show them: when the result holds an error, the output column shows
  the message in the status line, an empty progress bar and one error box
  with the message, and nothing else. *)
Theorem failed_run_keeps_partial_results_page_shows_error :
(∀ (World : Type) (runner : agent → string → World → res RunResult * World)
   topic reference_blog requirements (cb : option (@callback World))
   st0 r stf,
   create_blog_post runner topic reference_blog requirements cb st0
   = (Ok r, stf) →
   ∀ sg st1,
     Stages.style runner reference_blog cb st0 = (Ok sg, st1) →
     r !! "style_guide" = Some sg ∧
     ∀ rs st2,
       Stages.research runner topic requirements cb st1 = (Ok rs, st2) →
       r !! "research" = Some (final_output rs) ∧
       ∀ dr st3,
         Stages.write runner topic reference_blog requirements cb
           sg (final_output rs) st2 = (Ok dr, st3) →
         r !! "draft" = Some (final_output dr))
∧ (∀ (Model : Type) (runner : agent → string → Model → res RunResult * Model)
     topic reference_blog requirements (m : Model) r st' msg,
     truthy_str (strip topic) = true →
     create_blog_post (App.app_runner runner) topic reference_blog
       requirements (Some App.update_status)
       (State (App.UI "" 0 [], m) [])
     = (Ok r, st') →
     r !! "error" = Some msg →
     App.on_generate runner topic reference_blog requirements m
     = (PageSpec.error_page msg, (world st').2)).
Proof.
split.
- intros * H sg st1 H1.
  destruct (OrchestratorFacts.completed_stages_kept _ _ _ _ _ _ _ _ H
              _ _ H1) as [? H2].
  split; [done|]. intros rs st2 Hrs.
  destruct (H2 _ _ Hrs) as [? H3]. split; [done|]. intros dr st3 Hdr.
  by destruct (H3 _ _ Hdr).
- intros * Ht H Hm. unfold App.on_generate. rewrite Ht.
  cbn [negb]. unfold App.generate, try_except.
  rewrite OrchestratorFacts.bind_eq, H.
  rewrite (AppFacts.display_error _ _ _ _ _ Hm).
  cbn [world]. f_equal.
  rewrite (AppFacts.error_status _ _ _ _ _ _ _ _ H Hm). reflexivity.
Qed.

Lemma failed_run_keeps_partial_results_page_shows_error_witness :
App.on_generate
  (Mock.failing (World:=()) writer Mock.unavailable Mock.two_paragraphs)
  "Remote Work" "ExampleBlog.com" "" ()
= (PageSpec.error_page "model unavailable", ()).
Proof.
destruct failed_run_keeps_partial_results_page_shows_error as [_ H].
destruct (create_blog_post
            (App.app_runner
               (Mock.failing (World:=()) writer Mock.unavailable
                  Mock.two_paragraphs))
            "Remote Work" "ExampleBlog.com" "" (Some App.update_status)
            (State (App.UI "" 0 [], ()) [])) as [r st'] eqn:E.
assert (r = Ok (<["error" := "model unavailable"]>
                  (<["research" := Mock.two_paragraphs]>
                     {[ "style_guide" := Mock.two_paragraphs ]}))) as ->
  by (change r with (r, st').1; rewrite <-E; reflexivity).
rewrite (H unit (Mock.failing writer Mock.unavailable Mock.two_paragraphs)
           "Remote Work" "ExampleBlog.com" "" () _ st' "model unavailable"
           eq_refl E eq_refl).
by destruct (world st') as [? []].
Defined.

(** C4, as stated, fails: the writer raises, and the result holds the style
  guide and the research beside the error. *)
Lemma partial_results_returned_with_error :
(create_blog_post
   (Mock.failing (World:=()) writer Mock.unavailable Mock.two_paragraphs)
   "Remote Work" "ExampleBlog.com" "" None (State () [])).1
= Ok {[ "style_guide" := Mock.two_paragraphs;
        "research" := Mock.two_paragraphs;
        "error" := "model unavailable" ]}.
Proof. reflexivity. Qed.

(** C8.  With a model that answers every prompt with the same non-empty
  text, [create_blog_post] (for the topic "Remote Work" and the source
  "ExampleBlog.com" as for any other, with no callback) returns the four
  fields [style_guide], [research], [draft] and [final], each equal to
  that text and so not empty, and no [error] field; the model was called
  once for each stage, in order. *)
Theorem constant_model_fills_every_stage {World : Type}
  (text topic reference_blog requirements : string) (st : @state World) :
text ≠ "" →
∃ r st',
  create_blog_post (Mock.constant text) topic reference_blog requirements
    None st = (Ok r, st')
  ∧ r = {[ "style_guide" := text; "research" := text;
           "draft" := text; "final" := text ]}
  ∧ r !! "error" = None
  ∧ (∀ k v, r !! k = Some v → v = text ∧ v ≠ "")
  ∧ call_agent <$> calls st'
    = (call_agent <$> calls st)
      ++ [style_analyzer; researcher; writer; editor].
Proof.
intros Hne. eexists _, _.
split; [apply OrchestratorFacts.constant_run|].
split; [reflexivity|]. split; [reflexivity|]. split.
- intros k v. rewrite !lookup_insert_Some, lookup_singleton_Some.
  intros [[_ <-]|[_ [[_ <-]|[_ [[_ <-]|[_ [_ <-]]]]]]]; done.
- cbn [calls]. rewrite !fmap_app. reflexivity.
Qed.

Lemma constant_model_fills_every_stage_witness :
(create_blog_post (Mock.constant (World:=()) Mock.two_paragraphs)
   "Remote Work" "ExampleBlog.com" "" None (State () [])).1
= Ok {[ "style_guide" := Mock.two_paragraphs;
        "research" := Mock.two_paragraphs;
        "draft" := Mock.two_paragraphs;
        "final" := Mock.two_paragraphs ]}.
Proof.
destruct (constant_model_fills_every_stage (World:=()) Mock.two_paragraphs
            "Remote Work" "ExampleBlog.com" "" (State () []))
  as (r & st' & -> & -> & _); [discriminate|reflexivity].
Defined.

End PipelineTheorems.

Module PoolFacts.
Import PyStr Py Run Orchestrator OrchestratorFacts.

Lemma dict_set_elem {V} (k : string) (v : V) d a x :
  (a, x) ∈ dict_set k v d → (a, x) = (k, v) ∨ (a, x) ∈ d.
Proof.
  induction d as [|[k' v'] d IH]; cbn.
  - rewrite list_elem_of_singleton. auto.
  - destruct (decide (k' = k)) as [->|Hne]; rewrite !elem_of_cons.
    + intros [?|?]; auto.
    + intros [?|?]; [auto|]. destruct IH as [?|?]; auto.
Qed.

Lemma dict_set_keys {V} (k : string) (v : V) d a :
  a ∈ (dict_set k v d).*1 ↔ a = k ∨ a ∈ d.*1.
Proof.
  induction d as [|[k' v'] d IH]; cbn.
  - rewrite list_elem_of_singleton, elem_of_nil. tauto.
  - destruct (decide (k' = k)) as [->|Hne]; cbn; rewrite !elem_of_cons.
    + tauto.
    + rewrite IH. tauto.
Qed.

Lemma submit_all_elem areas : ∀ i futures a j,
  (a, j) ∈ submit_all i areas futures →
  (a, j) ∈ futures ∨ ∃ k, areas !! k = Some a ∧ j = (i + k)%nat.
Proof.
  induction areas as [|area areas IH]; intros i futures a j; cbn; [auto|].
  intros [H|(k & Hk & ->)]%IH.
  - apply dict_set_elem in H as [[= -> ->]|?]; [|auto].
    right. exists 0%nat. split; [done|lia].
  - right. exists (S k). split; [done|lia].
Qed.

Lemma submit_all_keys areas : ∀ i futures a,
  a ∈ (submit_all i areas futures).*1 ↔ a ∈ futures.*1 ∨ a ∈ areas.
Proof.
  induction areas as [|area areas IH]; intros i futures a; cbn.
  - rewrite elem_of_nil. tauto.
  - rewrite IH, dict_set_keys, elem_of_cons. tauto.
Qed.

Lemma collect_spec (done : gmap nat (res string)) : ∀ futures results,
  (∀ a j, (a, j) ∈ futures → ∃ v, done !! j = Some (Ok v)) →
  ∃ m, collect done futures results = Ok m
       ∧ dom m = dom results ∪ list_to_set futures.*1
       ∧ ∀ a v, m !! a = Some v →
           results !! a = Some v
           ∨ ∃ j, (a, j) ∈ futures ∧ done !! j = Some (Ok v).
Proof.
  induction futures as [|[area j] futures IH]; intros results Hd; cbn.
  - exists results. split; [done|]. split; [set_solver|auto].
  - destruct (Hd area j) as [v Hv]; [left|].
    unfold future_result. rewrite Hv. cbn.
    destruct (IH (<[area := v]> results)) as (m & -> & Hdom & Hm).
    { intros a i Hi. apply (Hd a i). by right. }
    exists m. split; [done|]. split.
    + rewrite Hdom, dom_insert_L. set_solver.
    + intros a w [Hw|(i & Hi & Hdi)]%Hm.
      * apply lookup_insert_Some in Hw as [[<- <-]|[_ ?]]; [|auto].
        right. exists j. split; [left|done].
      * right. exists i. split; [by right|done].
Qed.

Section WithRunner.
Context {World : Type}.
Variable runner : agent → string → World → res RunResult * World.
Variables (topic : string) (areas : list string).

(** every call of the researcher returns *)
Hypothesis researcher_returns :
  ∀ p w, ∃ out w', runner researcher p w = (Ok out, w').

Local Abbreviation answered := (PoolSpec.answered runner topic areas).

Lemma answered_mono n0 i r st st' new :
  (n0 ≤ length (calls st))%nat → calls st' = calls st ++ new →
  answered n0 i r st → answered n0 i r st'.
Proof.
  intros Hn Hc (area & v & w & ? & ? & ? & Hin).
  exists area, v, w. repeat split; try done.
  rewrite Hc, drop_app_le by done. apply elem_of_app. by left.
Qed.

Lemma run_pool_spec n0 : ∀ schedule done st,
  (n0 ≤ length (calls st))%nat →
  (∀ i r, done !! i = Some r → answered n0 i r st) →
  (∀ i, i ∈ schedule → (i < length areas)%nat) →
  ∃ done' st',
    run_pool (research_area runner topic <$> areas) schedule done st
    = (done', st')
    ∧ (∀ i r, done' !! i = Some r → answered n0 i r st')
    ∧ (∀ i, i ∈ schedule ∨ is_Some (done !! i) → is_Some (done' !! i))
    ∧ length (calls st') = (length (calls st) + length schedule)%nat.
Proof.
  induction schedule as [|i schedule IH]; intros done st Hn Hdone Hlt; cbn.
  - exists done, st. split; [done|]. split; [done|]. split; [|lia].
    intros i [[]%elem_of_nil|?]; done.
  - destruct (lookup_lt_is_Some_2 areas i) as [area Harea];
      [apply Hlt; left|].
    rewrite list_lookup_fmap, Harea. cbn.
    unfold research_area at 1. rewrite bind_eq. unfold run_sync at 1.
    destruct (researcher_returns (area_prompt topic area) (world st))
      as ([v] & w' & Hrun).
    rewrite Hrun. cbn [mret M_ret final_output].
    set (st1 := State w' (calls st ++ [_])).
    destruct (IH (<[i := Ok v]> done) st1) as (done' & st' & -> & Ha & Hs & Hl).
    + subst st1. cbn. rewrite length_app. lia.
    + intros j r [[<- <-]|[_ Hj]]%lookup_insert_Some.
      * exists area, v, (world st). rewrite Hrun.
        repeat split; try done. subst st1. cbn.
        rewrite drop_app_le by done. apply elem_of_app. right. left.
      * eapply (answered_mono _ _ _ st); [done| |by apply Hdone].
        reflexivity.
    + intros j Hj. apply Hlt. by right.
    + exists done', st'. split; [done|]. split; [done|]. split.
      * intros j [[->|?]%elem_of_cons|?]; apply Hs.
        -- right. by rewrite lookup_insert_eq.
        -- by left.
        -- right. destruct (decide (i = j)) as [->|?].
           ++ by rewrite lookup_insert_eq.
           ++ by rewrite lookup_insert_ne.
      * rewrite Hl. subst st1. cbn. rewrite length_app. cbn. lia.
Qed.

Lemma parallel_research_spec schedule st :
  schedule ≡ₚ seq 0 (length areas) →
  ∃ m st',
    parallel_research runner topic areas schedule st = (Ok m, st')
    ∧ dom m = list_to_set areas
    ∧ (∀ area v, m !! area = Some v →
         (∃ w, (runner researcher (area_prompt topic area) w).1
               = Ok {| final_output := v |})
         ∧ Call researcher (area_prompt topic area)
             (Ok {| final_output := v |})
           ∈ drop (length (calls st)) (calls st'))
    ∧ length (calls st') = (length (calls st) + length areas)%nat.
Proof.
  intros Hp. unfold parallel_research.
  destruct (run_pool_spec (length (calls st)) schedule ∅ st)
    as (outcomes & st' & -> & Ha & Hs & Hl); [done|done| |].
  { intros i Hi. rewrite Hp in Hi. apply elem_of_seq in Hi. lia. }
  destruct (collect_spec outcomes (submit_all 0 areas []) ∅)
    as (m & Hm & Hdom & Hv).
  { intros a j [[]%elem_of_nil|(k & Hk & ->)]%submit_all_elem.
    destruct (Hs k) as [r Hr].
    { left. rewrite Hp. apply elem_of_seq.
      apply lookup_lt_Some in Hk. lia. }
    destruct (Ha _ _ Hr) as (? & v & _ & _ & -> & _). by exists v. }
  exists m, st'. split; [by rewrite Hm|]. split; [|split].
  - rewrite Hdom, dom_empty_L, (left_id_L ∅ (∪)).
    apply set_eq. intros a.
    rewrite !elem_of_list_to_set, submit_all_keys, elem_of_nil. tauto.
  - intros area v [[=]|(j & Hj & Hd)]%Hv.
    apply submit_all_elem in Hj as [[]%elem_of_nil|(k & Hk & ->)].
    destruct (Ha _ _ Hd) as (area' & v' & w & Hk' & [= <-] & Hw & Hc).
    cbn in Hk'. rewrite Hk in Hk'. injection Hk' as <-. eauto.
  - rewrite Hl. f_equal. by rewrite Hp, length_seq.
Qed.

End WithRunner.
End PoolFacts.

Module FanOutTheorems.
Import PyStr Py Run Orchestrator.

(** C9.  When every call of the researcher returns, [parallel_research]
  returns, after one call for each research area has completed, a mapping
  whose keys are exactly the research areas; the value of an area is the
  answer of the model to the prompt of that area, given by one of these
  calls.  This holds for every order in which the workers run (every
  permutation [schedule] of the submitted jobs); when the answer of the
  model depends on the prompt only, the mapping is the same for all of
  them. *)
Theorem parallel_research_keyed_by_area {World : Type}
  (runner : agent → string → World → res RunResult * World)
  (topic : string) (research_areas : list string) (schedule : list nat)
  (st : @state World) :
schedule ≡ₚ seq 0 (length research_areas) →
(∀ p w, ∃ out w', runner researcher p w = (Ok out, w')) →
∃ m st',
  parallel_research runner topic research_areas schedule st = (Ok m, st')
  ∧ dom m = list_to_set research_areas
  ∧ (∀ area v, m !! area = Some v →
       (∃ w, (runner researcher (area_prompt topic area) w).1
             = Ok {| final_output := v |})
       ∧ Call researcher (area_prompt topic area)
           (Ok {| final_output := v |})
         ∈ drop (length (calls st)) (calls st'))
  ∧ length (calls st')
    = (length (calls st) + length research_areas)%nat
  ∧ (∀ answer : string → string,
       (∀ p w, (runner researcher p w).1
               = Ok {| final_output := answer p |}) →
       ∀ area, area ∈ research_areas →
         m !! area = Some (answer (area_prompt topic area))).
Proof.
intros Hp Hret.
destruct (PoolFacts.parallel_research_spec runner topic research_areas
            Hret schedule st Hp) as (m & st' & Hrun & Hdom & Hv & Hl).
exists m, st'. repeat split; try done; try by apply Hv.
intros answer Hans area Harea.
assert (is_Some (m !! area)) as [v Hm].
{ apply elem_of_dom. rewrite Hdom. by apply elem_of_list_to_set. }
destruct (Hv _ _ Hm) as [[w Hw] _]. rewrite Hans in Hw.
by injection Hw as <-.
Qed.

Lemma parallel_research_keyed_by_area_witness :
∃ st',
  parallel_research (World:=()) Mock.echo "Remote Work"
    ["hiring"; "office costs"] [1; 0]%nat (State () [])
  = (Ok {[ "hiring" :=
             "Research specifically about hiring in relation to Remote Work";
           "office costs" :=
             "Research specifically about office costs in relation to Remote Work" ]},
     st').
Proof.
destruct (parallel_research_keyed_by_area (World:=()) Mock.echo
            "Remote Work" ["hiring"; "office costs"] [1; 0]%nat
            (State () []))
  as (m & st' & Hrun & _).
- apply Permutation_swap.
- intros p w. by exists {| final_output := p |}, w.
- exists st'. rewrite Hrun. f_equal. f_equal.
  apply (f_equal fst) in Hrun. by injection Hrun as <-.
Defined.

End FanOutTheorems.

Module WorkflowFacts.
Import Py Run Workflow TraceSpec WorkflowLogic.

Section WithRunner.
Context {World : Type}.
Variable runner :
  agent → string → list (string * value) → World → res value * World.

Local Abbreviation wstate := (@wstate World).

Lemma wp_ret {A} (a : A) (s : wstate) Φ :
  Φ (Ok a) s → wp (mret a) s Φ.
Proof. done. Qed.

Lemma wp_bind {A B} (m : M wstate A) (f : A → M wstate B) s Φ :
  wp m s (λ r s',
    match r with
    | Ok a => wp (f a) s' Φ
    | Raise e => Φ (Raise e) s'
    end) →
  wp (m ≫= f) s Φ.
Proof.
  unfold wp, mbind, M_bind. by destruct (m s) as [[a|e] s'].
Qed.

Lemma wp_getitem (d : gmap string value) k (s : wstate) Φ :
  (∀ v, d !! k = Some v → Φ (Ok v) s) →
  (d !! k = None → Φ (Raise (KeyError k)) s) →
  wp (getitem d k) s Φ.
Proof.
  intros H1 H2. unfold wp, getitem. destruct (d !! k); cbn; auto.
Qed.

Lemma wp_state_get k v (s : wstate) Φ :
  state s !! k = Some v →
  Φ (Ok v) (WState (world s) (state s) (trace s ++ [Read [k]])) →
  wp (state_get k) s Φ.
Proof.
  intros Hk H. unfold wp, state_get, getitem, get, mbind, M_bind.
  by rewrite Hk.
Qed.

Lemma wp_state_get2 k1 k2 d v (s : wstate) Φ :
  state s !! k1 = Some (VDict d) → d !! k2 = Some v →
  Φ (Ok v) (WState (world s) (state s) (trace s ++ [Read [k1; k2]])) →
  wp (state_get2 k1 k2) s Φ.
Proof.
  intros Hk1 Hk2 H. unfold wp, state_get2, getitem, get, mbind, M_bind.
  rewrite Hk1. cbn. by rewrite Hk2.
Qed.

Lemma wp_state_set k v (s : wstate) Φ :
  Φ (Ok ())
    (WState (world s) (<[k := v]> (state s)) (trace s ++ [Write [k]])) →
  wp (state_set k v) s Φ.
Proof. done. Qed.

Lemma wp_run a input context (s : wstate) Φ :
  (∀ r w',
     Φ r (WState w' (state s) (trace s ++ [Invoke a context]))) →
  wp (run runner a input context) s Φ.
Proof.
  intros H. unfold wp, run, log, modify, get, of_res, mbind, M_bind.
  cbn. destruct (runner a input context (world s)) as [r w']. apply H.
Qed.

Lemma wp_model_dump v (s : wstate) Φ :
  (∀ d, v = VDict d → Φ (Ok d) s) → (∀ e, Φ (Raise e) s) →
  wp (model_dump v) s Φ.
Proof.
  intros H1 H2. unfold wp, model_dump. destruct v; cbn; auto.
Qed.

Ltac lookup_state :=
  cbn [state];
  repeat (rewrite lookup_insert_ne by discriminate);
  first [apply lookup_insert_eq | reflexivity].

Ltac wp_step :=
  cbn [state world trace];
  lazymatch goal with
  | |- wp (_ ≫= _) _ _ => apply wp_bind
  | |- wp (mret _) _ _ => apply wp_ret
  | |- wp (getitem _ _) _ _ => apply wp_getitem; [intros ? ?|intros ?]
  | |- wp (state_get _) _ _ => eapply wp_state_get; [lookup_state|]
  | |- wp (state_get2 _ _) _ _ =>
      eapply wp_state_get2; [lookup_state|reflexivity|]
  | |- wp (state_set _ _) _ _ => apply wp_state_set
  | |- wp (run _ _ _ _) _ _ => apply wp_run; intros [?|?] ?
  | |- wp (model_dump _) _ _ =>
      apply wp_model_dump; [intros ? ->|intros ?]
  | |- checked _ = true => vm_compute; reflexivity
  end.

Lemma run_workflow_checked input w :
  checked (trace (run_workflow runner input w).2) = true.
Proof.
  unfold run_workflow.
  change (wp (run_body runner input) (WState w initial_state [])
            (λ _ s, checked (trace s) = true)).
  unfold run_body.
  repeat wp_step.
Qed.
End WithRunner.

Lemma is_empty_str_spec o : is_empty_str o = true → o = Some (VStr "").
Proof. by destruct o as [[|[|]| |]|]. Qed.

Lemma invokes_links_spec tr :
  existsb invokes_links tr = true
  ↔ ∃ context, Invoke internal_links context ∈ tr.
Proof.
  rewrite existsb_exists. split.
  - intros ([| |[] context] & Hin & He); try done.
    exists context. by apply list_elem_of_In.
  - intros [context Hin]. exists (Invoke internal_links context).
    split; [by apply list_elem_of_In|done].
Qed.

Lemma checked_spec tr :
  checked tr = true →
  NoDup (written tr)
  ∧ (∀ context, Invoke internal_links context ∈ tr →
       unpopulated_reads [] tr = [schema_root_blog_url; schema_topic]
       ∧ attr "state_response_schema_root_blog_url" context
         = Some (VStr "")
       ∧ attr "state_response_schema_topic" context = Some (VStr ""))
  ∧ ((∀ context, Invoke internal_links context ∉ tr) →
     unpopulated_reads [] tr = []).
Proof.
  unfold checked. intros [[Hn Hl]%andb_prop Hu]%andb_prop.
  apply bool_decide_eq_true_1 in Hn. split; [done|]. split.
  - intros context Hin.
    rewrite (proj2 (invokes_links_spec tr)) in Hu by eauto.
    apply bool_decide_eq_true_1 in Hu. split; [done|].
    rewrite forallb_forall in Hl.
    specialize (Hl _ (proj1 (list_elem_of_In _ _) Hin)). cbn in Hl.
    apply andb_prop in Hl as [H1 H2].
    split; by apply is_empty_str_spec.
  - intros Hno. destruct (existsb invokes_links tr) eqn:He.
    + apply invokes_links_spec in He as [context Hin].
      by destruct (Hno context).
    + by apply bool_decide_eq_true_1 in Hu.
Qed.

End WorkflowFacts.

Module WorkflowTheorems.
Import Py Run Workflow TraceSpec.

(** C7.  In every run of [run_workflow] each field of [state] is written at
  most once.  But a run that reaches the internal-links stage reads two
  fields that nothing populated: [state["response_schema"]["root_blog_url"]]
  and [state["response_schema"]["topic"]] still hold the empty strings of
  the literal [state] starts from, so the agent is given an empty blog URL
  and an empty topic, whatever the input was.  These are the only such
  reads: a run that ends before that stage reads written fields only. *)
Theorem internal_links_reads_unpopulated_fields {World : Type}
  (runner :
     agent → string → list (string * value) → World → res value * World)
  (input_as_text : string) (w : World) :
NoDup (written (trace (run_workflow runner input_as_text w).2))
∧ (∀ context,
     Invoke internal_links context
       ∈ trace (run_workflow runner input_as_text w).2 →
     unpopulated_reads [] (trace (run_workflow runner input_as_text w).2)
     = [schema_root_blog_url; schema_topic]
     ∧ attr "state_response_schema_root_blog_url" context = Some (VStr "")
     ∧ attr "state_response_schema_topic" context = Some (VStr ""))
∧ ((∀ context,
      Invoke internal_links context
        ∉ trace (run_workflow runner input_as_text w).2) →
   unpopulated_reads [] (trace (run_workflow runner input_as_text w).2)
   = []).
Proof.
apply WorkflowFacts.checked_spec, WorkflowFacts.run_workflow_checked.
Qed.

Lemma internal_links_reads_unpopulated_fields_witness :
∃ context,
  Invoke internal_links context
    ∈ trace (run_workflow WorkflowMock.answers WorkflowMock.input ()).2
  ∧ Invoke seo_analyzer
      [("state_writer_draft", VStr "draft");
       ("state_topics", VList ["Remote Work"]);
       ("state_root_blog_url", VStr "https://example.com/blog")]
    ∈ trace (run_workflow WorkflowMock.answers WorkflowMock.input ()).2
  ∧ attr "state_response_schema_root_blog_url" context = Some (VStr "")
  ∧ attr "state_response_schema_topic" context = Some (VStr "").
Proof.
assert (∃ context,
          Invoke internal_links context
            ∈ trace (run_workflow WorkflowMock.answers
                       WorkflowMock.input ()).2
          ∧ Invoke seo_analyzer
              [("state_writer_draft", VStr "draft");
               ("state_topics", VList ["Remote Work"]);
               ("state_root_blog_url", VStr "https://example.com/blog")]
            ∈ trace (run_workflow WorkflowMock.answers
                       WorkflowMock.input ()).2) as (context & Hin & Hseo).
{ eexists. split; vm_compute; repeat first [by left | right]. }
exists context. split; [done|]. split; [done|].
by destruct (internal_links_reads_unpopulated_fields WorkflowMock.answers
               WorkflowMock.input ()) as (_ & H & _);
  destruct (H context Hin) as (_ & ? & ?).
Defined.

End WorkflowTheorems.

Module GenerateFacts.
Import PyStr Py Run TopicIdeaAgent TopicIdeaAgentRun GenerateSpec.
Import Convention OrchestratorFacts.

Section WithRunner.
Context {World : Type}.
Variable runner : Agent → string → World → res string * World.

Lemma notify_fields (cb : option (@callback World)) message progress
    s r s' :
  notify cb message progress s = (r, s') →
  model s' = model s ∧ _agent s' = _agent s ∧ calls s' = calls s.
Proof.
  destruct cb as [f|]; cbn.
  - destruct (f _ _ _). by intros [= <- <-].
  - by intros [= <- <-].
Qed.

Lemma get_agent_fresh (s : @self World) :
  fresh s →
  _get_agent s
  = (Ok (topic_generator (model s)),
     Self (model s) (Some (topic_generator (model s))) (world s)
       (calls s)).
Proof.
  unfold _get_agent. intros [H|H]; rewrite H; [done|].
  destruct s. cbn in *. by rewrite H.
Qed.

Lemma run_agent_sync_fresh prompt (s : @self World) :
  fresh s →
  _run_agent_sync runner prompt s
  = ((runner (topic_generator (model s)) prompt (world s)).1,
     after_run s prompt
       (runner (topic_generator (model s)) prompt (world s)).2).
Proof.
  intros Hs. unfold _run_agent_sync, _run_agent_async.
  rewrite bind_eq, (get_agent_fresh _ Hs), bind_eq.
  unfold Runner_run, after_run. cbn.
  by destruct (runner _ _ _) as [[raw|e] w'].
Qed.

Lemma fresh_notify (cb : option (@callback World)) message progress
    s r s' :
  notify cb message progress s = (r, s') → fresh s → fresh s'.
Proof.
  intros (Hm & Ha & _)%notify_fields. unfold fresh.
  by rewrite Hm, Ha.
Qed.

Lemma generate_eq reference_blog preferences
    (cb : option (@callback World)) kws pt ts n s s1 :
  fresh s →
  notify cb "Analyzing blog and generating topic ideas..." 50 s
  = (Ok (), s1) →
  generate runner reference_blog preferences cb kws pt ts n s
  = match runner (topic_generator (model s))
            (_build_prompt reference_blog preferences kws pt ts n)
            (world s1) with
    | (Ok raw, w2) =>
        match notify cb "Topic ideas generated!" 100
                (after_run s
                   (_build_prompt reference_blog preferences kws pt ts n)
                   w2) with
        | (Ok _, s3) => (_parse_topic_ideas raw, s3)
        | (Raise e, s3) =>
            (notify cb ("Error: " +:+ exn_str e) 0;; raise e) s3
        end
    | (Raise e, w2) =>
        (notify cb ("Error: " +:+ exn_str e) 0;; raise e)
          (after_run s
             (_build_prompt reference_blog preferences kws pt ts n) w2)
    end.
Proof.
  intros Hs H1. unfold generate, try_except.
  rewrite bind_eq, H1, bind_eq.
  rewrite (run_agent_sync_fresh _ s1 (fresh_notify _ _ _ _ _ _ H1 Hs)).
  destruct (notify_fields _ _ _ _ _ _ H1) as (Hm & Ha & Hc).
  unfold after_run. rewrite Hm, Hc.
  destruct (runner _ _ _) as [[raw|e] w2]; cbn [fst snd]; [|done].
  rewrite bind_eq.
  destruct (notify cb "Topic ideas generated!" 100 _) as [[[]|e] s3];
    [|done].
  rewrite bind_eq. unfold of_res.
  destruct (ParserFacts.parse_total raw) as (topics & -> & _). done.
Qed.

End WithRunner.
End GenerateFacts.

Module GenerateTheorems.
Import PyStr Py Run TopicIdeaAgent TopicIdeaAgentRun GenerateSpec Convention.

(** [generate] returns what [_parse_topic_ideas] makes of the output of the
  model: when the two status callbacks return and the model answers
  [raw_output] to the prompt of [_build_prompt], the result is the parsed
  list (well-formed records, no more than the output has title lines),
  after one run of the agent ["topic_generator"] of the model of [self]
  on that prompt. *)
Theorem generate_returns_parsed_output {World : Type}
  (runner : Agent → string → World → res string * World)
  (reference_blog preferences : string) (cb : option (@callback World))
  (kws : option (list string)) (pt : option string)
  (ts : option (list string)) (n : Z) (s s1 s3 : @self World)
  (raw_output : string) (w2 : World) :
fresh s →
notify cb "Analyzing blog and generating topic ideas..." 50 s
= (Ok (), s1) →
runner (topic_generator (model s))
  (_build_prompt reference_blog preferences kws pt ts n) (world s1)
= (Ok raw_output, w2) →
notify cb "Topic ideas generated!" 100
  (after_run s (_build_prompt reference_blog preferences kws pt ts n) w2)
= (Ok (), s3) →
∃ topics,
  generate runner reference_blog preferences cb kws pt ts n s
  = (Ok topics, s3)
  ∧ _parse_topic_ideas raw_output = Ok topics
  ∧ Forall wf_topic topics
  ∧ (length topics
     ≤ length (filter (λ l, is_title_line l = true)
                 (split newline raw_output)))%nat
  ∧ calls s3
    = calls s ++ [(topic_generator (model s),
                   _build_prompt reference_blog preferences kws pt ts n)].
Proof.
intros Hs H1 H2 H3.
rewrite (GenerateFacts.generate_eq _ _ _ _ _ _ _ _ _ _ Hs H1), H2, H3.
destruct (ParserFacts.parse_total raw_output) as (topics & Hp & Hwf & Hlen).
exists topics. rewrite Hp. repeat split; try done.
by destruct (GenerateFacts.notify_fields _ _ _ _ _ _ H3) as (_ & _ & ->).
Qed.

Lemma generate_returns_parsed_output_witness :
(generate (World:=())
   (λ _ _ w, (Ok "## 1. Remote work in 2025
- **Angle**: What small teams do differently", w))
   "https://blog.example" "" None None None None 5
   (__init__ "gpt-4o" None ())).1
= Ok [mk_topic "Remote work in 2025" "What small teams do differently"
        [] "" ""].
Proof.
edestruct (generate_returns_parsed_output (World:=())
             (λ _ _ w, (Ok "## 1. Remote work in 2025
- **Angle**: What small teams do differently", w))
             "https://blog.example" "" None None None None 5
             (__init__ "gpt-4o" None ()))
  as (topics & -> & Hp & _);
  [by left|reflexivity|reflexivity|reflexivity|].
cbn [fst]. rewrite <-Hp. reflexivity.
Defined.

(** When the model fails, [generate] reports ["Error: <message>"] at
  progress 0 through the callback and raises the same exception again: it
  returns no list, unlike [create_blog_post], which returns the error in
  its result. *)
Theorem generate_reports_and_reraises {World : Type}
  (runner : Agent → string → World → res string * World)
  (reference_blog preferences : string) (cb : option (@callback World))
  (kws : option (list string)) (pt : option string)
  (ts : option (list string)) (n : Z) (s s1 s3 : @self World)
  (e : exn) (w2 : World) :
fresh s →
notify cb "Analyzing blog and generating topic ideas..." 50 s
= (Ok (), s1) →
runner (topic_generator (model s))
  (_build_prompt reference_blog preferences kws pt ts n) (world s1)
= (Raise e, w2) →
notify cb ("Error: " +:+ exn_str e) 0
  (after_run s (_build_prompt reference_blog preferences kws pt ts n) w2)
= (Ok (), s3) →
generate runner reference_blog preferences cb kws pt ts n s
= (Raise e, s3).
Proof.
intros Hs H1 H2 H3.
rewrite (GenerateFacts.generate_eq _ _ _ _ _ _ _ _ _ _ Hs H1), H2.
by rewrite OrchestratorFacts.bind_eq, H3.
Qed.

Lemma generate_reports_and_reraises_witness :
(generate (World:=()) (λ _ _ w, (Raise Mock.unavailable, w))
   "https://blog.example" "" None None None None 5
   (__init__ "gpt-4o" None ())).1
= Raise Mock.unavailable.
Proof.
erewrite (generate_reports_and_reraises (World:=())
            (λ _ _ w, (Raise Mock.unavailable, w))
            "https://blog.example" "" None None None None 5
            (__init__ "gpt-4o" None ()));
  [reflexivity|by left|reflexivity|reflexivity|reflexivity].
Defined.

End GenerateTheorems.

Module AppV2Facts.
Import PyStr Py Run TopicIdeaAgent TopicIdeaAgentRun GenerateSpec.
Import Convention AppV2Main OrchestratorFacts.

Section WithRunner.
Context {Model : Type}.
Variable runner : Agent → string → Model → res string * Model.
Variable DEFAULT_MODEL : string.

(** [generate_topics], by what the model does with the prompt. *)
Lemma generate_topics_eq model reference_blog kws pt ts n u m :
  generate_topics runner DEFAULT_MODEL model reference_blog kws pt ts n
    (u, m)
  = match runner (topic_generator (model_used DEFAULT_MODEL model))
            (_build_prompt reference_blog ""
               (or_none truthy_list kws) (or_none truthy_str pt)
               (or_none truthy_list ts) n) m with
    | (Ok raw, m') =>
        (match _parse_topic_ideas raw with
         | Ok topics => Ok (Success topics)
         | Raise e => Ok (Failure (exn_str e))
         end,
         (UI (info "Topic ideas generated!") 100, m'))
    | (Raise e, m') =>
        (Ok (Failure (exn_str e)),
         (UI (info ("Error: " +:+ exn_str e)) 0, m'))
    end.
Proof.
  unfold generate_topics, try_except. rewrite bind_eq.
  cbn [notify status_callback __init__ TopicIdeaAgentRun.world
       TopicIdeaAgentRun.model TopicIdeaAgentRun._agent
       TopicIdeaAgentRun.calls fst snd].
  rewrite bind_eq.
  erewrite (GenerateFacts.generate_eq (app_runner runner));
    [|by left|reflexivity].
  cbn [TopicIdeaAgentRun.world TopicIdeaAgentRun.model fst snd].
  unfold app_runner at 1. cbn [snd fst].
  change (if truthy_opt truthy_str (Some model) then default "" (Some model)
          else DEFAULT_MODEL) with (model_used DEFAULT_MODEL model).
  destruct (runner _ _ m) as [[raw|e] m']; [|done].
  cbn. by destruct (_parse_topic_ideas raw).
Qed.

End WithRunner.
End AppV2Facts.

Module FormFacts.
Import PyStr Py StrPred GenerateSpec AppV2Main PyStrFacts.

Lemma all_space_rstrip s : all_chars isspace s = true → rstrip s = "".
Proof.
  induction s as [|c s IH]; cbn; [done|].
  intros [Hc Hs]%andb_prop. by rewrite (IH Hs), Hc.
Qed.

Lemma rstrip_empty_all_space s : rstrip s = "" → all_chars isspace s = true.
Proof.
  induction s as [|c s IH]; cbn; [done|].
  destruct (isspace c) eqn:Hc; cbn; [|done].
  destruct (rstrip s) eqn:Hr; cbn; [|done]. intros _. by apply IH.
Qed.

Lemma lstrip_empty_all_space s : lstrip s = "" → all_chars isspace s = true.
Proof.
  induction s as [|c s IH]; cbn; [done|].
  destruct (isspace c); cbn; [done|done].
Qed.

Lemma strip_empty_iff s : strip s = "" ↔ all_chars isspace s = true.
Proof.
  unfold strip. split.
  - intros H. apply rstrip_empty_all_space.
    apply lstrip_empty_all_space, all_space_rstrip in H.
    by rewrite rstrip_idem in H.
  - intros H. by rewrite (all_space_rstrip _ H).
Qed.

Lemma split_all_chars p sep s :
  all_chars p s = true → Forall (λ l, all_chars p l = true) (split sep s).
Proof.
  induction s as [|c s IH]; cbn; [by repeat constructor|].
  intros [Hc Hs]%andb_prop. specialize (IH Hs).
  destruct (N.eqb c sep); [by constructor|].
  destruct (split sep s) as [|h t]; [by repeat constructor; cbn; rewrite Hc|].
  inversion IH; subst. constructor; [|done]. cbn. by rewrite Hc.
Qed.

Lemma truthy_strip s : truthy_str (strip s) = true ↔ strip s ≠ "".
Proof. unfold truthy_str. by destruct (strip s). Qed.

(** The test before the comprehension changes nothing. *)
Lemma guard_redundant sep text :
  (if truthy_str (strip text) then stripped_parts sep text else [])
  = stripped_parts sep text.
Proof.
  destruct (truthy_str (strip text)) eqn:Ht; [done|].
  assert (strip text = "") as Hs by (by destruct (strip text)).
  apply strip_empty_iff, (split_all_chars _ sep) in Hs.
  unfold stripped_parts. induction Hs as [|l ls Hl _ IH]; [done|].
  rewrite filter_cons. apply strip_empty_iff in Hl.
  destruct (decide _) as [Hd|_]; [|done]. by rewrite Hl in Hd.
Qed.

Lemma stripped_parts_clean sep text :
  Forall (clean sep) (stripped_parts sep text).
Proof.
  unfold stripped_parts. apply Forall_fmap, Forall_forall.
  intros part [Ht Hin]%list_elem_of_filter. repeat split.
  - by apply truthy_strip.
  - apply strip_idem.
  - apply has_char_strip.
    by eapply (proj1 (Forall_forall _ _) (ParserFacts.split_sep_free sep text)).
Qed.

Lemma concat_cons_cons sep a b l :
  join sep (a :: b :: l) = a +:+ sep +:+ join sep (b :: l).
Proof. reflexivity. Qed.

Lemma concat_push sep p a l :
  p +:+ join sep (a :: l) = join sep ((p +:+ a) :: l).
Proof.
  destruct l as [|b l]; [done|].
  by rewrite !concat_cons_cons, sapp_assoc.
Qed.

Lemma split_join_comma ks : ∀ k,
  has_char "," k = false → Forall (λ x, has_char "," x = false) ks →
  split "," (join ", " (k :: ks)) = k :: ((λ x, " " +:+ x) <$> ks).
Proof.
  induction ks as [|k' ks IH]; intros k Hk Hks.
  - by apply split_no_sep.
  - inversion Hks as [|?? Hk' Hks']; subst.
    rewrite concat_cons_cons.
    change (", " +:+ join ", " (k' :: ks))
      with (","%chr :: (" " +:+ join ", " (k' :: ks))).
    rewrite split_app by done. rewrite concat_push, IH; [done| |done].
    by rewrite has_char_app, Hk'.
Qed.

Lemma strip_kept parts :
  Forall (λ p, strip p ≠ "") parts →
  filter (λ kw, truthy_str (strip kw) = true) parts = parts.
Proof.
  induction 1 as [|p parts Hp _ IH]; [done|].
  rewrite filter_cons, IH. destruct (decide _) as [|Hd]; [done|].
  by apply truthy_strip in Hp.
Qed.

Lemma strip_space_app x : strip (" " +:+ x) = strip x.
Proof. by apply (strip_space " "%chr x). Qed.

Lemma stripped_parts_join_comma kws :
  Forall (clean ",") kws → stripped_parts "," (join ", " kws) = kws.
Proof.
  destruct kws as [|k ks]; [done|]. intros Hc.
  inversion Hc as [|?? (Hne & Hs & Hk) Hks]; subst.
  unfold stripped_parts. rewrite split_join_comma; [|done|].
  2:{ eapply Forall_impl; [exact Hks|]. by intros ? (_ & _ & ?). }
  rewrite strip_kept.
  - cbn [fmap list_fmap]. rewrite Hs. f_equal.
    rewrite <-list_fmap_compose. clear Hc.
    induction Hks as [|x xs (_ & Hx & _) _ IH]; [done|].
    cbn [fmap list_fmap compose]. rewrite IH. f_equal.
    by rewrite strip_space_app.
  - constructor; [by rewrite Hs|]. apply Forall_fmap.
    eapply Forall_impl; [exact Hks|]. intros x (Hx & Hsx & _).
    unfold compose. by rewrite strip_space_app, Hsx.
Qed.

Lemma stripped_parts_join_lines ts :
  Forall (clean newline) ts →
  stripped_parts newline (join [newline] ts) = ts.
Proof.
  destruct ts as [|t ts]; [done|]. intros Hc.
  unfold stripped_parts. rewrite split_join; [| |done].
  2:{ eapply Forall_impl; [exact Hc|]. by intros ? (_ & _ & ?). }
  rewrite strip_kept.
  - induction Hc as [|x xs (_ & Hx & _) _ IH]; [done|].
    cbn. by rewrite Hx, IH.
  - eapply Forall_impl; [exact Hc|]. intros x (Hx & Hsx & _).
    by rewrite Hsx.
Qed.

End FormFacts.

Module ElapsedFacts.
Import PyStr Py StrPred AppV2Main PyStrFacts.

Lemma length_sapp a b :
  length (a +:+ b) = (length a + length b)%nat.
Proof. induction a as [|c a IH]; [done|]. rewrite sapp_cons. cbn. by rewrite IH. Qed.

Lemma format_02d_two_digits n :
  0 ≤ n < 100 →
  length (format_02d n) = 2%nat
  ∧ all_chars isdecimal (format_02d n) = true.
Proof.
  intros Hn.
  assert (forallb (λ k : nat,
            Nat.eqb (length (format_02d (Z.of_nat k))) 2
            && all_chars isdecimal (format_02d (Z.of_nat k)))
            (seq 0 100) = true) as H by (vm_compute; reflexivity).
  rewrite forallb_forall in H.
  specialize (H (Z.to_nat n)). rewrite Z2Nat.id in H by lia.
  destruct (andb_prop _ _ (H ltac:(apply in_seq; lia))) as [H1 H2].
  split; [by apply Nat.eqb_eq|done].
Qed.

Lemma elapsed_parts e :
  0 ≤ e →
  0 ≤ e `div` 3600 ∧ 0 ≤ (e `mod` 3600) `div` 60 < 60
  ∧ 0 ≤ (e `mod` 3600) `mod` 60 < 60
  ∧ e = 3600 * (e `div` 3600) + 60 * ((e `mod` 3600) `div` 60)
        + (e `mod` 3600) `mod` 60.
Proof.
  intros He.
  pose proof (Z.mod_pos_bound e 3600 ltac:(lia)).
  pose proof (Z.mod_pos_bound (e `mod` 3600) 60 ltac:(lia)).
  pose proof (Z.div_mod e 3600 ltac:(lia)).
  pose proof (Z.div_mod (e `mod` 3600) 60 ltac:(lia)).
  repeat split; try lia;
    first [apply Z.div_pos; lia | apply Z.div_lt_upper_bound; lia].
Qed.

End ElapsedFacts.

Module FormTheorems.
Import PyStr Py Run TopicIdeaAgent TopicIdeaAgentRun GenerateSpec.
Import Convention StrPred AppV2Main PromptSpec.


(** With the three optional fields of the form left empty,
  [generate_topics] runs the model on the bare prompt: the empty lists
  and the empty text are passed as [None], and none of the headings of
  the three optional sections occurs in the prompt unless the blog
  address holds it. *)
Theorem empty_form_runs_bare_prompt {Model : Type}
  (runner : Agent → string → Model → res string * Model)
  (DEFAULT_MODEL model reference_blog : string) (n : Z) (u : ui)
  (m : Model) :
generate_topics runner DEFAULT_MODEL model reference_blog [] "" [] n (u, m)
= match runner (topic_generator (model_used DEFAULT_MODEL model))
          (bare_prompt reference_blog "" n) m with
  | (Ok raw, m') =>
      (match _parse_topic_ideas raw with
       | Ok topics => Ok (Success topics)
       | Raise e => Ok (Failure (exn_str e))
       end, (UI (info "Topic ideas generated!") 100, m'))
  | (Raise e, m') =>
      (Ok (Failure (exn_str e)),
       (UI (info ("Error: " +:+ exn_str e)) 0, m'))
  end
∧ ∀ heading, heading ∈ section_headings →
    contains heading reference_blog = false →
    contains heading (bare_prompt reference_blog "" n) = false.
Proof.
split; [apply AppV2Facts.generate_topics_eq|].
intros heading Hh Hrb.
apply PromptFacts.bare_prompt_no_heading; [done|done|].
unfold section_headings in Hh.
repeat (apply elem_of_cons in Hh as [->|Hh]; [reflexivity|]).
by apply elem_of_nil in Hh.
Qed.

(** Every keyword and every existing title the form passes on has some
  text, no whitespace around it and no separator inside (no comma in a
  keyword, no line break in a title), whatever was typed. *)
Theorem form_entries_clean (keywords_input existing_topics_input : string) :
Forall (clean ",") (parse_keywords keywords_input)
∧ Forall (clean newline) (parse_existing_topics existing_topics_input).
Proof.
unfold parse_keywords, parse_existing_topics.
rewrite !FormFacts.guard_redundant.
split; apply FormFacts.stripped_parts_clean.
Qed.

(** Keywords typed with ", " between them, and titles typed one per line,
  come back as they are, in order. *)
Theorem form_entries_round_trip (kws ts : list string) :
Forall (clean ",") kws → Forall (clean newline) ts →
parse_keywords (join ", " kws) = kws
∧ parse_existing_topics (join [newline] ts) = ts.
Proof.
intros Hk Ht. unfold parse_keywords, parse_existing_topics.
rewrite !FormFacts.guard_redundant.
split.
- by apply FormFacts.stripped_parts_join_comma.
- by apply FormFacts.stripped_parts_join_lines.
Qed.

Lemma form_entries_round_trip_witness :
parse_keywords "safety knives, utility knives"
= ["safety knives"; "utility knives"]
∧ parse_existing_topics "How to Choose a Knife
10 Tips for Warehouse Safety"
  = ["How to Choose a Knife"; "10 Tips for Warehouse Safety"].
Proof.
apply (form_entries_round_trip ["safety knives"; "utility knives"]
         ["How to Choose a Knife"; "10 Tips for Warehouse Safety"]);
  repeat constructor; discriminate.
Defined.

(** The number of topics asked for is between 1 and 20 whatever the text
  field holds: an integer is brought into that range, and a text [int]
  refuses with [ValueError] gives 5. *)
Theorem num_topics_in_range (int : string → res Z) (num_topics_input : string) :
(∀ n, parse_num_topics int num_topics_input = Ok n → 1 ≤ n ≤ 20)
∧ (∀ k, int num_topics_input = Ok k →
     parse_num_topics int num_topics_input = Ok (Z.max 1 (Z.min 20 k)))
∧ (∀ msg, int num_topics_input = Raise (Exn "ValueError" msg) →
     parse_num_topics int num_topics_input = Ok 5).
Proof.
unfold parse_num_topics. split; [|split].
- intros n. destruct (int num_topics_input) as [k|e].
  + intros [= <-]. destruct (k <? 1) eqn:H1; [lia|].
    destruct (k >? 20) eqn:H2; [lia|]. lia.
  + destruct (bool_decide _); [|done]. intros [= <-]. lia.
- intros k ->. f_equal. destruct (k <? 1) eqn:H1; [lia|].
  destruct (k >? 20) eqn:H2; lia.
- by intros msg ->.
Qed.

(** The elapsed time is shown as HH:MM:SS: for a count of seconds below
  100 hours, eight characters, two decimal digits for each of the hours,
  the minutes (below 60) and the seconds (below 60), which add up to the
  count. *)
Theorem elapsed_time_format (elapsed_seconds : Z) :
0 ≤ elapsed_seconds < 360000 →
∃ h m s,
  0 ≤ h < 100 ∧ 0 ≤ m < 60 ∧ 0 ≤ s < 60
  ∧ elapsed_seconds = 3600 * h + 60 * m + s
  ∧ format_elapsed elapsed_seconds
    = format_02d h +:+ ":" +:+ format_02d m +:+ ":" +:+ format_02d s
  ∧ length (format_elapsed elapsed_seconds) = 8%nat
  ∧ Forall (λ part, length part = 2%nat
                    ∧ all_chars isdecimal part = true)
      [format_02d h; format_02d m; format_02d s].
Proof.
intros He.
destruct (ElapsedFacts.elapsed_parts elapsed_seconds) as (Hh & Hm & Hs & Heq);
  [lia|].
exists (elapsed_seconds `div` 3600),
  ((elapsed_seconds `mod` 3600) `div` 60),
  ((elapsed_seconds `mod` 3600) `mod` 60).
assert (elapsed_seconds `div` 3600 < 100)
  by (apply Z.div_lt_upper_bound; lia).
destruct (ElapsedFacts.format_02d_two_digits (elapsed_seconds `div` 3600))
  as [L1 D1]; [lia|].
destruct (ElapsedFacts.format_02d_two_digits
            ((elapsed_seconds `mod` 3600) `div` 60)) as [L2 D2]; [lia|].
destruct (ElapsedFacts.format_02d_two_digits
            ((elapsed_seconds `mod` 3600) `mod` 60)) as [L3 D3]; [lia|].
repeat split; try lia; try done.
- unfold format_elapsed. rewrite !ElapsedFacts.length_sapp, L1, L2, L3.
  reflexivity.
- by repeat constructor.
Qed.

Lemma elapsed_time_format_witness :
format_elapsed 3725 = "01:02:05".
Proof.
destruct (elapsed_time_format 3725) as (h & m & s & _ & _ & _ & _ & _);
  [lia|reflexivity].
Defined.

(** The generation block of the page: when the model answers, the progress
  bar is full, the status tells how many topics were parsed and the time,
  and the topics replace those of the session; when it fails, the status
  shows the error and the time, the progress bar stays at 0 and the
  topics of the session stay as they were. *)
Theorem run_generation_outcome {Model : Type}
  (runner : Agent → string → Model → res string * Model)
  (DEFAULT_MODEL model reference_blog : string) (kws : list string)
  (pt : string) (ts : list string) (n elapsed_seconds : Z)
  (generated_topics : option (list (gmap string value))) (m : Model) :
(∀ raw m',
   runner (topic_generator (model_used DEFAULT_MODEL model))
     (_build_prompt reference_blog "" (or_none truthy_list kws)
        (or_none truthy_str pt) (or_none truthy_list ts) n) m
   = (Ok raw, m') →
   ∃ topics,
     _parse_topic_ideas raw = Ok topics
     ∧ run_generation runner DEFAULT_MODEL model reference_blog kws pt ts
         n elapsed_seconds generated_topics m
       = (Ok (UI (success ("Generated " +:+ str_of_Z (len topics)
                           +:+ " topic ideas! Time elapsed: "
                           +:+ format_elapsed elapsed_seconds)) 100,
              Some topics), m'))
∧ (∀ e m',
     runner (topic_generator (model_used DEFAULT_MODEL model))
       (_build_prompt reference_blog "" (or_none truthy_list kws)
          (or_none truthy_str pt) (or_none truthy_list ts) n) m
     = (Raise e, m') →
     run_generation runner DEFAULT_MODEL model reference_blog kws pt ts n
       elapsed_seconds generated_topics m
     = (Ok (UI (error ("Error: " +:+ exn_str e +:+ " (Time elapsed: "
                       +:+ format_elapsed elapsed_seconds +:+ ")")) 0,
            generated_topics), m')).
Proof.
unfold run_generation. rewrite AppV2Facts.generate_topics_eq. split.
- intros raw m' ->.
  destruct (ParserFacts.parse_total raw) as (topics & Hp & _).
  exists topics. by rewrite Hp.
- by intros e m' ->.
Qed.

End FormTheorems.

Module RunFacts.
Import PyStr Py Run Orchestrator Stages RunSpec OrchestratorFacts.

Section WithRunner.
Context {World : Type}.
Variable runner : agent → string → World → res RunResult * World.

Lemma run_agent_safely_eq a prompt (st : @state World) :
  _run_agent_safely runner a prompt st
  = match runner a prompt (world st) with
    | (Ok r, w1) => (Ok r, State w1 (calls st ++ [Call a prompt (Ok r)]))
    | (Raise e, w1) =>
        if contains "event loop" (lower (exn_str e)) then
          ((runner a prompt w1).1,
           State (runner a prompt w1).2
             (calls st ++ [Call a prompt (Raise e);
                           Call a prompt (runner a prompt w1).1]))
        else (Raise e, State w1 (calls st ++ [Call a prompt (Raise e)]))
    end.
Proof.
  unfold _run_agent_safely, try_except, run_sync.
  destruct (runner a prompt (world st)) as [[r|e] w1]; [done|].
  destruct (contains _ _); [|done]. cbn.
  destruct (runner a prompt w1) as [r2 w2]. cbn.
  by rewrite <-(assoc_L (++)).
Qed.

Lemma quiet_notify (cb : option (@callback World)) message progress st :
  quiet cb →
  notify cb message progress st
  = (Ok (), (notify cb message progress st).2).
Proof.
  destruct cb as [f|]; cbn; [|done]. intros Hq.
  specialize (Hq message progress (world st)).
  destruct (f _ _ _) as [r w]. cbn in *. by rewrite Hq.
Qed.

Lemma quiet_analyze (cb : option (@callback World)) blog_source st :
  quiet cb →
  ∃ sg st', analyze_blog_style runner blog_source cb st = (Ok sg, st').
Proof.
  intros Hq. unfold analyze_blog_style. rewrite bind_eq.
  rewrite quiet_notify by done. unfold try_except. rewrite bind_eq.
  rewrite quiet_notify by done. rewrite bind_eq.
  destruct (_run_agent_safely _ _ _ _) as [[r|e] st']; cbn; eauto.
Qed.

Lemma quiet_style (cb : option (@callback World)) reference_blog st :
  quiet cb → ∃ sg st', style runner reference_blog cb st = (Ok sg, st').
Proof.
  intros Hq. unfold style. rewrite bind_eq, quiet_notify by done.
  by apply quiet_analyze.
Qed.

Lemma quiet_fail (cb : option (@callback World)) results e st :
  quiet cb →
  fail cb results e st
  = (Ok (<["error" := exn_str e]> results),
     (notify cb ("❌ Error: " +:+ exn_str e) 0 st).2).
Proof.
  intros Hq. unfold fail. by rewrite bind_eq, quiet_notify.
Qed.

(** The results a run can return when the callback never raises. *)
Lemma quiet_run_shape (cb : option (@callback World)) topic
    reference_blog requirements st :
  quiet cb →
  ∃ r st',
    create_blog_post runner topic reference_blog requirements cb st
    = (Ok r, st')
    ∧ ((∃ sg rs dr fn,
          r = <["final" := fn]>
                (<["draft" := dr]>
                   (<["research" := rs]> {[ "style_guide" := sg ]})))
       ∨ (∃ msg sg, r = <["error" := msg]> {[ "style_guide" := sg ]})
       ∨ (∃ msg sg rs,
            r = <["error" := msg]>
                  (<["research" := rs]> {[ "style_guide" := sg ]}))
       ∨ (∃ msg sg rs dr,
            r = <["error" := msg]>
                  (<["draft" := dr]>
                     (<["research" := rs]> {[ "style_guide" := sg ]})))).
Proof.
  intros Hq. rewrite create_blog_post_staged. unfold staged.
  destruct (quiet_style cb reference_blog st Hq) as (sg & st1 & ->).
  destruct (research _ _ _ _ st1) as [[rs|e] st2].
  2:{ rewrite quiet_fail by done. eexists _, _. split; [done|].
      right. left. eauto. }
  destruct (write _ _ _ _ _ _ _ st2) as [[dr|e] st3].
  2:{ rewrite quiet_fail by done. eexists _, _. split; [done|].
      right. right. left. eauto. }
  destruct (edit _ _ _ _ _ st3) as [[fn|e] st4].
  2:{ rewrite quiet_fail by done. eexists _, _. split; [done|].
      right. right. right. eauto. }
  unfold finish. rewrite quiet_notify by done.
  eexists _, _. split; [done|]. left. eauto.
Qed.

End WithRunner.
End RunFacts.

Module RunTheorems.
Import PyStr Py Run Orchestrator RunSpec.

(** [_run_agent_safely] runs the model once, and once more when the first
  run fails with a message that holds "event loop" in any letter case;
  both runs are of the same agent on the same prompt, and the outcome is
  that of the last run: another failure is let through. *)
Theorem run_agent_safely_retries_once {World : Type}
  (runner : agent → string → World → res RunResult * World)
  (a : agent) (prompt : string) (st : @state World) :
∃ new,
  calls (_run_agent_safely runner a prompt st).2 = calls st ++ new
  ∧ (1 ≤ length new ≤ 2)%nat
  ∧ Forall (same_call a prompt) new
  ∧ call_result <$> last new
    = Some (_run_agent_safely runner a prompt st).1
  ∧ (length new = 2%nat ↔
     ∃ e, (runner a prompt (world st)).1 = Raise e
          ∧ contains "event loop" (lower (exn_str e)) = true).
Proof.
rewrite RunFacts.run_agent_safely_eq.
destruct (runner a prompt (world st)) as [[r|e] w1] eqn:H1.
- eexists. split; [done|]. cbn. split; [lia|].
  split; [by repeat constructor|]. split; [done|].
  split; [intros [=]|]. by intros (e & [=] & _).
- destruct (contains _ _) eqn:Hc.
  + eexists. split; [done|]. cbn. split; [lia|].
    split; [by repeat constructor|]. split; [done|].
    split; [eauto|done].
  + eexists. split; [done|]. cbn. split; [lia|].
    split; [by repeat constructor|]. split; [done|].
    split; [intros [=]|].
    intros (e' & [= <-] & He'). by rewrite Hc in He'.
Qed.

(** With no status callback, or one that never raises, [create_blog_post]
  never raises: it returns a dictionary that always holds a style guide,
  and either the final text or an error, never both; with no error it
  holds exactly the four texts of the stages. *)
Theorem create_blog_post_returns_final_or_error {World : Type}
  (runner : agent → string → World → res RunResult * World)
  (topic reference_blog requirements : string)
  (cb : option (@callback World)) (st : @state World) :
quiet cb →
∃ r st',
  create_blog_post runner topic reference_blog requirements cb st
  = (Ok r, st')
  ∧ is_Some (r !! "style_guide")
  ∧ (is_Some (r !! "final") ↔ r !! "error" = None)
  ∧ (r !! "error" = None → dom r = stage_keys).
Proof.
intros Hq.
destruct (RunFacts.quiet_run_shape runner cb topic reference_blog
            requirements st Hq) as (r & st' & Hrun & Hshape).
exists r, st'. split; [done|].
destruct Hshape as [(sg & rs & dr & fn & ->)|[(msg & sg & ->)
  |[(msg & sg & rs & ->)|(msg & sg & rs & dr & ->)]]].
- split; [by eexists|]. split; [by split; [|eexists]|].
  intros _. rewrite !dom_insert_L, dom_singleton_L. unfold stage_keys.
  set_solver.
- split; [by eexists|]. split; [|done].
  split; [by intros [? [=]]|done].
- split; [by eexists|]. split; [|done].
  split; [by intros [? [=]]|done].
- split; [by eexists|]. split; [|done].
  split; [by intros [? [=]]|done].
Qed.

Lemma create_blog_post_returns_final_or_error_witness :
∃ r st',
  create_blog_post (Mock.failing (World:=()) editor Mock.unavailable
                      Mock.two_paragraphs)
    "Remote Work" "ExampleBlog.com" "" None (State () [])
  = (Ok r, st')
  ∧ r !! "error" = Some "model unavailable" ∧ r !! "final" = None.
Proof.
destruct (create_blog_post_returns_final_or_error
            (Mock.failing (World:=()) editor Mock.unavailable
               Mock.two_paragraphs)
            "Remote Work" "ExampleBlog.com" "" None (State () []))
  as (r & st' & Hrun & _); [done|].
exists r, st'. split; [done|].
apply (f_equal fst) in Hrun. cbn in Hrun. by injection Hrun as <-.
Defined.

End RunTheorems.

Module PageFacts.
Import PyStr Py Run Orchestrator Stages PageSpec RunSpec.
Import OrchestratorFacts AppFacts StrPred.

Section WithRunner.
Context {Model : Type}.
Variable runner : agent → string → Model → res RunResult * Model.




Lemma show_eq x (st : @App.state Model) :
  App.show x st
  = (Ok (),
     State (App.UI (App.status_text (world st).1)
              (App.progress_bar (world st).1)
              (App.page (world st).1 ++ [x]), (world st).2) (calls st)).
Proof. done. Qed.






End WithRunner.
End PageFacts.

Module FileNameFacts.
Import PyStr StrPred PyStrFacts.

Lemma replace_no_char a b s : a ≠ b → has_char a (App.replace a b s) = false.
Proof.
  intros Hab. induction s as [|c s IH]; [done|]. cbn. rewrite IH.
  destruct (N.eqb_spec c a) as [->|Hc].
  - rewrite orb_false_r. by apply N.eqb_neq.
  - rewrite orb_false_r. by apply N.eqb_neq.
Qed.

Lemma length_app_str a b :
  length (a +:+ b) = (length a + length b)%nat.
Proof.
  induction a as [|c a IH]; [done|]. rewrite sapp_cons. cbn. by rewrite IH.
Qed.

Lemma length_replace a b s :
  length (App.replace a b s) = length s.
Proof. induction s as [|c s IH]; [done|]. cbn. by rewrite IH. Qed.

Lemma length_str_take n : ∀ s,
  length (App.str_take n s) = (n `min` length s)%nat.
Proof.
  induction n as [|n IH]; intros [|c s]; cbn; try done. by rewrite IH.
Qed.

End FileNameFacts.

Module PageTheorems.
Import PyStr Py Run Orchestrator RunSpec PageSpec StrPred.



(** The name of the downloaded file: "blog_post_", at most the first 30
  characters of the topic with every space turned into an underscore, and
  ".txt"; it holds no space and at most 44 characters. *)
Theorem download_file_name_shape (topic : string) :
has_char " "
  ("blog_post_" +:+ App.replace " " "_" (App.str_take 30 topic) +:+ ".txt")
= false
∧ length
    ("blog_post_" +:+ App.replace " " "_" (App.str_take 30 topic)
     +:+ ".txt")
  = (14 + 30 `min` length topic)%nat.
Proof.
split.
- rewrite !PyStrFacts.has_char_app, FileNameFacts.replace_no_char by done.
  reflexivity.
- rewrite !FileNameFacts.length_app_str. cbn [length].
  rewrite FileNameFacts.length_replace, FileNameFacts.length_str_take. lia.
Qed.

End PageTheorems.

Module PoolFailureFacts.
Import PyStr Py Run Orchestrator RunSpec OrchestratorFacts PoolFacts.

Lemma collect_raises (outcomes : gmap nat (res string)) :
  ∀ futures results,
    (∀ a j, (a, j) ∈ futures → is_Some (outcomes !! j)) →
    (∃ a j e, (a, j) ∈ futures ∧ outcomes !! j = Some (Raise e)) →
    ∃ e, collect outcomes futures results = Raise e.
Proof.
  induction futures as [|[a0 j0] futures IH]; intros results Hall Hbad.
  - destruct Hbad as (a & j & e & []%elem_of_nil & _).
  - cbn. unfold future_result.
    destruct (Hall a0 j0) as [[v|e0] H0]; [left| |]; rewrite H0; cbn;
      [|eauto].
    apply IH.
    + intros a j Hin. apply (Hall a j). by right.
    + destruct Hbad as (a & j & e & [[= -> ->]|Hin]%elem_of_cons & Hj).
      * by rewrite H0 in Hj.
      * eauto.
Qed.

Section WithRunner.
Context {World : Type}.
Variable runner : agent → string → World → res RunResult * World.
Variables (topic : string) (areas : list string).

(** Every scheduled job leaves the outcome of a call of the researcher
    on the prompt of its area. *)
Lemma run_pool_outcomes : ∀ schedule outcomes (st : @state World),
  (∀ i, i ∈ schedule → (i < length areas)%nat) →
  ∃ outcomes' st',
    run_pool (research_area runner topic <$> areas) schedule outcomes st
    = (outcomes', st')
    ∧ (∀ i, i ∈ schedule ∨ is_Some (outcomes !! i) →
         is_Some (outcomes' !! i))
    ∧ (∀ i r, outcomes' !! i = Some r →
         outcomes !! i = Some r
         ∨ ∃ area w,
             areas !! i = Some area
             ∧ r = outcome (runner researcher (area_prompt topic area) w).1)
    ∧ length (calls st') = (length (calls st) + length schedule)%nat.
Proof.
  induction schedule as [|i schedule IH]; intros outcomes st Hlt; cbn.
  - exists outcomes, st. split; [done|]. split; [|split; [auto|lia]].
    intros i [[]%elem_of_nil|?]; done.
  - destruct (lookup_lt_is_Some_2 areas i) as [area Harea];
      [apply Hlt; left|].
    rewrite list_lookup_fmap, Harea. cbn.
    unfold research_area at 1. rewrite bind_eq. unfold run_sync at 1.
    destruct (runner researcher (area_prompt topic area) (world st))
      as [[x|e] w'] eqn:Hrun; cbn [mret M_ret].
    all: match goal with
         | |- context [run_pool _ _ (<[_ := ?o]> _) ?s1] =>
             destruct (IH (<[i := o]> outcomes) s1)
               as (o' & st' & -> & Hs & Ha & Hl);
             [intros j Hj; apply Hlt; by right|]
         end.
    all: exists o', st'; split; [done|]; split; [|split].
    all: try (rewrite Hl; cbn; rewrite length_app; cbn; lia).
    all: try (intros j [[->|?]%elem_of_cons|?]; apply Hs;
              [right; by rewrite lookup_insert_eq
              |by left
              |right; destruct (decide (i = j)) as [->|?];
               [by rewrite lookup_insert_eq|by rewrite lookup_insert_ne]]).
    all: intros j r' [[[<- <-]|[_ ?]]%lookup_insert_Some|?]%Ha; auto;
      right; exists area, (world st); split; [done|];
      exact (eq_sym (f_equal (λ p, outcome p.1) Hrun)).
Qed.

End WithRunner.
End PoolFailureFacts.

Module FanOutFailureTheorems.
Import PyStr Py Run Orchestrator RunSpec.

(** One failing area fails the whole fan-out: when the model fails on the
  prompt of one of the research areas, [parallel_research] raises and
  returns no mapping, not even of the areas that were answered; it does so
  after the calls for all areas were made, in whatever order they ran. *)
Theorem parallel_research_fails_with_one_area {World : Type}
  (runner : agent → string → World → res RunResult * World)
  (topic : string) (research_areas : list string) (schedule : list nat)
  (st : @state World) (area : string) :
schedule ≡ₚ seq 0 (length research_areas) →
area ∈ research_areas →
(∀ w, ∃ e, (runner researcher (area_prompt topic area) w).1 = Raise e) →
∃ e st',
  parallel_research runner topic research_areas schedule st = (Raise e, st')
  ∧ length (calls st')
    = (length (calls st) + length research_areas)%nat.
Proof.
intros Hp Harea Hfail. unfold parallel_research.
destruct (PoolFailureFacts.run_pool_outcomes runner topic research_areas
            schedule ∅ st) as (outcomes & st' & -> & Hs & Ha & Hl).
{ intros i Hi. rewrite Hp in Hi. apply elem_of_seq in Hi. lia. }
assert (∀ a j, (a, j) ∈ submit_all 0 research_areas [] →
          research_areas !! j = Some a ∧ is_Some (outcomes !! j)) as Hfut.
{ intros a j [[]%elem_of_nil|(k & Hk & ->)]%PoolFacts.submit_all_elem.
  split; [done|]. apply Hs. left. rewrite Hp. apply elem_of_seq.
  apply lookup_lt_Some in Hk. lia. }
destruct (PoolFailureFacts.collect_raises outcomes
            (submit_all 0 research_areas []) ∅) as [e He].
- intros a j Hin. by apply (Hfut a j).
- assert (area ∈ (submit_all 0 research_areas []).*1) as Hin
    by (apply PoolFacts.submit_all_keys; by right).
  apply list_elem_of_fmap in Hin as ([a j] & Heq & Hin).
  cbn in Heq. subst a.
  destruct (Hfut _ _ Hin) as [Hj [r Hr]].
  destruct (Ha _ _ Hr) as [[=]|(area' & w & Hj' & ->)].
  rewrite Hj in Hj'. injection Hj' as <-.
  destruct (Hfail w) as [e He]. exists area, j, e. split; [done|].
  by rewrite Hr, He.
- exists e, st'. split; [by rewrite He|].
  rewrite Hl. f_equal. by rewrite Hp, length_seq.
Qed.

Lemma parallel_research_fails_with_one_area_witness :
∃ e st',
  parallel_research
    (Mock.failing (World:=()) researcher Mock.unavailable "")
    "Remote Work" ["hiring"; "office costs"] [1; 0]%nat (State () [])
  = (Raise e, st')
  ∧ length (calls st') = 2%nat.
Proof.
apply (parallel_research_fails_with_one_area
         (Mock.failing (World:=()) researcher Mock.unavailable "")
         "Remote Work" ["hiring"; "office costs"] [1; 0]%nat
         (State () []) "hiring").
- apply Permutation_swap.
- left.
- intros w. by exists Mock.unavailable.
Defined.

End FanOutFailureTheorems.

Module OrderFacts.
Import Py Run Workflow TraceSpec WorkflowLogic OrderSpec WorkflowFacts.

Section WithRunner.
Context {World : Type}.
Variable runner :
  agent → string → list (string * value) → World → res value * World.

Ltac lookup_state :=
  cbn [state];
  repeat (rewrite lookup_insert_ne by discriminate);
  first [apply lookup_insert_eq | reflexivity].

Ltac wp_step leaf :=
  cbn [state world trace];
  lazymatch goal with
  | |- wp (_ ≫= _) _ _ => apply wp_bind
  | |- wp (mret _) _ _ => apply wp_ret
  | |- wp (getitem _ _) _ _ => apply wp_getitem; [intros ? ?|intros ?]
  | |- wp (state_get _) _ _ => eapply wp_state_get; [lookup_state|]
  | |- wp (state_get2 _ _) _ _ =>
      eapply wp_state_get2; [lookup_state|reflexivity|]
  | |- wp (state_set _ _) _ _ => apply wp_state_set
  | |- wp (run _ _ _ _) _ _ => apply wp_run; intros [?|?] ?
  | |- wp (model_dump _) _ _ =>
      apply wp_model_dump; [intros ? ->|intros ?]
  | |- _ => leaf
  end.


(** The fields of [state] no statement assigns keep their first
    values. *)
Lemma run_workflow_untouched input w :
  state (run_workflow runner input w).2 !! "edit_output" = Some VNone
  ∧ state (run_workflow runner input w).2 !! "response_schema"
    = Some (VDict empty_schema)
  ∧ state (run_workflow runner input w).2 !! "global"
    = Some (VDict empty_schema).
Proof.
  unfold run_workflow.
  change (wp (run_body runner input) (WState w initial_state [])
            (λ _ s, state s !! "edit_output" = Some VNone
                    ∧ state s !! "response_schema"
                      = Some (VDict empty_schema)
                    ∧ state s !! "global" = Some (VDict empty_schema))).
  unfold run_body.
  repeat wp_step ltac:(split; [lookup_state|split; lookup_state]).
Qed.

End WithRunner.
End OrderFacts.

Module OrderTheorems.
Import Py Run Workflow TraceSpec OrderSpec.



(** The field [state["edit_output"]], made for the text of the editor, is
  never assigned: the text is returned only.  At the end of every run the
  field is still [None], and [state["response_schema"]] and
  [state["global"]] still hold the empty schema they start with. *)
Theorem workflow_never_stores_editor_output {World : Type}
  (runner :
     agent → string → list (string * value) → World → res value * World)
  (input_as_text : string) (w : World) :
state (run_workflow runner input_as_text w).2 !! "edit_output"
= Some VNone
∧ state (run_workflow runner input_as_text w).2 !! "response_schema"
  = Some (VDict empty_schema)
∧ state (run_workflow runner input_as_text w).2 !! "global"
  = Some (VDict empty_schema).
Proof. apply OrderFacts.run_workflow_untouched. Qed.

End OrderTheorems.

Module HandlerFacts.
Import PyStr Py AppV2Json HandlerSpec.

Lemma emit_step msg h :
  inv h →
  ∃ h', emit msg h = Ok h' ∧ inv h'
        ∧ agent_count h'
          = agent_count h + (if answered_request msg then 1 else 0).
Proof.
  intros (Hc & Hp & Hs). unfold emit.
  fold (answered_request msg). destruct (answered_request msg).
  2:{ exists h. split; [done|]. split; [done|lia]. }
  change (len agents) with 7.
  destruct (Z.leb_spec (agent_count h + 1) 7) as [Hle|Hgt].
  - destruct (Z.ltb_spec (agent_count h + 1) 7) as [Hlt|Hge].
    + assert (∃ k : nat, (k < 6)%nat ∧ agent_count h = Z.of_nat k)
        as (k & Hk & Hck) by (exists (Z.to_nat (agent_count h)); lia).
      rewrite Hck.
      do 6 (destruct k as [|k]; [eexists; split; [reflexivity|];
                                 split; [|reflexivity]; repeat split;
                                 cbn; try lia; try reflexivity|]).
      lia.
    + assert (agent_count h = 6) as Hc6 by lia. rewrite Hc6.
      eexists. split; [reflexivity|]. split; [|reflexivity].
      repeat split; cbn; try lia; reflexivity.
  - eexists. split; [reflexivity|]. split; [|reflexivity].
    unfold inv. cbn [agent_count progress_bar status_placeholder].
    split; [lia|]. split.
    + rewrite Hp. f_equal. lia.
    + intros _. apply Hs. lia.
Qed.

Lemma emit_all_steps msgs : ∀ h,
  inv h →
  ∃ h', emit_all msgs h = Ok h' ∧ inv h'
        ∧ agent_count h' = agent_count h + requests msgs.
Proof.
  induction msgs as [|msg msgs IH]; intros h Hh; cbn.
  - exists h. split; [done|]. split; [done|].
    unfold requests, len. cbn [List.filter length]. lia.
  - destruct (emit_step msg h Hh) as (h1 & -> & H1 & Hc1). cbn.
    destruct (IH h1 H1) as (h' & -> & H' & Hc'). exists h'.
    split; [done|]. split; [done|]. rewrite Hc', Hc1.
    unfold requests, len. cbn [List.filter].
    destruct (answered_request msg); cbn [length]; lia.
Qed.

End HandlerFacts.

Module HandlerTheorems.
Import PyStr Py AppV2Json HandlerSpec.

(** The progress handler of [call_workflow] counts the answered requests to
  the model: whatever the log records are, [emit] raises nothing; after
  [n] answered requests the counter is [n] and the progress bar shows
  [n/7] of 100, rounded down, for up to seven requests; from the seventh
  on the bar stays at 100 and the status at "All 7 agents completed!",
  however many requests follow. *)
Theorem progress_handler_counts_requests (msgs : list string)
  (status : alert) :
∃ h,
  emit_all msgs (Handler 0 0 status) = Ok h
  ∧ agent_count h = requests msgs
  ∧ progress_bar h = (Z.min 7 (requests msgs) * 100) `div` 7
  ∧ 0 ≤ progress_bar h ≤ 100
  ∧ (7 ≤ requests msgs →
     progress_bar h = 100
     ∧ status_placeholder h = success "All 7 agents completed!").
Proof.
destruct (HandlerFacts.emit_all_steps msgs (Handler 0 0 status))
  as (h & Hrun & (Hc & Hp & Hs) & Hn).
{ split; [done|]. split; [done|]. cbn. lia. }
cbn [agent_count] in Hn. rewrite Z.add_0_l in Hn.
exists h. split; [done|]. split; [done|].
assert (progress_bar h = (Z.min 7 (requests msgs) * 100) `div` 7) as Hbar
  by (by rewrite Hp, Hn).
split; [done|]. rewrite <-Hn in *. split.
- rewrite Hbar. split.
  + apply Z.div_pos; lia.
  + apply Z.div_le_upper_bound; lia.
- intros H7. split; [|by apply Hs].
  rewrite Hbar. by replace (Z.min 7 (agent_count h)) with 7 by lia.
Qed.

End HandlerTheorems.
